(** * Wrapping of bytes and fixed-point decimal inputs (codec/lib/wrap)

    A shallow embedding of [bytes.ts] and of the decimal case set, together
    with the dispatch engine they are run by, and the properties of the
    natural-language specification stated over them.

    Conventions of the embedding.
    - A JavaScript string is a [string]: one character per code unit, code
      units below 256.  The [text] of an encoding/text pair is kept as its
      list of UTF-16 code units, because lone surrogates decide that case.
    - big.js and bn.js are libraries outside the repository.  A [Big] is an
      exact decimal [unscaled / 10^scale]; a BN or a bigint is a [Z].
    - A generator is a tree [Gen]: it returns, throws, or yields a request
      and waits for the response. *)

From Stdlib Require Import ZArith List String Ascii Bool Lia.
From Stdlib Require Import Strings.Byte.
Import ListNotations.

Local Open Scope string_scope.
Local Open Scope Z_scope.

(* ================================================================== *)
(** ** big.js: exact base-10 decimals *)

Module Big.

(** The value of [mk u s] is [u / 10^s]. *)
Record t : Type := mk { unscaled : Z; scale : nat }.

Definition pow10 (n : nat) : Z := 10 ^ Z.of_nat n.

Definition of_Z (z : Z) : t := mk z 0.

(** [a.cmp(b)] *)
Definition cmp (a b : t) : comparison :=
  Z.compare (unscaled a * pow10 (scale b)) (unscaled b * pow10 (scale a)).

Definition gt (a b : t) : bool :=
  match cmp a b with Gt => true | _ => false end.

Definition lt (a b : t) : bool :=
  match cmp a b with Lt => true | _ => false end.

Definition eq (a b : t) : bool :=
  match cmp a b with Eq => true | _ => false end.

(** [a.plus(b)]: a new Big, on the larger of the two scales. *)
Definition plus (a b : t) : t :=
  let s := Nat.max (scale a) (scale b) in
  mk (unscaled a * pow10 (s - scale a) + unscaled b * pow10 (s - scale b)) s.

(** [m * 10^e] for an integer exponent of either sign. *)
Definition scaled (m e : Z) : t :=
  if 0 <=? e then mk (m * 10 ^ e) 0 else mk m (Z.to_nat (- e)).

(** Number of digits after the point once trailing zeros are dropped. *)
Fixpoint fractionDigits (u : Z) (s : nat) : nat :=
  match s with
  | O => O
  | S s' => if u mod 10 =? 0 then fractionDigits (u / 10) s' else s
  end.

(** *** [new Big(string)]

    The accepted strings are those of the library's pattern: an optional
    minus sign; digits with an optional point and further digits, or a
    point and at least one digit; an optional exponent, [e] or [E], an
    optional sign and at least one digit. *)

Definition isDigit (c : ascii) : bool :=
  let n := N_of_ascii c in ((48 <=? n) && (n <=? 57))%N.

Definition digitValue (c : ascii) : Z := Z.of_N (N_of_ascii c) - 48.

(** Longest prefix of digits, and what follows it. *)
Fixpoint spanDigits (s : string) : string * string :=
  match s with
  | String c rest =>
      if isDigit c
      then let '(ds, tl) := spanDigits rest in (String c ds, tl)
      else (EmptyString, s)
  | EmptyString => (EmptyString, EmptyString)
  end.

(** Value of a string of digits, read from the left. *)
Fixpoint digitsValue (acc : Z) (s : string) : Z :=
  match s with
  | String c rest => digitsValue (10 * acc + digitValue c) rest
  | EmptyString => acc
  end.

Definition nonEmpty (s : string) : bool :=
  match s with EmptyString => false | _ => true end.

Definition parseExponent (s : string) : option Z :=
  match s with
  | EmptyString => Some 0
  | String c rest =>
      if (Ascii.eqb c "e" || Ascii.eqb c "E")%bool then
        let '(negative, rest) :=
          match rest with
          | String "-" r => (true, r)
          | String "+" r => (false, r)
          | _ => (false, rest)
          end in
        let '(ds, tl) := spanDigits rest in
        if (nonEmpty ds && negb (nonEmpty tl))%bool
        then Some (if negative then - digitsValue 0 ds else digitsValue 0 ds)
        else None
      else None
  end.

Definition parse (s : string) : option t :=
  let '(negative, s) :=
    match s with String "-" r => (true, r) | _ => (false, s) end in
  let '(intPart, s) := spanDigits s in
  let '(hasDot, s) :=
    match s with String "." r => (true, r) | _ => (false, s) end in
  let '(fracPart, s) :=
    if hasDot then spanDigits s else (EmptyString, s) in
  if (nonEmpty intPart || (hasDot && nonEmpty fracPart))%bool then
    match parseExponent s with
    | Some e =>
        let m := digitsValue 0 (intPart ++ fracPart) in
        Some (scaled (if negative then - m else m)
                     (e - Z.of_nat (String.length fracPart)))
    | None => None
    end
  else None.

End Big.

(* ================================================================== *)
(** ** JavaScript primitives used by the cases *)

Module JS.

(** A number: NaN, an infinity, or a finite value.  A finite number is
    represented by the decimal its canonical string form denotes, which is
    what [new Big(number)] reads. *)
Inductive Number : Type :=
| NaN
| Infinity (negative : bool)
| Finite (d : Big.t).

Definition isFinite (n : Number) : bool :=
  match n with Finite _ => true | _ => false end.

Definition isInteger (n : Number) : bool :=
  match n with
  | Finite d => Nat.eqb (Big.fractionDigits (Big.unscaled d) (Big.scale d)) 0
  | _ => false
  end.

Definition MAX_SAFE_INTEGER : Z := 2 ^ 53 - 1.

Definition isSafeInteger (n : Number) : bool :=
  match n with
  | Finite d =>
      isInteger n
      && negb (Big.gt d (Big.of_Z MAX_SAFE_INTEGER))
      && negb (Big.lt d (Big.of_Z (- MAX_SAFE_INTEGER)))
  | _ => false
  end.

(** [n < k] and [n >= k] against an integer constant; false on NaN. *)
Definition ltZ (n : Number) (k : Z) : bool :=
  match n with
  | NaN => false
  | Infinity negative => negative
  | Finite d => Big.lt d (Big.of_Z k)
  end.

Definition geZ (n : Number) (k : Z) : bool :=
  match n with
  | NaN => false
  | Infinity negative => negb negative
  | Finite d => negb (Big.lt d (Big.of_Z k))
  end.

(** [z / 2] as a number: exact, since a half is a one-place decimal. *)
Definition half (z : Z) : Big.t := Big.mk (5 * z) 1.

(** [String.prototype.toLowerCase] on code units below 256. *)
Definition lowerChar (c : ascii) : ascii :=
  let n := N_of_ascii c in
  if (((65 <=? n) && (n <=? 90))
      || ((192 <=? n) && (n <=? 222) && negb (n =? 215)))%N%bool
  then ascii_of_N (n + 32)
  else c.

Fixpoint toLowerCase (s : string) : string :=
  match s with
  | String c rest => String (lowerChar c) (toLowerCase rest)
  | EmptyString => EmptyString
  end.

(** [n] characters of [filler] repeated, continuing from [rest]. *)
Fixpoint padding (filler rest : string) (n : nat) : string :=
  match n with
  | O => EmptyString
  | S n' =>
      match rest with
      | String c rest' => String c (padding filler rest' n')
      | EmptyString =>
          match filler with
          | String c filler' => String c (padding filler filler' n')
          | EmptyString => EmptyString
          end
      end
  end.

(** [s.padEnd(targetLength, filler)] *)
Definition padEnd (s : string) (targetLength : nat) (filler : string) : string :=
  s ++ padding filler filler (targetLength - String.length s).

(** White space and line terminators among the code units below 256. *)
Definition isWhiteSpace (c : ascii) : bool :=
  let n := N_of_ascii c in
  (((9 <=? n) && (n <=? 13)) || (n =? 32) || (n =? 160))%N%bool.

Fixpoint trimStart (s : string) : string :=
  match s with
  | String c rest => if isWhiteSpace c then trimStart rest else s
  | EmptyString => EmptyString
  end.

Fixpoint trimEnd (s : string) : string :=
  match s with
  | String c rest =>
      match trimEnd rest with
      | EmptyString => if isWhiteSpace c then EmptyString else String c EmptyString
      | kept => String c kept
      end
  | EmptyString => EmptyString
  end.

(** [s.trim()] *)
Definition trim (s : string) : string := trimEnd (trimStart s).

(** [Number(digits)] on a string of decimal digits (exact here; a double
    is exact up to [MAX_SAFE_INTEGER]). *)
Definition NumberOfDigits (digits : string) : nat :=
  Z.to_nat (Big.digitsValue 0 digits).

End JS.

(* ================================================================== *)
(** ** Format: type descriptors and wrapped results *)

Module Format.

Inductive BytesType : Type :=
| BytesTypeStatic (length : nat)
| BytesTypeDynamic.

Inductive DecimalClass : Type := fixed | ufixed.

Record DecimalType : Type :=
  { typeClass : DecimalClass; bits : nat; places : nat }.

Inductive IntegerClass : Type := int | uint.

(** [Format.Types.Type], as far as the cases look into it. *)
Inductive Type_ : Type :=
| BytesT (t : BytesType)
| DecimalT (t : DecimalType)
| IntegerT (c : IntegerClass) (bits : nat)
| EnumT (typeName : string)
| OtherT (typeClass : string).

(** [kind]: "value" or "error". *)
Inductive ResultKind : Type := ValueKind | ErrorKind.

(** The [error] of an enum error result. *)
Inductive EnumError : Type :=
| EnumOutOfRangeError (rawAsBN : Z)
| OtherEnumError (kind : string).

(** [Format.Values.BytesValue]: [{ type, kind: "value", value: { asHex } }] *)
Record BytesValue : Type := { bytesType : BytesType; asHex : string }.

(** [DecimalValue]: [{ type, kind: "value", value: { asBig } }] *)
Record DecimalValue : Type := { decimalType : DecimalType; asBig : Big.t }.

(** [Format.Values.Result]: the type class and the kind of a result fix
    the shape of its payload.  [OtherResult] stands for the results of
    every type class that is not listed before it. *)
Inductive Result : Type :=
| OfBytesValue (v : BytesValue)
| BytesErrorResult (type : BytesType)
| OfDecimalValue (v : DecimalValue)
| DecimalErrorResult (type : DecimalType)
| IntegerValue (c : IntegerClass) (bits : nat) (asBN : Z)
| IntegerErrorResult (c : IntegerClass) (bits : nat)
| EnumValue (typeName : string) (numericAsBN : Z)
| EnumErrorResult (typeName : string) (error : EnumError)
| OtherResult (typeClass : string) (kind : ResultKind).

(** [result.type] *)
Definition typeOf (r : Result) : Type_ :=
  match r with
  | OfBytesValue v => BytesT (bytesType v)
  | BytesErrorResult t => BytesT t
  | OfDecimalValue v => DecimalT (decimalType v)
  | DecimalErrorResult t => DecimalT t
  | IntegerValue c b _ | IntegerErrorResult c b => IntegerT c b
  | EnumValue n _ | EnumErrorResult n _ => EnumT n
  | OtherResult c _ => OtherT c
  end.

(** [result.kind] *)
Definition kindOf (r : Result) : ResultKind :=
  match r with
  | OfBytesValue _ | OfDecimalValue _ | IntegerValue _ _ _ | EnumValue _ _ => ValueKind
  | BytesErrorResult _ | DecimalErrorResult _ | IntegerErrorResult _ _
  | EnumErrorResult _ _ => ErrorKind
  | OtherResult _ k => k
  end.

Definition decimalClassEqb (a b : DecimalClass) : bool :=
  match a, b with
  | fixed, fixed | ufixed, ufixed => true
  | _, _ => false
  end.

End Format.

(* ================================================================== *)
(** ** Inputs, options, requests and responses *)

(** An element read from an array-like object by index. *)
Inductive Element : Type :=
| ENumber (n : JS.Number)
| ENotANumber.

(** An object with a numeric [length]: an honest [Uint8Array], or anything
    else that looks like one. *)
Inductive Uint8ArrayLike : Type :=
| Uint8Array (contents : list byte)
| ArrayLike (length : JS.Number) (elements : list Element).

(** The raw input: the shapes the bytes and decimal cases tell apart. *)
Inductive Input : Type :=
| IString (s : string)
| IBoxedString (s : string)
| INumber (n : JS.Number)
| IBoxedNumber (n : JS.Number)
| IBigint (z : Z)
| IBN (z : Z)
| IBig (b : Big.t)
| IUint8ArrayLike (a : Uint8ArrayLike)
| IEncodingTextInput (encoding : string) (text : list N)
| ITypeValueInput (type : string) (value : Input)
| IWrappedResult (r : Format.Result)
| IOther.

Record WrapOptions : Type := { name : string; loose : bool }.

(** [{ ...wrapOptions, loose: true }] *)
Definition withLoose (wrapOptions : WrapOptions) : WrapOptions :=
  {| name := name wrapOptions; loose := true |}.

Record DecimalWrapRequest : Type :=
  { request_kind : string; request_input : Input }.

(** A response: the decimal one, or one of another kind. *)
Inductive WrapResponse : Type :=
| DecimalWrapResponse (value : option Big.t) (reason : option string)
                      (partiallyRecognized : option bool)
| OtherWrapResponse.

(* ================================================================== *)
(** ** Messages and errors *)

Module Messages.

(** Modelled from the spec: the module [messages.ts] is not among the
    sources.  A message is kept as the name of the function that builds it,
    applied to its arguments; a text given as such (a literal of the source,
    the reason of a response) is a [Literal]. *)
Inductive Message : Type :=
| Literal (text : string)
| LiteralWithIndex (before : string) (index : nat) (after : string)
| notABytestringMessage (what : string)
| invalidUtf16Message
| wrappedTypeMessage (t : Format.Type_)
| errorResultMessage
| specifiedTypeMessage (type : string)
| overlongMessage (expected : nat) (actual : Big.t)
| nonNumericMessage
| tooPreciseMessage (expected actual : nat)
| outOfRangeMessage
| unrecognizedNumberMessage (t : Format.DecimalType).

End Messages.
Import Messages.

Record TypeMismatchError : Type :=
  { errorType : Format.Type_;
    errorInput : Input;
    argumentName : string;
    specificity : nat;
    reason : Message }.

Inductive WrapError : Type :=
| Mismatch (e : TypeMismatchError)
| BadResponseTypeError (request : DecimalWrapRequest) (response : WrapResponse)
| ThrownUndefined.

(** A function that returns or throws. *)
Inductive Except (A : Type) : Type :=
| Ok (a : A)
| Raise (e : WrapError).
Arguments Ok {A} a.
Arguments Raise {A} e.

(* ================================================================== *)
(** ** Generators *)

(** [Generator<Req, A, WrapResponse>]: the computation returns [A], throws,
    or yields a request and continues with the response it is resumed
    with.  [Generator<never, ...>] is [Gen Empty_set ...]. *)
Inductive Gen (Req A : Type) : Type :=
| Return (a : A)
| Throw (e : WrapError)
| Yield (request : Req) (resume : WrapResponse -> Gen Req A).
Arguments Return {Req A} a.
Arguments Throw {Req A} e.
Arguments Yield {Req A} request resume.

(** [throw new TypeMismatchError(dataType, input, name, specificity, reason)] *)
Definition throwMismatch {Req A} (dataType : Format.Type_) (input : Input)
    (name : string) (specificity : nat) (reason : Message) : Gen Req A :=
  Throw (Mismatch {| errorType := dataType; errorInput := input; argumentName := name;
                     specificity := specificity; reason := reason |}).

Definition raiseMismatch {A} (dataType : Format.Type_) (input : Input)
    (name : string) (specificity : nat) (reason : Message) : Except A :=
  Raise (Mismatch {| errorType := dataType; errorInput := input; argumentName := name;
                     specificity := specificity; reason := reason |}).

(** Calling a plain function from a generator. *)
Definition call {Req A B} (x : Except A) (k : A -> Gen Req B) : Gen Req B :=
  match x with
  | Ok a => k a
  | Raise e => Throw e
  end.

Notation "'let*' x ':=' c 'in' k" := (call c (fun x => k))
  (at level 10, x name, c at level 100, k at level 200).

(** How a generator ends once it is driven to completion. *)
Inductive Outcome (A : Type) : Type :=
| Returned (a : A)
| Thrown (e : WrapError).
Arguments Returned {A} a.
Arguments Thrown {A} e.

(** [Runs g trace o]: driven by a caller that answers the requests of
    [trace], in this order and with these responses, [g] ends in [o]. *)
Inductive Runs {Req A : Type} : Gen Req A -> list (Req * WrapResponse) -> Outcome A -> Prop :=
| Runs_Return : forall a, Runs (Return a) [] (Returned a)
| Runs_Throw : forall e, Runs (Throw e) [] (Thrown e)
| Runs_Yield : forall request resume response trace o,
    Runs (resume response) trace o ->
    Runs (Yield request resume) ((request, response) :: trace) o.

(** The driver loop: feed the responses one by one; [None] when the
    generator asks for more than it is given. *)
Fixpoint drive {Req A : Type} (g : Gen Req A) (responses : list WrapResponse)
  : option (list Req * Outcome A) :=
  match g with
  | Return a => Some ([], Returned a)
  | Throw e => Some ([], Thrown e)
  | Yield request resume =>
      match responses with
      | response :: responses' =>
          match drive (resume response) responses' with
          | Some (requests, o) => Some (request :: requests, o)
          | None => None
          end
      | [] => None
      end
  end.

(* ================================================================== *)
(** ** Conversion *)

(** Modelled from the spec: the module [conversion] is not among the
    sources.  It converts integers to exact decimals, counts the fractional
    digits of a decimal, writes bytes as a "0x" hex string and encodes text
    as UTF-8, failing on text that is not well-formed UTF-16. *)
Module Conversion.

(** Modelled from the spec: [Conversion.toBig], absent from the sources;
    the exact decimal of an integer. *)
Definition toBig (z : Z) : Big.t := Big.of_Z z.

(** Modelled from the spec: [Conversion.countDecimalPlaces], absent from the
    sources; the number of fractional digits of a decimal. *)
Definition countDecimalPlaces (b : Big.t) : nat :=
  Big.fractionDigits (Big.unscaled b) (Big.scale b).

Definition hexDigits : list ascii :=
  list_ascii_of_string "0123456789abcdef".

Definition hexDigit (n : N) : ascii :=
  nth (N.to_nat n) hexDigits "0"%char.

Definition byteToHex (b : byte) : string :=
  let n := Byte.to_N b in
  String (hexDigit (n / 16)) (String (hexDigit (n mod 16)) EmptyString).

Fixpoint bytesToHex (bytes : list byte) : string :=
  match bytes with
  | b :: rest => byteToHex b ++ bytesToHex rest
  | [] => EmptyString
  end.

(** Modelled from the spec: [Conversion.toHexString], absent from the
    sources; "0x" and two lowercase hex digits for each byte. *)
Definition toHexString (bytes : list byte) : string :=
  "0x" ++ bytesToHex bytes.

Definition byteOfN (n : N) : byte :=
  match Byte.of_N (n mod 256) with Some b => b | None => x00 end.

(** Modelled from the spec: [Conversion.stringToBytes], absent from the
    sources; the UTF-8 bytes of a text given as UTF-16 code units, [None]
    (the function throws) on a lone surrogate. *)
Fixpoint stringToBytes (text : list N) : option (list byte) :=
  match text with
  | [] => Some []
  | u :: rest =>
      if (u <? 128)%N then
        option_map (cons (byteOfN u)) (stringToBytes rest)
      else if (u <? 2048)%N then
        option_map (fun bs => byteOfN (192 + u / 64) :: byteOfN (128 + u mod 64) :: bs)
                   (stringToBytes rest)
      else if ((55296 <=? u) && (u <=? 56319))%N then
        match rest with
        | low :: rest' =>
            if ((56320 <=? low) && (low <=? 57343))%N then
              let cp := (65536 + (u - 55296) * 1024 + (low - 56320))%N in
              option_map (fun bs => byteOfN (240 + cp / 262144)
                                    :: byteOfN (128 + (cp / 4096) mod 64)
                                    :: byteOfN (128 + (cp / 64) mod 64)
                                    :: byteOfN (128 + cp mod 64) :: bs)
                         (stringToBytes rest')
            else None
        | [] => None
        end
      else if ((56320 <=? u) && (u <=? 57343))%N then None
      else
        option_map (fun bs => byteOfN (224 + u / 4096)
                              :: byteOfN (128 + (u / 64) mod 64)
                              :: byteOfN (128 + u mod 64) :: bs)
                   (stringToBytes rest)
  end.

End Conversion.

(* ================================================================== *)
(** ** Utils *)

(** Modelled from the spec: the module [utils.ts] is not among the sources.
    Its type guards tell the shapes of [Input] apart; its byte-string test
    is the spec's strict "0x"-prefixed, even-length hex pattern; its range
    functions follow the range formula of the decimal type descriptor. *)
Module Utils.

Definition isHexDigit (c : ascii) : bool :=
  let n := N_of_ascii c in
  (((48 <=? n) && (n <=? 57)) || ((97 <=? n) && (n <=? 102))
   || ((65 <=? n) && (n <=? 70)))%N%bool.

Fixpoint isHexPairs (s : string) : bool :=
  match s with
  | EmptyString => true
  | String a (String b rest) => isHexDigit a && isHexDigit b && isHexPairs rest
  | String _ EmptyString => false
  end.

(** Modelled from the spec: [Utils.isByteString], absent from the sources;
    "0x" followed by an even number of hex digits of either case. *)
Definition isByteString (s : string) : bool :=
  match s with
  | String "0" (String "x" rest) => isHexPairs rest
  | _ => false
  end.

(** Modelled from the spec: the type guards of [utils.ts], absent from the
    sources; each gives the content of the one shape it recognizes. *)
Definition isBoxedString (input : Input) : option string :=
  match input with IBoxedString s => Some s | _ => None end.

Definition isBoxedNumber (input : Input) : option JS.Number :=
  match input with IBoxedNumber n => Some n | _ => None end.

Definition isUint8ArrayLike (input : Input) : option Uint8ArrayLike :=
  match input with IUint8ArrayLike a => Some a | _ => None end.

Definition isEncodingTextInput (input : Input) : option (string * list N) :=
  match input with IEncodingTextInput e t => Some (e, t) | _ => None end.

Definition isTypeValueInput (input : Input) : option (string * Input) :=
  match input with ITypeValueInput t v => Some (t, v) | _ => None end.

Definition isWrappedResult (input : Input) : option Format.Result :=
  match input with IWrappedResult r => Some r | _ => None end.

(** Modelled from the spec: [Utils.maxValue], absent from the sources; the
    largest value of the type: the range of the descriptor is half-open,
    and a value has at most [places] fractional digits. *)
Definition maxValue (dataType : Format.DecimalType) : Big.t :=
  match Format.typeClass dataType with
  | Format.ufixed =>
      Big.mk (2 ^ Z.of_nat (Format.bits dataType) - 1) (Format.places dataType)
  | Format.fixed =>
      Big.mk (2 ^ Z.of_nat (Format.bits dataType - 1) - 1) (Format.places dataType)
  end.

(** Modelled from the spec: [Utils.minValue], absent from the sources; the
    lower end of the range of the descriptor. *)
Definition minValue (dataType : Format.DecimalType) : Big.t :=
  match Format.typeClass dataType with
  | Format.ufixed => Big.of_Z 0
  | Format.fixed =>
      Big.mk (- 2 ^ Z.of_nat (Format.bits dataType - 1)) (Format.places dataType)
  end.

(** Modelled from the spec: [Utils.isSafeNumber], absent from the sources;
    the number, scaled up by the places of the type, is within the safe
    integers (taken exactly here, not in floating point). *)
Definition isSafeNumber (dataType : Format.DecimalType) (d : Big.t) : bool :=
  let scaledUp :=
    Big.mk (Big.unscaled d * Big.pow10 (Format.places dataType)) (Big.scale d) in
  negb (Big.lt scaledUp (Big.of_Z (- JS.MAX_SAFE_INTEGER)))
  && negb (Big.gt scaledUp (Big.of_Z JS.MAX_SAFE_INTEGER)).

End Utils.

(* ================================================================== *)
(** ** The dispatch engine *)

(** [Case<TypeType, ValueType, RequestType>] *)
Definition Case (T V Req : Type) : Type :=
  T -> Input -> WrapOptions -> Gen Req V.

(** Modelled from the spec: the module [dispatch.ts] is not among the
    sources.  The engine iterates the case list in order.  A case that
    completes with a value ends the run; a case that suspends suspends the
    engine, which resumes that very case with the response; a Mismatch is
    recorded and the next case is tried; any other error is propagated at
    once.  When the list is exhausted, the recorded error of maximum
    specificity is raised, the earliest one among equals. *)
Module Dispatch.

(** Modelled from the spec: the selection made by [dispatch.ts], absent from
    the sources; the earliest error of maximum specificity among those
    recorded. *)
Fixpoint selectError (recorded : list TypeMismatchError) : option TypeMismatchError :=
  match recorded with
  | [] => None
  | e :: rest =>
      match selectError rest with
      | Some e' =>
          if (specificity e <? specificity e')%nat then Some e' else Some e
      | None => Some e
      end
  end.

(** Modelled from the spec: one iteration of the loop of [dispatch.ts],
    absent from the sources; run one case, forward its requests and the
    responses, and on a Mismatch go on with [next]. *)
Fixpoint tryCase {Req V : Type} (g : Gen Req V)
    (next : TypeMismatchError -> Gen Req V) : Gen Req V :=
  match g with
  | Return v => Return v
  | Throw (Mismatch e) => next e
  | Throw fatal => Throw fatal
  | Yield request resume =>
      Yield request (fun response => tryCase (resume response) next)
  end.

(** Modelled from the spec: the loop of [dispatch.ts], absent from the
    sources, over the cases still to try, with the errors recorded so far. *)
Fixpoint wrapFrom {T V Req : Type} (dataType : T) (input : Input)
    (wrapOptions : WrapOptions) (cases : list (Case T V Req))
    (recorded : list TypeMismatchError) : Gen Req V :=
  match cases with
  | caseFn :: rest =>
      tryCase (caseFn dataType input wrapOptions)
              (fun e => wrapFrom dataType input wrapOptions rest (recorded ++ [e]))
  | [] =>
      match selectError recorded with
      | Some e => Throw (Mismatch e)
      | None => Throw ThrownUndefined
      end
  end.

(** Modelled from the spec: [wrapWithCases] of [dispatch.ts], absent from
    the sources. *)
Definition wrapWithCases {T V Req : Type} (dataType : T) (input : Input)
    (wrapOptions : WrapOptions) (cases : list (Case T V Req)) : Gen Req V :=
  wrapFrom dataType input wrapOptions cases [].

End Dispatch.
Import Dispatch.

(* ================================================================== *)
(** ** bytes.ts *)

Definition never : Type := Empty_set.

(** [s] without the prefix [p], when it starts with it. *)
Fixpoint stripPrefix (p s : string) : option string :=
  match p, s with
  | EmptyString, _ => Some s
  | String a p', String b s' => if Ascii.eqb a b then stripPrefix p' s' else None
  | String _ _, EmptyString => None
  end.

Module Bytes.
Import Format.

(** Lowercase; for a static type reject more than [length] bytes and pad
    the rest with "00" up to [length * 2 + 2] characters. *)
Definition validateAndPad (dataType : BytesType) (asHex : string)
    (input : Input) (name : string) : Except string :=
  let asHex := JS.toLowerCase asHex in
  match dataType with
  | BytesTypeStatic length =>
      let actual := JS.half (Z.of_nat (String.length asHex) - 2) in
      if Big.gt actual (Big.of_Z (Z.of_nat length)) then
        raiseMismatch (BytesT dataType) input name 5 (overlongMessage length actual)
      else
        Ok (JS.padEnd asHex (length * 2 + 2) "00")
  | BytesTypeDynamic => Ok asHex
  end.

(** [input.length] as a count, once it is known to be a safe integer
    that is not negative. *)
Definition lengthOf (n : JS.Number) : nat :=
  match n with
  | JS.Finite d => Z.to_nat (Big.unscaled d / Big.pow10 (Big.scale d))
  | _ => O
  end.

Definition notAByte (e : Element) : bool :=
  match e with
  | ENotANumber => true
  | ENumber n => JS.ltZ n 0 || JS.geZ n 256 || negb (JS.isInteger n)
  end.

(** The loop over [index], with [remaining] iterations to go. *)
Fixpoint checkElements (input : Uint8ArrayLike) (dataType : Type_) (name : string)
    (elements : list Element) (remaining index : nat) : Except unit :=
  match remaining with
  | O => Ok tt
  | S remaining' =>
      if notAByte (nth index elements ENotANumber) then
        raiseMismatch dataType (IUint8ArrayLike input) name 5
          (LiteralWithIndex "Input is byte-array-like, but byte " index
             " is not a 1-byte value (number from 0 to 255)")
      else checkElements input dataType name elements remaining' (S index)
  end.

Definition validateUint8ArrayLike (input : Uint8ArrayLike) (dataType : Type_)
    (name : string) : Except unit :=
  match input with
  | Uint8Array _ => Ok tt
  | ArrayLike length elements =>
      if negb (JS.isSafeInteger length) then
        raiseMismatch dataType (IUint8ArrayLike input) name 5
          (Literal "Input is byte-array-like, but its length is not a safe integer")
      else if JS.ltZ length 0 then
        raiseMismatch dataType (IUint8ArrayLike input) name 5
          (Literal "Input is byte-array-like, but its length is negative")
      else checkElements input dataType name elements (lengthOf length) 0
  end.

(** The conversion [new Uint8Array(...)] applies to one element. *)
Definition toUint8 (e : Element) : byte :=
  match e with
  | ENumber (JS.Finite d) =>
      Conversion.byteOfN
        (Z.to_N ((Z.quot (Big.unscaled d) (Big.pow10 (Big.scale d))) mod 256))
  | _ => x00
  end.

(** [new Uint8Array(input)] *)
Definition newUint8Array (input : Uint8ArrayLike) : list byte :=
  match input with
  | Uint8Array contents => contents
  | ArrayLike length elements =>
      map (fun index => toUint8 (nth index elements ENotANumber))
          (seq 0 (lengthOf length))
  end.

Definition bytesFromHexString : Case BytesType BytesValue never :=
  fun dataType input wrapOptions =>
    match input with
    | IString s =>
        if negb (Utils.isByteString s) then
          throwMismatch (BytesT dataType) input (name wrapOptions) 5
            (notABytestringMessage "Input")
        else
          let* asHex := validateAndPad dataType s input (name wrapOptions) in
          Return {| bytesType := dataType; asHex := asHex |}
    | _ =>
        throwMismatch (BytesT dataType) input (name wrapOptions) 1
          (Literal "Input was not a string")
    end.

Definition bytesFromBoxedString : Case BytesType BytesValue never :=
  fun dataType input wrapOptions =>
    match Utils.isBoxedString input with
    | None =>
        throwMismatch (BytesT dataType) input (name wrapOptions) 1
          (Literal "Input was not a boxed string")
    | Some valueOf => bytesFromHexString dataType (IString valueOf) wrapOptions
    end.

Definition bytesFromUint8ArrayLike : Case BytesType BytesValue never :=
  fun dataType input wrapOptions =>
    match Utils.isUint8ArrayLike input with
    | None =>
        throwMismatch (BytesT dataType) input (name wrapOptions) 1
          (Literal "Input was not a Uint8Array-like")
    | Some a =>
        let* _ := validateUint8ArrayLike a (BytesT dataType) (name wrapOptions) in
        let asHex := Conversion.toHexString (newUint8Array a) in
        let* asHex := validateAndPad dataType asHex input (name wrapOptions) in
        Return {| bytesType := dataType; asHex := asHex |}
    end.

Definition bytesFromEncodingTextInput : Case BytesType BytesValue never :=
  fun dataType input wrapOptions =>
    match Utils.isEncodingTextInput input with
    | None =>
        throwMismatch (BytesT dataType) input (name wrapOptions) 1
          (Literal "Input was not a in encoding/text form")
    | Some (encoding, text) =>
        if negb (String.eqb encoding "utf8") then
          throwMismatch (BytesT dataType) input (name wrapOptions) 5
            (Literal ("Unknown or unsupported text encoding " ++ encoding))
        else
          match Conversion.stringToBytes text with
          | None =>
              throwMismatch (BytesT dataType) input (name wrapOptions) 5
                invalidUtf16Message
          | Some bytes =>
              let asHex := Conversion.toHexString bytes in
              let* asHex := validateAndPad dataType asHex input (name wrapOptions) in
              Return {| bytesType := dataType; asHex := asHex |}
          end
    end.

(** The kinds agree: both dynamic, or both static of one length. *)
Definition sameBytesType (a b : BytesType) : bool :=
  match a, b with
  | BytesTypeDynamic, BytesTypeDynamic => true
  | BytesTypeStatic m, BytesTypeStatic n => Nat.eqb m n
  | _, _ => false
  end.

Definition bytesFromBytesValue : Case BytesType BytesValue never :=
  fun dataType input wrapOptions =>
    match Utils.isWrappedResult input with
    | None =>
        throwMismatch (BytesT dataType) input (name wrapOptions) 1
          (Literal "Input was not a wrapped result")
    | Some result =>
        (* by type class, then by kind *)
        match result with
        | OfBytesValue v =>
            if negb (loose wrapOptions) && negb (sameBytesType (bytesType v) dataType) then
              throwMismatch (BytesT dataType) input (name wrapOptions) 5
                (wrappedTypeMessage (typeOf result))
            else
              let* asHex := validateAndPad dataType (asHex v) input (name wrapOptions) in
              Return {| bytesType := dataType; asHex := asHex |}
        | BytesErrorResult _ =>
            throwMismatch (BytesT dataType) input (name wrapOptions) 5
              errorResultMessage
        | _ =>
            throwMismatch (BytesT dataType) input (name wrapOptions) 5
              (wrappedTypeMessage (typeOf result))
        end
    end.

Definition bytesFailureCase : Case BytesType BytesValue never :=
  fun dataType input wrapOptions =>
    throwMismatch (BytesT dataType) input (name wrapOptions) 2
      (Literal "Input was not a hex string, byte-array-alike, encoding/text pair, type/value pair, or wrapped bytestring").

Definition bytesCasesBasic : list (Case BytesType BytesValue never) :=
  [ bytesFromHexString;
    bytesFromBoxedString;
    bytesFromUint8ArrayLike;
    bytesFromBytesValue;
    bytesFromEncodingTextInput;
    bytesFailureCase ].

(** The first pattern on [input.type]: "byte", or "bytes" followed by
    digits only (possibly none). *)
Definition matchesByteType (type : string) : bool :=
  match stripPrefix "byte" type with
  | Some EmptyString => true
  | Some (String "s" rest) =>
      let '(_, tl) := Big.spanDigits rest in negb (Big.nonEmpty tl)
  | _ => false
  end.

(** The second pattern: "bytes" followed by at least one digit and
    nothing else; the result is the group of digits. *)
Definition matchBytesN (type : string) : option string :=
  match stripPrefix "bytes" type with
  | Some rest =>
      let '(ds, tl) := Big.spanDigits rest in
      if Big.nonEmpty ds && negb (Big.nonEmpty tl) then Some ds else None
  | None => None
  end.

(** The specified length, [None] for the [null] of a dynamic type. *)
Definition specifiedLength (type : string) : option nat :=
  match matchBytesN type with
  | Some digits => Some (JS.NumberOfDigits digits)
  | None => if String.eqb type "byte" then Some 1%nat else None
  end.

Definition lengthMatches (length : option nat) (dataType : BytesType) : bool :=
  match length, dataType with
  | None, BytesTypeDynamic => true
  | Some n, BytesTypeStatic l => Nat.eqb n l
  | _, _ => false
  end.

Definition bytesFromTypeValueInput : Case BytesType BytesValue never :=
  fun dataType input wrapOptions =>
    match Utils.isTypeValueInput input with
    | None =>
        throwMismatch (BytesT dataType) input (name wrapOptions) 1
          (Literal "Input was not a type/value pair")
    | Some (type, value) =>
        if negb (matchesByteType type) then
          throwMismatch (BytesT dataType) input (name wrapOptions) 5
            (specifiedTypeMessage type)
        else
          let length := specifiedLength type in
          if negb (lengthMatches length dataType) then
            throwMismatch (BytesT dataType) input (name wrapOptions) 5
              (specifiedTypeMessage type)
          else
            wrapWithCases dataType value (withLoose wrapOptions) bytesCasesBasic
    end.

Definition bytesCases : list (Case BytesType BytesValue never) :=
  bytesFromTypeValueInput :: bytesCasesBasic.

End Bytes.

(* ================================================================== *)
(** ** The decimal case set *)

Module Decimal.
Import Format.

Definition validate (dataType : DecimalType) (asBig : Big.t)
    (input : Input) (name : string) : Except unit :=
  if (places dataType <? Conversion.countDecimalPlaces asBig)%nat then
    raiseMismatch (DecimalT dataType) input name 5
      (tooPreciseMessage (places dataType) (Conversion.countDecimalPlaces asBig))
  else if Big.gt asBig (Utils.maxValue dataType)
          || Big.lt asBig (Utils.minValue dataType) then
    raiseMismatch (DecimalT dataType) input name 5 outOfRangeMessage
  else Ok tt.

(** The cases typed [Generator<never, ...>] never yield: they are written
    for any request type, as the case list needs them. *)
Section Basic.
Context {Req : Type}.

Definition decimalFromBig : Case DecimalType DecimalValue Req :=
  fun dataType input wrapOptions =>
    match input with
    | IBig b =>
        let asBig := Big.plus b (Big.of_Z 0) in
        let* _ := validate dataType asBig input (name wrapOptions) in
        Return {| decimalType := dataType; asBig := asBig |}
    | _ =>
        throwMismatch (DecimalT dataType) input (name wrapOptions) 1
          (Literal "Input was not a Big")
    end.

Definition decimalFromBN : Case DecimalType DecimalValue Req :=
  fun dataType input wrapOptions =>
    match input with
    | IBN z =>
        let asBig := Conversion.toBig z in
        let* _ := validate dataType asBig input (name wrapOptions) in
        Return {| decimalType := dataType; asBig := asBig |}
    | _ =>
        throwMismatch (DecimalT dataType) input (name wrapOptions) 1
          (Literal "Input was not a BN")
    end.

Definition decimalFromBigint : Case DecimalType DecimalValue Req :=
  fun dataType input wrapOptions =>
    match input with
    | IBigint z =>
        let asBig := Conversion.toBig z in
        let* _ := validate dataType asBig input (name wrapOptions) in
        Return {| decimalType := dataType; asBig := asBig |}
    | _ =>
        throwMismatch (DecimalT dataType) input (name wrapOptions) 1
          (Literal "Input was not a bigint")
    end.

Definition decimalFromString : Case DecimalType DecimalValue Req :=
  fun dataType input wrapOptions =>
    match input with
    | IString s =>
        let trimmed := JS.trim s in
        match Big.parse trimmed with
        | None =>
            throwMismatch (DecimalT dataType) input (name wrapOptions) 5
              nonNumericMessage
        | Some asBig =>
            let* _ := validate dataType asBig input (name wrapOptions) in
            Return {| decimalType := dataType; asBig := asBig |}
        end
    | _ =>
        throwMismatch (DecimalT dataType) input (name wrapOptions) 1
          (Literal "Input was not a string")
    end.

Definition decimalFromNumber : Case DecimalType DecimalValue Req :=
  fun dataType input wrapOptions =>
    match input with
    | INumber n =>
        match n with
        | JS.Finite d =>
            if negb (Utils.isSafeNumber dataType d) then
              throwMismatch (DecimalT dataType) input (name wrapOptions) 5
                (Literal "Given number is outside the safe range for this data type (possible loss of precision); use a numeric string, bigint, or big number class instead")
            else
              let asBig := d in
              let* _ := validate dataType asBig input (name wrapOptions) in
              Return {| decimalType := dataType; asBig := asBig |}
        | _ =>
            throwMismatch (DecimalT dataType) input (name wrapOptions) 5
              (Literal "Numeric value is not finite")
        end
    | _ =>
        throwMismatch (DecimalT dataType) input (name wrapOptions) 1
          (Literal "Input was not a number")
    end.

Definition decimalFromBoxedString : Case DecimalType DecimalValue Req :=
  fun dataType input wrapOptions =>
    match Utils.isBoxedString input with
    | None =>
        throwMismatch (DecimalT dataType) input (name wrapOptions) 1
          (Literal "Input was not a boxed string")
    | Some valueOf => decimalFromString dataType (IString valueOf) wrapOptions
    end.

Definition decimalFromBoxedNumber : Case DecimalType DecimalValue Req :=
  fun dataType input wrapOptions =>
    match Utils.isBoxedNumber input with
    | None =>
        throwMismatch (DecimalT dataType) input (name wrapOptions) 1
          (Literal "Input was not a boxed number")
    | Some valueOf => decimalFromNumber dataType (INumber valueOf) wrapOptions
    end.

(** [input.type] differs from [dataType] in class, bits or places. *)
Definition differs (inputType dataType : DecimalType) : bool :=
  negb (decimalClassEqb (typeClass inputType) (typeClass dataType))
  || negb (Nat.eqb (bits inputType) (bits dataType))
  || negb (Nat.eqb (places inputType) (places dataType)).

Definition decimalFromDecimalValue : Case DecimalType DecimalValue Req :=
  fun dataType input wrapOptions =>
    match Utils.isWrappedResult input with
    | None =>
        throwMismatch (DecimalT dataType) input (name wrapOptions) 1
          (Literal "Input was not a wrapped result")
    | Some result =>
        (* by type class, then by kind *)
        match result with
        | OfDecimalValue v =>
            if negb (loose wrapOptions) && differs (decimalType v) dataType then
              throwMismatch (DecimalT dataType) input (name wrapOptions) 5
                (wrappedTypeMessage (typeOf result))
            else
              let asBig := Big.plus (asBig v) (Big.of_Z 0) in
              let* _ := validate dataType asBig input (name wrapOptions) in
              Return {| decimalType := dataType; asBig := asBig |}
        | DecimalErrorResult _ =>
            throwMismatch (DecimalT dataType) input (name wrapOptions) 5
              errorResultMessage
        | _ =>
            throwMismatch (DecimalT dataType) input (name wrapOptions) 5
              (wrappedTypeMessage (typeOf result))
        end
    end.

Definition decimalFromIntegerValue : Case DecimalType DecimalValue Req :=
  fun dataType input wrapOptions =>
    match Utils.isWrappedResult input with
    | None =>
        throwMismatch (DecimalT dataType) input (name wrapOptions) 1
          (Literal "Input was not a wrapped result")
    | Some result =>
        match result with
        | IntegerValue _ _ asBN =>
            if negb (loose wrapOptions) then
              throwMismatch (DecimalT dataType) input (name wrapOptions) 5
                (wrappedTypeMessage (typeOf result))
            else
              let asBig := Conversion.toBig asBN in
              let* _ := validate dataType asBig input (name wrapOptions) in
              Return {| decimalType := dataType; asBig := asBig |}
        | IntegerErrorResult _ _ =>
            throwMismatch (DecimalT dataType) input (name wrapOptions) 5
              errorResultMessage
        | _ =>
            throwMismatch (DecimalT dataType) input (name wrapOptions) 5
              (wrappedTypeMessage (typeOf result))
        end
    end.

Definition decimalFromEnumValue : Case DecimalType DecimalValue Req :=
  fun dataType input wrapOptions =>
    match Utils.isWrappedResult input with
    | None =>
        throwMismatch (DecimalT dataType) input (name wrapOptions) 1
          (Literal "Input was not a wrapped result")
    | Some result =>
        match result with
        | EnumValue _ numericAsBN =>
            if negb (loose wrapOptions) then
              throwMismatch (DecimalT dataType) input (name wrapOptions) 5
                (wrappedTypeMessage (typeOf result))
            else
              let asBig := Conversion.toBig numericAsBN in
              let* _ := validate dataType asBig input (name wrapOptions) in
              Return {| decimalType := dataType; asBig := asBig |}
        | EnumErrorResult _ _ =>
            throwMismatch (DecimalT dataType) input (name wrapOptions)
              1 (* only specificity 1 due to EnumError case *)
              errorResultMessage
        | _ =>
            throwMismatch (DecimalT dataType) input (name wrapOptions) 5
              (wrappedTypeMessage (typeOf result))
        end
    end.

Definition decimalFromEnumError : Case DecimalType DecimalValue Req :=
  fun dataType input wrapOptions =>
    match Utils.isWrappedResult input with
    | None =>
        throwMismatch (DecimalT dataType) input (name wrapOptions) 1
          (Literal "Input was not a wrapped result")
    | Some result =>
        match result with
        | EnumErrorResult _ error =>
            if negb (loose wrapOptions) then
              throwMismatch (DecimalT dataType) input (name wrapOptions) 5
                (wrappedTypeMessage (typeOf result))
            else
              (* only one specific kind of error will be allowed *)
              match error with
              | EnumOutOfRangeError rawAsBN =>
                  let asBig := Conversion.toBig rawAsBN in
                  let* _ := validate dataType asBig input (name wrapOptions) in
                  Return {| decimalType := dataType; asBig := asBig |}
              | OtherEnumError _ =>
                  throwMismatch (DecimalT dataType) input (name wrapOptions) 5
                    errorResultMessage
              end
        | EnumValue _ _ =>
            throwMismatch (DecimalT dataType) input (name wrapOptions) 1
              (Literal "Wrapped result was a value rather than an error")
        | _ =>
            throwMismatch (DecimalT dataType) input (name wrapOptions) 5
              (wrappedTypeMessage (typeOf result))
        end
    end.

End Basic.

(** [response.reason || Messages.unrecognizedNumberMessage(dataType)]: an
    absent or empty reason gives the default message. *)
Definition reasonOr (reason : option string) (default : Message) : Message :=
  match reason with
  | Some (String c rest) => Literal (String c rest)
  | _ => default
  end.

(** [response.partiallyRecognized ? 5 : 3] *)
Definition specificityOf (partiallyRecognized : option bool) : nat :=
  match partiallyRecognized with
  | Some true => 5%nat
  | _ => 3%nat
  end.

Definition decimalFromOther : Case DecimalType DecimalValue DecimalWrapRequest :=
  fun dataType input wrapOptions =>
    let request := {| request_kind := "decimal"; request_input := input |} in
    Yield request (fun response =>
      match response with
      | OtherWrapResponse => Throw (BadResponseTypeError request response)
      | DecimalWrapResponse None reason partiallyRecognized =>
          throwMismatch (DecimalT dataType) input (name wrapOptions)
            (specificityOf partiallyRecognized)
            (reasonOr reason (unrecognizedNumberMessage dataType))
      | DecimalWrapResponse (Some value) _ _ =>
          let asBig := Big.plus value (Big.of_Z 0) in
          let* _ := validate dataType asBig input (name wrapOptions) in
          Return {| decimalType := dataType; asBig := asBig |}
      end).

Definition decimalCasesBasic : list (Case DecimalType DecimalValue DecimalWrapRequest) :=
  [ decimalFromNumber;
    decimalFromString;
    decimalFromBoxedNumber;
    decimalFromBoxedString;
    decimalFromBigint;
    decimalFromBN;
    decimalFromBig;
    decimalFromDecimalValue;
    decimalFromIntegerValue;
    decimalFromEnumValue;
    decimalFromEnumError;
    decimalFromOther ].

(** The pattern on [input.type]: "fixed" or "ufixed", then nothing, or
    digits, or digits, "x" and digits.  The result is the groups the
    source reads: the class, the bits and the places. *)
Definition matchFixedType (type : string)
  : option (DecimalClass * option string * option string) :=
  let prefix :=
    match stripPrefix "ufixed" type with
    | Some rest => Some (ufixed, rest)
    | None =>
        match stripPrefix "fixed" type with
        | Some rest => Some (fixed, rest)
        | None => None
        end
    end in
  match prefix with
  | None => None
  | Some (class, EmptyString) => Some (class, None, None)
  | Some (class, rest) =>
      let '(bitsAsString, tl) := Big.spanDigits rest in
      if Big.nonEmpty bitsAsString then
        match tl with
        | EmptyString => Some (class, Some bitsAsString, None)
        | String "x" tl' =>
            let '(placesAsString, tl'') := Big.spanDigits tl' in
            if Big.nonEmpty placesAsString && negb (Big.nonEmpty tl'')
            then Some (class, Some bitsAsString, Some placesAsString)
            else None
        | _ => None
        end
      else None
  end.

(** [digits ? Number(digits) : default] *)
Definition numberOr (digits : option string) (default : nat) : nat :=
  match digits with
  | Some ds => JS.NumberOfDigits ds
  | None => default
  end.

Definition decimalFromTypeValueInput : Case DecimalType DecimalValue DecimalWrapRequest :=
  fun dataType input wrapOptions =>
    match Utils.isTypeValueInput input with
    | None =>
        throwMismatch (DecimalT dataType) input (name wrapOptions) 1
          (Literal "Input was not a type/value pair")
    | Some (type, value) =>
        match matchFixedType type with
        | None =>
            throwMismatch (DecimalT dataType) input (name wrapOptions) 5
              (specifiedTypeMessage type)
        | Some (class, bitsAsString, placesAsString) =>
            let bits' := numberOr bitsAsString 128 in
            let places' := numberOr placesAsString 18 in
            if negb (decimalClassEqb (typeClass dataType) class)
               || negb (Nat.eqb (bits dataType) bits')
               || negb (Nat.eqb (places dataType) places') then
              throwMismatch (DecimalT dataType) input (name wrapOptions) 5
                (specifiedTypeMessage type)
            else
              wrapWithCases dataType value (withLoose wrapOptions) decimalCasesBasic
        end
    end.

Definition decimalCases : list (Case DecimalType DecimalValue DecimalWrapRequest) :=
  decimalFromTypeValueInput :: decimalCasesBasic.

End Decimal.

(* ================================================================== *)
(** * Vocabulary of the properties *)

(** An error the engine does not record: anything but a Mismatch. *)
Definition fatal (e : WrapError) : Prop :=
  match e with Mismatch _ => False | _ => True end.

(** [AllFail dataType input wrapOptions cases traces errors]: case by case,
    the run answered by the trace ends in the Mismatch. *)
Inductive AllFail {T V Req : Type} (dataType : T) (input : Input)
    (wrapOptions : WrapOptions)
  : list (Case T V Req) -> list (list (Req * WrapResponse))
    -> list TypeMismatchError -> Prop :=
| AllFail_nil : AllFail dataType input wrapOptions nil nil nil
| AllFail_cons : forall caseFn cases trace traces e errors,
    Runs (caseFn dataType input wrapOptions) trace (Thrown (Mismatch e)) ->
    AllFail dataType input wrapOptions cases traces errors ->
    AllFail dataType input wrapOptions
            (caseFn :: cases) (trace :: traces) (e :: errors).

(** [n] characters "0". *)
Fixpoint zeros (n : nat) : string :=
  match n with
  | O => EmptyString
  | S n' => String "0" (zeros n')
  end.

(** The value lies in the inclusive range of the type. *)
Definition withinBounds (dataType : Format.DecimalType) (b : Big.t) : Prop :=
  Big.gt b (Utils.maxValue dataType) = false
  /\ Big.lt b (Utils.minValue dataType) = false.

(** What the shared validator lets through. *)
Definition accepted (dataType : Format.DecimalType) (b : Big.t) : Prop :=
  (Conversion.countDecimalPlaces b <= Format.places dataType)%nat
  /\ withinBounds dataType b.

(** The range formula of the decimal type descriptor: [0, 2^bits / 10^places)
    when unsigned, [-2^(bits-1) / 10^places, 2^(bits-1) / 10^places) when
    signed; the value [u / 10^s] is compared after cross-multiplication. *)
Definition inRange (dataType : Format.DecimalType) (b : Big.t) : Prop :=
  let u := Big.unscaled b * Big.pow10 (Format.places dataType) in
  let d := Big.pow10 (Big.scale b) in
  match Format.typeClass dataType with
  | Format.ufixed => 0 <= u /\ u < 2 ^ Z.of_nat (Format.bits dataType) * d
  | Format.fixed =>
      - 2 ^ Z.of_nat (Format.bits dataType - 1) * d <= u
      /\ u < 2 ^ Z.of_nat (Format.bits dataType - 1) * d
  end.

(** The invariants of a canonical bytes value. *)
Definition canonicalBytes (v : Format.BytesValue) : Prop :=
  Utils.isByteString (Format.asHex v) = true
  /\ JS.toLowerCase (Format.asHex v) = Format.asHex v
  /\ match Format.bytesType v with
     | Format.BytesTypeStatic length =>
         String.length (Format.asHex v) = (2 * length + 2)%nat
     | Format.BytesTypeDynamic => True
     end.

(** The invariants of a canonical decimal value. *)
Definition canonicalDecimal (v : Format.DecimalValue) : Prop :=
  (Conversion.countDecimalPlaces (Format.asBig v)
   <= Format.places (Format.decimalType v))%nat
  /\ inRange (Format.decimalType v) (Format.asBig v).

(** A case that returns only values of the target type, validated. *)
Definition returnsValidated {Req : Type} (dataType : Format.DecimalType)
    (input : Input) (wrapOptions : WrapOptions) (trace : list (Req * WrapResponse))
    (v : Format.DecimalValue)
    (caseFn : Case Format.DecimalType Format.DecimalValue Req) : Prop :=
  Runs (caseFn dataType input wrapOptions) trace (Returned v) ->
  Format.decimalType v = dataType /\ accepted dataType (Format.asBig v).

(** [Recognizes dataType wrapOptions caseFn input asHex]: the accepting
    bytes case [caseFn] takes [input] for the bytes written [asHex], which it
    then hands to the common post-step. *)
Inductive Recognizes (dataType : Format.BytesType) (wrapOptions : WrapOptions)
  : Case Format.BytesType Format.BytesValue never -> Input -> string -> Prop :=
| Recognizes_hex : forall s,
    Utils.isByteString s = true ->
    Recognizes dataType wrapOptions Bytes.bytesFromHexString (IString s) s
| Recognizes_boxed : forall s,
    Utils.isByteString s = true ->
    Recognizes dataType wrapOptions Bytes.bytesFromBoxedString (IBoxedString s) s
| Recognizes_array : forall a,
    Bytes.validateUint8ArrayLike a (Format.BytesT dataType) (name wrapOptions) = Ok tt ->
    Recognizes dataType wrapOptions Bytes.bytesFromUint8ArrayLike (IUint8ArrayLike a)
               (Conversion.toHexString (Bytes.newUint8Array a))
| Recognizes_text : forall text bytes,
    Conversion.stringToBytes text = Some bytes ->
    Recognizes dataType wrapOptions Bytes.bytesFromEncodingTextInput
               (IEncodingTextInput "utf8" text) (Conversion.toHexString bytes)
| Recognizes_wrapped : forall v,
    loose wrapOptions = true
    \/ Bytes.sameBytesType (Format.bytesType v) dataType = true ->
    Recognizes dataType wrapOptions Bytes.bytesFromBytesValue
               (IWrappedResult (Format.OfBytesValue v)) (Format.asHex v).

(** A bytes case that returns only values of the target type, of the
    length of the type when it is static. *)
Definition returnsPadded (dataType : Format.BytesType)
    (input : Input) (wrapOptions : WrapOptions) (trace : list (never * WrapResponse))
    (v : Format.BytesValue)
    (caseFn : Case Format.BytesType Format.BytesValue never) : Prop :=
  Runs (caseFn dataType input wrapOptions) trace (Returned v) ->
  Format.bytesType v = dataType
  /\ forall length, dataType = Format.BytesTypeStatic length ->
                    String.length (Format.asHex v) = (2 * length + 2)%nat.

(** The order of the bytes cases as the specification lists them: the
    encoding/text pair fifth, the wrapped bytes value sixth. *)
Definition statedOrder : list (Case Format.BytesType Format.BytesValue never) :=
  [ Bytes.bytesFromTypeValueInput;
    Bytes.bytesFromHexString;
    Bytes.bytesFromBoxedString;
    Bytes.bytesFromUint8ArrayLike;
    Bytes.bytesFromEncodingTextInput;
    Bytes.bytesFromBytesValue;
    Bytes.bytesFailureCase ].

(** All characters are white space. *)
Fixpoint allWhiteSpace (s : string) : bool :=
  match s with
  | String c rest => JS.isWhiteSpace c && allWhiteSpace rest
  | EmptyString => true
  end.

(** All characters are decimal digits. *)
Fixpoint allDigits (s : string) : bool :=
  match s with
  | String c rest => Big.isDigit c && allDigits rest
  | EmptyString => true
  end.

(** The string starts with a decimal digit. *)
Definition startsWithDigit (s : string) : bool :=
  match s with
  | String c _ => Big.isDigit c
  | EmptyString => false
  end.

(** The name of a decimal class in a type annotation. *)
Definition className (c : Format.DecimalClass) : string :=
  match c with
  | Format.fixed => "fixed"
  | Format.ufixed => "ufixed"
  end.

(** [Annotation type class bits places]: the type annotation [type] is
    "fixed" or "ufixed", optionally followed by BITS or by BITSxPLACES, and
    stands for this class, these bits (128 when absent) and these places
    (18 when absent). *)
Inductive Annotation : string -> Format.DecimalClass -> nat -> nat -> Prop :=
| Annotation_bare : forall class,
    Annotation (className class) class 128 18
| Annotation_bits : forall class bitsDigits,
    allDigits bitsDigits = true -> bitsDigits <> EmptyString ->
    Annotation (className class ++ bitsDigits) class
               (JS.NumberOfDigits bitsDigits) 18
| Annotation_full : forall class bitsDigits placesDigits,
    allDigits bitsDigits = true -> bitsDigits <> EmptyString ->
    allDigits placesDigits = true -> placesDigits <> EmptyString ->
    Annotation (className class ++ bitsDigits ++ "x" ++ placesDigits) class
               (JS.NumberOfDigits bitsDigits) (JS.NumberOfDigits placesDigits).

(** The annotation names the target type. *)
Definition names (class : Format.DecimalClass) (bits places : nat)
    (dataType : Format.DecimalType) : Prop :=
  Format.typeClass dataType = class
  /\ Format.bits dataType = bits
  /\ Format.places dataType = places.

(** ** Vocabulary of the further properties *)

(** A Mismatch that names the target type and the argument, with a
    specificity from 1 to 5. *)
Definition describes (t : Format.Type_) (argument : string)
    (e : TypeMismatchError) : Prop :=
  errorType e = t /\ argumentName e = argument
  /\ (1 <= specificity e <= 5)%nat.

(** [BytesAnnotation type length]: the type annotation [type] is "byte"
    (one byte), "bytes" (dynamic, no length) or "bytes" followed by digits
    (that many bytes). *)
Inductive BytesAnnotation : string -> option nat -> Prop :=
| BytesAnnotation_byte : BytesAnnotation "byte" (Some 1%nat)
| BytesAnnotation_dynamic : BytesAnnotation "bytes" None
| BytesAnnotation_static : forall digits,
    allDigits digits = true -> digits <> EmptyString ->
    BytesAnnotation ("bytes" ++ digits) (Some (JS.NumberOfDigits digits)).

(** The length a bytes type has, [None] when it is dynamic. *)
Definition lengthOfType (dataType : Format.BytesType) : option nat :=
  match dataType with
  | Format.BytesTypeStatic length => Some length
  | Format.BytesTypeDynamic => None
  end.

(** The element is a number whose value is the integer [z], a byte. *)
Definition isByte (e : Element) (z : Z) : Prop :=
  exists d, e = ENumber (JS.Finite d)
            /\ Big.unscaled d = z * Big.pow10 (Big.scale d)
            /\ 0 <= z < 256.

(** The number is the integer [z]. *)
Definition isInteger (n : JS.Number) (z : Z) : Prop :=
  exists d, n = JS.Finite d /\ Big.unscaled d = z * Big.pow10 (Big.scale d).

(** The integer [z] is in the range of the decimal type: scaled by the
    places of the type it is one of the integers of its width. *)
Definition integerInRange (dataType : Format.DecimalType) (z : Z) : Prop :=
  let scaled := z * Big.pow10 (Format.places dataType) in
  match Format.typeClass dataType with
  | Format.ufixed => 0 <= scaled <= 2 ^ Z.of_nat (Format.bits dataType) - 1
  | Format.fixed =>
      - 2 ^ Z.of_nat (Format.bits dataType - 1) <= scaled
      <= 2 ^ Z.of_nat (Format.bits dataType - 1) - 1
  end.

(** Every response of the trace is a decimal one. *)
Definition allDecimal {Req : Type} (trace : list (Req * WrapResponse)) : Prop :=
  forall request response,
    In (request, response) trace -> response <> OtherWrapResponse.

(** [TakesInteger wrapOptions caseFn input z]: the decimal case [caseFn]
    takes [input] for the integer [z]: a bigint, a BN, or, under [loose], a
    wrapped integer value, a wrapped enum value or the raw number of a
    wrapped enum error that is out of range. *)
Inductive TakesInteger {Req : Type} (wrapOptions : WrapOptions)
  : Case Format.DecimalType Format.DecimalValue Req -> Input -> Z -> Prop :=
| TakesInteger_bigint : forall z,
    TakesInteger wrapOptions Decimal.decimalFromBigint (IBigint z) z
| TakesInteger_BN : forall z,
    TakesInteger wrapOptions Decimal.decimalFromBN (IBN z) z
| TakesInteger_IntegerValue : forall c bits z,
    loose wrapOptions = true ->
    TakesInteger wrapOptions Decimal.decimalFromIntegerValue
                 (IWrappedResult (Format.IntegerValue c bits z)) z
| TakesInteger_EnumValue : forall typeName z,
    loose wrapOptions = true ->
    TakesInteger wrapOptions Decimal.decimalFromEnumValue
                 (IWrappedResult (Format.EnumValue typeName z)) z
| TakesInteger_EnumError : forall typeName z,
    loose wrapOptions = true ->
    TakesInteger wrapOptions Decimal.decimalFromEnumError
                 (IWrappedResult
                    (Format.EnumErrorResult typeName (Format.EnumOutOfRangeError z))) z.

(** The wrapped result is of an integer type or of an enum type. *)
Definition integerOrEnum (result : Format.Result) : Prop :=
  match Format.typeOf result with
  | Format.IntegerT _ _ | Format.EnumT _ => True
  | _ => False
  end.

(** The one case of the bytes list that an input of each shape is for. *)
Definition bytesOwner (input : Input)
  : Case Format.BytesType Format.BytesValue never :=
  match input with
  | ITypeValueInput _ _ => Bytes.bytesFromTypeValueInput
  | IString _ => Bytes.bytesFromHexString
  | IBoxedString _ => Bytes.bytesFromBoxedString
  | IUint8ArrayLike _ => Bytes.bytesFromUint8ArrayLike
  | IWrappedResult _ => Bytes.bytesFromBytesValue
  | IEncodingTextInput _ _ => Bytes.bytesFromEncodingTextInput
  | _ => Bytes.bytesFailureCase
  end.

(** [lower] reads as [s] in lower case: wherever [s] has one of the letters
    "A" to "Z" (65 to 90), [lower] has the small letter, 32 above it; every
    other character of [s] below 128 stands unchanged in [lower]. *)
Definition lowerCaseOf (s lower : string) : Prop :=
  forall i c,
    String.get i s = Some c ->
    ((65 <= N_of_ascii c <= 90)%N ->
       String.get i lower = Some (ascii_of_N (N_of_ascii c + 32)))
    /\ ((N_of_ascii c < 65 \/ 90 < N_of_ascii c < 128)%N ->
       String.get i lower = Some c).

(* ================================================================== *)
(** * Properties *)

Local Open Scope list_scope.

(** ** Running generators *)

Section RunFacts.
Context {Req A : Type}.

Lemma Runs_deterministic (g : Gen Req A) trace o1 o2 :
  Runs g trace o1 -> Runs g trace o2 -> o1 = o2.
Proof.
  intros H1; revert o2.
  induction H1; intros o2 H2; inversion H2; subst; auto.
Qed.

(** The driver computes the runs. *)
Lemma drive_Runs (g : Gen Req A) : forall responses requests o,
  drive g responses = Some (requests, o) ->
  exists trace, Runs g trace o /\ map fst trace = requests.
Proof.
  induction g as [a | e | request resume IH]; simpl; intros responses requests o Hd.
  - inversion Hd; subst. exists []. split; [constructor | reflexivity].
  - inversion Hd; subst. exists []. split; [constructor | reflexivity].
  - destruct responses as [| response responses']; [discriminate |].
    destruct (drive (resume response) responses') as [[rs o'] |] eqn:E; [| discriminate].
    inversion Hd; subst.
    destruct (IH response responses' rs o E) as [trace [Hr Hm]].
    exists ((request, response) :: trace). split.
    + now constructor.
    + simpl. now rewrite Hm.
Qed.

(** A generator that neither yields nor resumes: its only run. *)
Lemma Runs_Return_inv (a : A) trace o :
  Runs (Return (Req := Req) a) trace o -> trace = [] /\ o = Returned a.
Proof. intros H; inversion H; auto. Qed.

Lemma Runs_Throw_inv (e : WrapError) trace (o : Outcome A) :
  Runs (Throw (Req := Req) e) trace o -> trace = [] /\ o = Thrown e.
Proof. intros H; inversion H; auto. Qed.

End RunFacts.

(** ** The dispatch engine *)

Section EngineFacts.
Context {T V Req : Type}.
Implicit Types (g : Gen Req V) (next : TypeMismatchError -> Gen Req V).
Implicit Types (cases : list (Case T V Req)).

Lemma tryCase_returned g next trace v :
  Runs g trace (Returned v) -> Runs (tryCase g next) trace (Returned v).
Proof.
  revert trace.
  induction g as [a | e | request resume IH]; intros trace H; inversion H; subst; simpl.
  - constructor.
  - constructor. now apply IH.
Qed.

Lemma tryCase_mismatch g next trace e trace' o :
  Runs g trace (Thrown (Mismatch e)) ->
  Runs (next e) trace' o ->
  Runs (tryCase g next) (trace ++ trace') o.
Proof.
  revert trace.
  induction g as [a | e0 | request resume IH]; intros trace H Hn; inversion H; subst; simpl.
  - exact Hn.
  - constructor. now apply IH.
Qed.

Lemma tryCase_fatal g next trace e :
  fatal e -> Runs g trace (Thrown e) -> Runs (tryCase g next) trace (Thrown e).
Proof.
  intros Hf. revert trace.
  induction g as [a | e0 | request resume IH]; intros trace H; inversion H; subst; simpl.
  - destruct e; simpl in Hf; [contradiction | constructor | constructor].
  - constructor. now apply IH.
Qed.

(** Every run of [tryCase] is one of the three above. *)
Lemma tryCase_inv g next : forall trace o,
  Runs (tryCase g next) trace o ->
  (exists v, o = Returned v /\ Runs g trace (Returned v))
  \/ (exists e, fatal e /\ o = Thrown e /\ Runs g trace (Thrown e))
  \/ (exists e t1 t2, trace = t1 ++ t2
        /\ Runs g t1 (Thrown (Mismatch e)) /\ Runs (next e) t2 o).
Proof.
  induction g as [a | e | request resume IH]; simpl; intros trace o H.
  - inversion H; subst. left. exists a. split; [reflexivity | constructor].
  - destruct e as [e | rq rs |].
    + right; right. exists e, [], trace. repeat split; [constructor | exact H].
    + inversion H; subst. right; left.
      exists (BadResponseTypeError rq rs). repeat split; constructor.
    + inversion H; subst. right; left.
      exists ThrownUndefined. repeat split; constructor.
  - inversion H; subst.
    destruct (IH _ _ _ H4) as [[v [-> Hv]] | [[e [Hf [-> He]]] | [e [t1 [t2 [-> [H1 H2]]]]]]].
    + left. exists v. split; [reflexivity | now constructor].
    + right; left. exists e. repeat split; [assumption | now constructor].
    + right; right. exists e, ((request, response) :: t1), t2.
      repeat split; [now constructor | assumption].
Qed.

Lemma wrapFrom_all_fail (dataType : T) input wrapOptions cases
    (traces : list (list (Req * WrapResponse))) errors :
  AllFail dataType input wrapOptions cases traces errors ->
  forall recorded,
    Runs (wrapFrom dataType input wrapOptions cases recorded) (List.concat traces)
         (match selectError (recorded ++ errors) with
          | Some e => Thrown (Mismatch e)
          | None => Thrown ThrownUndefined
          end).
Proof.
  induction 1 as [| caseFn cases trace traces e errors Hrun Hall IH]; intros recorded; simpl.
  - rewrite app_nil_r. destruct (selectError recorded); constructor.
  - eapply tryCase_mismatch; [exact Hrun |].
    specialize (IH (recorded ++ [e])).
    rewrite <- app_assoc in IH. exact IH.
Qed.

(** The first case that returns decides the run, whatever follows it. *)
Lemma wrapFrom_first_match (dataType : T) input wrapOptions
    (before : list (Case T V Req)) traces errors :
  AllFail dataType input wrapOptions before traces errors ->
  forall (caseFn : Case T V Req) after trace v recorded,
    Runs (caseFn dataType input wrapOptions) trace (Returned v) ->
    Runs (wrapFrom dataType input wrapOptions (before ++ caseFn :: after) recorded)
         (List.concat traces ++ trace) (Returned v).
Proof.
  induction 1 as [| c cases tr traces e errors Hrun Hall IH];
    intros caseFn after trace v recorded Hv; simpl.
  - now apply tryCase_returned.
  - rewrite <- app_assoc. eapply tryCase_mismatch; [exact Hrun |].
    now apply IH.
Qed.

End EngineFacts.

(** What [selectError] selects. *)
Lemma selectError_nonempty e recorded : selectError (e :: recorded) <> None.
Proof.
  simpl. destruct (selectError recorded) as [e' |]; [| discriminate].
  destruct (specificity e <? specificity e')%nat; discriminate.
Qed.

Lemma selectError_spec recorded : forall best,
  selectError recorded = Some best ->
  exists i, nth_error recorded i = Some best
    /\ (forall j e, nth_error recorded j = Some e ->
          (specificity e <= specificity best)%nat)
    /\ (forall j e, (j < i)%nat -> nth_error recorded j = Some e ->
          (specificity e < specificity best)%nat).
Proof.
  induction recorded as [| e rest IH]; simpl; intros best H; [discriminate |].
  destruct (selectError rest) as [e' |] eqn:E.
  - destruct (IH e' eq_refl) as [i [Hi [Hmax Hfirst]]].
    destruct (Nat.ltb_spec (specificity e) (specificity e')) as [Hlt | Hge];
      inversion H; subst.
    + exists (S i). split; [exact Hi |]. split.
      * intros [| j] x Hx; simpl in Hx; [inversion Hx; subst; lia | eauto].
      * intros [| j] x Hj Hx; simpl in Hx; [inversion Hx; subst; lia |].
        apply (Hfirst j); [lia | exact Hx].
    + exists O. split; [reflexivity |]. split.
      * intros [| j] x Hx; simpl in Hx; [inversion Hx; subst; lia |].
        specialize (Hmax j x Hx). lia.
      * intros j x Hj; lia.
  - inversion H; subst. exists O. split; [reflexivity |]. split.
    + intros [| j] x Hx; simpl in Hx; [inversion Hx; subst; lia |].
      destruct rest; [destruct j; discriminate |].
      exfalso. now apply (selectError_nonempty t rest).
    + intros j x Hj; lia.
Qed.

(** C1. When every case of a run fails with a Mismatch, the run raises one
    of the recorded errors: one of maximum specificity among all of them,
    and the earliest in list order among those of that specificity.  This
    holds for any case list, hence for the bytes and the decimal ones. *)
Theorem wrapWithCases_raises_most_specific :
  forall (T V Req : Type) (dataType : T) (input : Input) (wrapOptions : WrapOptions)
         (cases : list (Case T V Req)) traces errors,
    cases <> [] ->
    AllFail dataType input wrapOptions cases traces errors ->
    exists i best,
      nth_error errors i = Some best
      /\ Runs (wrapWithCases dataType input wrapOptions cases) (List.concat traces)
              (Thrown (Mismatch best))
      /\ (forall j e, nth_error errors j = Some e ->
            (specificity e <= specificity best)%nat)
      /\ (forall j e, (j < i)%nat -> nth_error errors j = Some e ->
            (specificity e < specificity best)%nat).
Proof.
  intros T V Req dataType input wrapOptions cases traces errors Hne Hall.
  pose proof (wrapFrom_all_fail _ _ _ _ _ _ Hall []) as Hrun.
  simpl in Hrun.
  destruct errors as [| e errors].
  - inversion Hall; subst. contradiction.
  - destruct (selectError (e :: errors)) as [best |] eqn:E.
    + destruct (selectError_spec _ _ E) as [i [Hi [Hmax Hfirst]]].
      exists i, best. repeat split; assumption.
    + exfalso. now apply (selectError_nonempty e errors).
Qed.

Section EngineReturns.
Context {T V Req : Type}.

(** A value returned by the engine is the value returned by one of its
    cases. *)
Lemma wrapFrom_returned_inv (dataType : T) input wrapOptions :
  forall (cases : list (Case T V Req)) recorded trace v,
    Runs (wrapFrom dataType input wrapOptions cases recorded) trace (Returned v) ->
    exists caseFn trace',
      In caseFn cases /\ Runs (caseFn dataType input wrapOptions) trace' (Returned v).
Proof.
  induction cases as [| caseFn rest IH]; simpl; intros recorded trace v H.
  - destruct (selectError recorded); inversion H.
  - apply tryCase_inv in H.
    destruct H as [[v' [Hv Hr]] | [[e [_ [He _]]] | [e [t1 [t2 [_ [_ Hn]]]]]]].
    + inversion Hv; subst. exists caseFn, trace. split; [now left | exact Hr].
    + discriminate.
    + destruct (IH _ _ _ Hn) as [c [tr [Hin Hc]]].
      exists c, tr. split; [now right | exact Hc].
Qed.

Lemma wrapWithCases_returned_inv (dataType : T) input wrapOptions
    (cases : list (Case T V Req)) trace v :
  Runs (wrapWithCases dataType input wrapOptions cases) trace (Returned v) ->
  exists caseFn trace',
    In caseFn cases /\ Runs (caseFn dataType input wrapOptions) trace' (Returned v).
Proof. apply wrapFrom_returned_inv. Qed.

Lemma call_returned_inv {A : Type} (x : Except A) (k : A -> Gen Req V) trace v :
  Runs (call x k) trace (Returned v) ->
  exists a, x = Ok a /\ Runs (k a) trace (Returned v).
Proof.
  destruct x as [a | e]; simpl; intros H.
  - now exists a.
  - inversion H.
Qed.

Lemma throwMismatch_not_returned dataType input name specificity reason trace (v : V) :
  ~ Runs (throwMismatch (Req := Req) dataType input name specificity reason)
         trace (Returned v).
Proof. intros H; inversion H. Qed.

End EngineReturns.

(** ** The shared validator of the decimal cases *)

Import Format.

Lemma validate_ok dataType asBig input name :
  Decimal.validate dataType asBig input name = Ok tt <-> accepted dataType asBig.
Proof.
  unfold Decimal.validate, accepted, withinBounds, raiseMismatch.
  destruct (Nat.ltb_spec (places dataType) (Conversion.countDecimalPlaces asBig)) as [Hlt | Hge].
  - split; [discriminate | intros [H _]; lia].
  - destruct (Big.gt asBig (Utils.maxValue dataType)); simpl.
    + split; [discriminate | intros [_ [H _]]; discriminate].
    + destruct (Big.lt asBig (Utils.minValue dataType)).
      * split; [discriminate | intros [_ [_ H]]; discriminate].
      * split; auto.
  Qed.

Lemma validate_ok_any dataType asBig input name input' name' (u : unit) :
  Decimal.validate dataType asBig input name = Ok u ->
  Decimal.validate dataType asBig input' name' = Ok tt.
Proof.
  destruct u. intros H. apply validate_ok. now apply validate_ok in H.
Qed.

(** C3. The shared validator, on any decimal type and value: more
    fractional digits than the places of the type give a Mismatch of
    specificity 5 whose message states the required and the actual places;
    a value above [maxValue] or below [minValue] gives a Mismatch of
    specificity 5; every other value is accepted. *)
Theorem validate_rejects_imprecise_and_out_of_range :
  forall dataType asBig input name,
    ((places dataType < Conversion.countDecimalPlaces asBig)%nat ->
       Decimal.validate dataType asBig input name
       = Raise (Mismatch
           {| errorType := DecimalT dataType; errorInput := input; argumentName := name;
              specificity := 5;
              reason := tooPreciseMessage (places dataType)
                          (Conversion.countDecimalPlaces asBig) |}))
    /\ (Big.gt asBig (Utils.maxValue dataType) = true
        \/ Big.lt asBig (Utils.minValue dataType) = true ->
        exists e, Decimal.validate dataType asBig input name = Raise (Mismatch e)
                  /\ specificity e = 5%nat
                  /\ errorType e = DecimalT dataType)
    /\ ((Conversion.countDecimalPlaces asBig <= places dataType)%nat ->
        Big.gt asBig (Utils.maxValue dataType) = false ->
        Big.lt asBig (Utils.minValue dataType) = false ->
        Decimal.validate dataType asBig input name = Ok tt).
Proof.
  intros dataType asBig input name. unfold Decimal.validate, raiseMismatch.
  repeat split.
  - intros H. apply Nat.ltb_lt in H. now rewrite H.
  - intros H.
    destruct (places dataType <? Conversion.countDecimalPlaces asBig)%nat.
    + eexists. repeat split.
    + replace (Big.gt asBig (Utils.maxValue dataType)
               || Big.lt asBig (Utils.minValue dataType)) with true.
      * eexists. repeat split.
      * symmetry. apply orb_true_iff. exact H.
  - intros Hp Hg Hl.
    destruct (Nat.ltb_spec (places dataType) (Conversion.countDecimalPlaces asBig));
      [lia |].
    now rewrite Hg, Hl.
Qed.

(** ** What a decimal case returns *)

(** Take a run that returns apart, along the branches of the case. *)
Ltac returned_run H :=
  repeat match type of H with
    | Runs (throwMismatch _ _ _ _ _) _ (Returned _) => now inversion H
    | Runs (Throw _) _ (Returned _) => now inversion H
    | Runs (call _ _) _ (Returned _) =>
        let a := fresh "a" in
        let E := fresh "Hcall" in
        apply call_returned_inv in H; destruct H as [a [E H]]
    | Runs (Return _) _ _ => inversion H; subst; clear H
    | Runs (match ?x with _ => _ end) _ _ => destruct x eqn:?; simpl in H
    | Runs (if ?b then _ else _) _ _ => destruct b eqn:?; simpl in H
    end.

Ltac validated :=
  simpl; split; [reflexivity |];
  match goal with
  | E : Decimal.validate _ _ _ _ = Ok _ |- _ =>
      apply validate_ok_any with (input' := IOther) (name' := EmptyString) in E;
      apply validate_ok in E; exact E
  end.

Section DecimalReturns.
Import Decimal.
Context {Req : Type}.
Variables (dataType : DecimalType) (input : Input) (wrapOptions : WrapOptions).
Variables (trace : list (Req * WrapResponse)) (v : DecimalValue).

Local Abbreviation returnsValidated :=
  (returnsValidated dataType input wrapOptions trace v).

Lemma decimalFromBig_returns : returnsValidated decimalFromBig.
Proof. unfold returnsValidated, decimalFromBig. intros H. returned_run H. validated. Qed.

Lemma decimalFromBN_returns : returnsValidated decimalFromBN.
Proof. unfold returnsValidated, decimalFromBN. intros H. returned_run H. validated. Qed.

Lemma decimalFromBigint_returns : returnsValidated decimalFromBigint.
Proof. unfold returnsValidated, decimalFromBigint. intros H. returned_run H. validated. Qed.

Lemma decimalFromString_returns : returnsValidated decimalFromString.
Proof. unfold returnsValidated, decimalFromString. intros H. returned_run H. validated. Qed.

Lemma decimalFromNumber_returns : returnsValidated decimalFromNumber.
Proof. unfold returnsValidated, decimalFromNumber. intros H. returned_run H. validated. Qed.

Lemma decimalFromBoxedString_returns : returnsValidated decimalFromBoxedString.
Proof.
  unfold returnsValidated, decimalFromBoxedString, decimalFromString.
  intros H. returned_run H. validated.
Qed.

Lemma decimalFromBoxedNumber_returns : returnsValidated decimalFromBoxedNumber.
Proof.
  unfold returnsValidated, decimalFromBoxedNumber, decimalFromNumber.
  intros H. returned_run H. validated.
Qed.

Lemma decimalFromDecimalValue_returns : returnsValidated decimalFromDecimalValue.
Proof.
  unfold returnsValidated, decimalFromDecimalValue. intros H. returned_run H. validated.
Qed.

Lemma decimalFromIntegerValue_returns : returnsValidated decimalFromIntegerValue.
Proof.
  unfold returnsValidated, decimalFromIntegerValue. intros H. returned_run H. validated.
Qed.

Lemma decimalFromEnumValue_returns : returnsValidated decimalFromEnumValue.
Proof.
  unfold returnsValidated, decimalFromEnumValue. intros H. returned_run H. validated.
Qed.

Lemma decimalFromEnumError_returns : returnsValidated decimalFromEnumError.
Proof.
  unfold returnsValidated, decimalFromEnumError. intros H. returned_run H. validated.
Qed.

End DecimalReturns.

Lemma decimalFromOther_returns dataType input wrapOptions trace v :
  returnsValidated dataType input wrapOptions trace v Decimal.decimalFromOther.
Proof.
  unfold returnsValidated, Decimal.decimalFromOther. intros H.
  inversion H as [| | request resume response trace' o Hresumed]; subst; clear H.
  returned_run Hresumed. validated.
Qed.

Lemma decimalCasesBasic_returns dataType input wrapOptions trace v caseFn :
  In caseFn Decimal.decimalCasesBasic ->
  returnsValidated dataType input wrapOptions trace v caseFn.
Proof.
  unfold Decimal.decimalCasesBasic. simpl.
  intros H.
  repeat (destruct H as [<- | H]);
    [ apply decimalFromNumber_returns | apply decimalFromString_returns
    | apply decimalFromBoxedNumber_returns | apply decimalFromBoxedString_returns
    | apply decimalFromBigint_returns | apply decimalFromBN_returns
    | apply decimalFromBig_returns | apply decimalFromDecimalValue_returns
    | apply decimalFromIntegerValue_returns | apply decimalFromEnumValue_returns
    | apply decimalFromEnumError_returns | apply decimalFromOther_returns
    | contradiction ].
Qed.

Lemma decimalFromTypeValueInput_returns dataType input wrapOptions trace v :
  returnsValidated dataType input wrapOptions trace v Decimal.decimalFromTypeValueInput.
Proof.
  unfold returnsValidated, Decimal.decimalFromTypeValueInput. intros H.
  destruct (Utils.isTypeValueInput input) as [[type value] |]; [| now inversion H].
  destruct (Decimal.matchFixedType type) as [[[class bs] ps] |]; [| now inversion H].
  match type of H with
  | Runs (if ?b then _ else _) _ _ => destruct b; [now inversion H |]
  end.
  apply wrapWithCases_returned_inv in H.
  destruct H as [caseFn [trace' [Hin Hrun]]].
  exact (decimalCasesBasic_returns _ _ _ _ _ _ Hin Hrun).
Qed.

Lemma decimalCases_returns dataType input wrapOptions trace v caseFn :
  In caseFn Decimal.decimalCases ->
  returnsValidated dataType input wrapOptions trace v caseFn.
Proof.
  intros [<- | Hin].
  - apply decimalFromTypeValueInput_returns.
  - now apply decimalCasesBasic_returns.
Qed.

(** ** The enum cases *)

(** C9. On a wrapped enum result, the enum-value case fails with
    specificity 1 when the result is an error, and the enum-error case fails
    with specificity 1 when the result is a value.  Hence, of these two
    cases, only the one that matches the kind of the input can fail with a
    higher specificity. *)
Theorem enum_cases_defer_to_each_other :
  forall (Req : Type) dataType typeName wrapOptions,
    (forall error,
        Decimal.decimalFromEnumValue (Req := Req) dataType
          (IWrappedResult (EnumErrorResult typeName error)) wrapOptions
        = throwMismatch (DecimalT dataType)
            (IWrappedResult (EnumErrorResult typeName error)) (name wrapOptions)
            1 errorResultMessage)
    /\ (forall numericAsBN,
        Decimal.decimalFromEnumError (Req := Req) dataType
          (IWrappedResult (EnumValue typeName numericAsBN)) wrapOptions
        = throwMismatch (DecimalT dataType)
            (IWrappedResult (EnumValue typeName numericAsBN)) (name wrapOptions)
            1 (Literal "Wrapped result was a value rather than an error"))
    /\ (forall result e,
        typeOf result = EnumT typeName ->
        Decimal.decimalFromEnumValue (Req := Req) dataType
          (IWrappedResult result) wrapOptions = Throw (Mismatch e) ->
        (1 < specificity e)%nat -> kindOf result = ValueKind)
    /\ (forall result e,
        typeOf result = EnumT typeName ->
        Decimal.decimalFromEnumError (Req := Req) dataType
          (IWrappedResult result) wrapOptions = Throw (Mismatch e) ->
        (1 < specificity e)%nat -> kindOf result = ErrorKind).
Proof.
  intros Req dataType typeName wrapOptions. repeat split.
  - intros result e Ht He Hs.
    destruct result; try discriminate; [reflexivity |].
    unfold Decimal.decimalFromEnumValue, throwMismatch in He. simpl in He.
    inversion He; subst. simpl in Hs. lia.
  - intros result e Ht He Hs.
    destruct result; try discriminate; [| reflexivity].
    unfold Decimal.decimalFromEnumError, throwMismatch in He. simpl in He.
    inversion He; subst. simpl in Hs. lia.
Qed.

(** ** The external-resolver fallback *)

Lemma plus_zero (b : Big.t) : Big.plus b (Big.of_Z 0) = b.
Proof.
  destruct b as [u s]. unfold Big.plus, Big.of_Z, Big.pow10. simpl.
  rewrite Nat.max_0_r, Nat.sub_diag. simpl.
  f_equal. lia.
Qed.

(** C7. The fallback case yields one request, of kind "decimal" and
    carrying the raw input, and never a second one.  Resumed with a response
    of another kind it throws the protocol error.  Resumed with a decimal
    response without a value it throws a Mismatch, of specificity 5 when the
    response reports partial recognition and 3 otherwise, with the reason
    of the response, or the default message when it has none.  Resumed with
    a value it clones the value, runs the shared validator on the clone and
    returns the clone under the target type. *)
Theorem decimalFromOther_protocol :
  forall dataType input wrapOptions,
    let request := {| request_kind := "decimal"; request_input := input |} in
    let message reason :=
      match reason with
      | Some (String c rest) => Literal (String c rest)
      | _ => unrecognizedNumberMessage dataType
      end in
    exists resume,
      Decimal.decimalFromOther dataType input wrapOptions = Yield request resume
      /\ (forall trace o,
            Runs (Decimal.decimalFromOther dataType input wrapOptions) trace o ->
            exists response, trace = [(request, response)])
      /\ resume OtherWrapResponse
         = Throw (BadResponseTypeError request OtherWrapResponse)
      /\ (forall reason,
            resume (DecimalWrapResponse None reason (Some true))
            = throwMismatch (DecimalT dataType) input (name wrapOptions) 5
                (message reason))
      /\ (forall reason partiallyRecognized,
            partiallyRecognized <> Some true ->
            resume (DecimalWrapResponse None reason partiallyRecognized)
            = throwMismatch (DecimalT dataType) input (name wrapOptions) 3
                (message reason))
      /\ (forall value reason partiallyRecognized,
            let clone := Big.plus value (Big.of_Z 0) in
            clone = value
            /\ resume (DecimalWrapResponse (Some value) reason partiallyRecognized)
               = match Decimal.validate dataType clone input (name wrapOptions) with
                 | Ok _ => Return {| decimalType := dataType; asBig := clone |}
                 | Raise e => Throw e
                 end).
Proof.
  intros dataType input wrapOptions request message.
  eexists. split; [reflexivity |]. repeat split.
  - intros trace o H.
    inversion H as [| | rq rs response trace' o' Hresumed]; subst.
    exists response. f_equal.
    destruct response as [[value |] reason pr |]; simpl in Hresumed.
    + destruct (Decimal.validate dataType (Big.plus value (Big.of_Z 0)) input
                  (name wrapOptions)); simpl in Hresumed; now inversion Hresumed.
    + now inversion Hresumed.
    + now inversion Hresumed.
  - intros reason pr Hpr.
    destruct pr as [[|] |]; [contradiction | reflexivity | reflexivity].
  - apply plus_zero.
Qed.

(** ** Strings *)

Lemma length_append (s t : string) :
  String.length (s ++ t)%string = (String.length s + String.length t)%nat.
Proof. induction s as [| c s IH]; simpl; [reflexivity | now rewrite IH]. Qed.

Lemma append_empty_r (s : string) : (s ++ EmptyString)%string = s.
Proof. induction s as [| c s IH]; simpl; [reflexivity | now rewrite IH]. Qed.

Lemma append_assoc (s t u : string) :
  ((s ++ t) ++ u)%string = (s ++ (t ++ u))%string.
Proof. induction s as [| c s IH]; simpl; [reflexivity | now rewrite IH]. Qed.

Lemma length_toLowerCase (s : string) :
  String.length (JS.toLowerCase s) = String.length s.
Proof. induction s as [| c s IH]; simpl; [reflexivity | now rewrite IH]. Qed.

Lemma toLowerCase_append (s t : string) :
  JS.toLowerCase (s ++ t) = (JS.toLowerCase s ++ JS.toLowerCase t)%string.
Proof. induction s as [| c s IH]; simpl; [reflexivity | now rewrite IH]. Qed.

Lemma length_zeros n : String.length (zeros n) = n.
Proof. induction n as [| n IH]; simpl; [reflexivity | now rewrite IH]. Qed.

Lemma zeros_add m n : zeros (m + n) = (zeros m ++ zeros n)%string.
Proof. induction m as [| m IH]; simpl; [reflexivity | now rewrite IH]. Qed.

(** Padding with "00" writes the character "0", wherever it starts in the
    filler. *)
Lemma padding_zeros n : forall rest,
  rest = "00"%string \/ rest = "0"%string \/ rest = EmptyString ->
  JS.padding "00" rest n = zeros n.
Proof.
  induction n as [| n IH]; intros rest Hrest; [reflexivity |].
  destruct Hrest as [-> | [-> | ->]]; simpl; f_equal; apply IH; auto.
Qed.

Lemma padEnd_zeros (s : string) (targetLength : nat) :
  JS.padEnd s targetLength "00" = (s ++ zeros (targetLength - String.length s))%string.
Proof. unfold JS.padEnd. rewrite padding_zeros; auto. Qed.

(** Comparing half of [z] with a length compares [z] with its double. *)
Lemma half_gt (z : Z) (length : nat) :
  Big.gt (JS.half z) (Big.of_Z (Z.of_nat length)) = (2 * Z.of_nat length <? z).
Proof.
  unfold Big.gt, Big.cmp, JS.half, Big.of_Z, Big.pow10. cbn [Big.unscaled Big.scale].
  change (10 ^ Z.of_nat 0) with 1. change (10 ^ Z.of_nat 1) with 10.
  destruct (Z.compare_spec (5 * z * 1) (Z.of_nat length * 10));
    destruct (Z.ltb_spec (2 * Z.of_nat length) z); try reflexivity; lia.
Qed.

Lemma lowerChar_hexDigit (n : N) :
  JS.lowerChar (Conversion.hexDigit n) = Conversion.hexDigit n.
Proof.
  unfold Conversion.hexDigit. generalize (N.to_nat n) as k. intros k.
  do 16 (destruct k as [| k]; [reflexivity |]).
  destruct k; reflexivity.
Qed.

Lemma toLowerCase_bytesToHex (bytes : list byte) :
  JS.toLowerCase (Conversion.bytesToHex bytes) = Conversion.bytesToHex bytes.
Proof.
  induction bytes as [| b bytes IH]; [reflexivity |].
  simpl. now rewrite !lowerChar_hexDigit, IH.
Qed.

Lemma toLowerCase_toHexString (bytes : list byte) :
  JS.toLowerCase (Conversion.toHexString bytes) = Conversion.toHexString bytes.
Proof. unfold Conversion.toHexString. simpl. now rewrite toLowerCase_bytesToHex. Qed.

Lemma length_bytesToHex (bytes : list byte) :
  String.length (Conversion.bytesToHex bytes) = (2 * List.length bytes)%nat.
Proof. induction bytes as [| b bytes IH]; simpl; [reflexivity | rewrite IH; lia]. Qed.

Lemma length_toHexString (bytes : list byte) :
  String.length (Conversion.toHexString bytes) = (2 * List.length bytes + 2)%nat.
Proof. unfold Conversion.toHexString. simpl. rewrite length_bytesToHex. lia. Qed.

Lemma bytesToHex_app (a b : list byte) :
  Conversion.bytesToHex (a ++ b)
  = (Conversion.bytesToHex a ++ Conversion.bytesToHex b)%string.
Proof. induction a as [| x a IH]; simpl; [reflexivity | now rewrite IH]. Qed.

(** Zero bytes are written as pairs of "0". *)
Lemma zero_bytes (k : nat) : Conversion.bytesToHex (repeat x00 k) = zeros (2 * k).
Proof.
  induction k as [| k IH]; [reflexivity |].
  replace (2 * S k)%nat with (S (S (2 * k))) by lia.
  simpl repeat. simpl zeros. simpl Conversion.bytesToHex. rewrite IH. reflexivity.
Qed.

(** ** The common post-step of the bytes cases *)

Lemma validateAndPad_static (length : nat) (asHex : string) input name :
  Bytes.validateAndPad (BytesTypeStatic length) asHex input name
  = if (2 * length + 2 <? String.length asHex)%nat
    then raiseMismatch (BytesT (BytesTypeStatic length)) input name 5
           (overlongMessage length (JS.half (Z.of_nat (String.length asHex) - 2)))
    else Ok (JS.toLowerCase asHex
             ++ zeros (2 * length + 2 - String.length asHex))%string.
Proof.
  unfold Bytes.validateAndPad.
  rewrite half_gt, length_toLowerCase, padEnd_zeros, length_toLowerCase.
  replace (length * 2 + 2)%nat with (2 * length + 2)%nat by lia.
  destruct (Nat.ltb_spec (2 * length + 2) (String.length asHex));
    destruct (Z.ltb_spec (2 * Z.of_nat length) (Z.of_nat (String.length asHex) - 2));
    try reflexivity; lia.
Qed.

Lemma validateAndPad_length dataType asHex input name padded :
  Bytes.validateAndPad dataType asHex input name = Ok padded ->
  forall length, dataType = BytesTypeStatic length ->
                 String.length padded = (2 * length + 2)%nat.
Proof.
  intros H length ->. rewrite validateAndPad_static in H.
  destruct (Nat.ltb_spec (2 * length + 2) (String.length asHex)) as [Hlt | Hge];
    [discriminate |].
  inversion H; subst.
  rewrite length_append, length_toLowerCase, length_zeros. lia.
Qed.

(** ** What a bytes case returns *)

Ltac padded :=
  simpl; split; [reflexivity |];
  match goal with
  | E : Bytes.validateAndPad _ _ _ _ = Ok _ |- _ =>
      exact (validateAndPad_length _ _ _ _ _ E)
  end.

Section BytesReturns.
Import Bytes.
Variables (dataType : BytesType) (input : Input) (wrapOptions : WrapOptions).
Variables (trace : list (never * WrapResponse)) (v : BytesValue).

Local Abbreviation returnsPadded :=
  (returnsPadded dataType input wrapOptions trace v).

Lemma bytesFromHexString_returns : returnsPadded bytesFromHexString.
Proof. unfold returnsPadded, bytesFromHexString. intros H. returned_run H. padded. Qed.

Lemma bytesFromBoxedString_returns : returnsPadded bytesFromBoxedString.
Proof.
  unfold returnsPadded, bytesFromBoxedString, bytesFromHexString.
  intros H. returned_run H. padded.
Qed.

Lemma bytesFromUint8ArrayLike_returns : returnsPadded bytesFromUint8ArrayLike.
Proof. unfold returnsPadded, bytesFromUint8ArrayLike. intros H. returned_run H. padded. Qed.

Lemma bytesFromEncodingTextInput_returns : returnsPadded bytesFromEncodingTextInput.
Proof.
  unfold returnsPadded, bytesFromEncodingTextInput. intros H. returned_run H. padded.
Qed.

Lemma bytesFromBytesValue_returns : returnsPadded bytesFromBytesValue.
Proof. unfold returnsPadded, bytesFromBytesValue. intros H. returned_run H. padded. Qed.

Lemma bytesFailureCase_returns : returnsPadded bytesFailureCase.
Proof. unfold returnsPadded, bytesFailureCase. intros H. inversion H. Qed.

Lemma bytesCasesBasic_returns caseFn :
  In caseFn bytesCasesBasic -> returnsPadded caseFn.
Proof.
  unfold bytesCasesBasic. simpl. intros H.
  repeat (destruct H as [<- | H]);
    [ apply bytesFromHexString_returns | apply bytesFromBoxedString_returns
    | apply bytesFromUint8ArrayLike_returns | apply bytesFromBytesValue_returns
    | apply bytesFromEncodingTextInput_returns | apply bytesFailureCase_returns
    | contradiction ].
Qed.

End BytesReturns.

Lemma bytesFromTypeValueInput_returns dataType input wrapOptions trace v :
  returnsPadded dataType input wrapOptions trace v Bytes.bytesFromTypeValueInput.
Proof.
  unfold returnsPadded, Bytes.bytesFromTypeValueInput. intros H.
  destruct (Utils.isTypeValueInput input) as [[type value] |]; [| now inversion H].
  destruct (negb (Bytes.matchesByteType type)); [now inversion H |].
  destruct (negb (Bytes.lengthMatches (Bytes.specifiedLength type) dataType));
    [now inversion H |].
  apply wrapWithCases_returned_inv in H.
  destruct H as [caseFn [trace' [Hin Hrun]]].
  exact (bytesCasesBasic_returns _ _ _ _ _ _ Hin Hrun).
Qed.

Lemma bytesCases_returns dataType input wrapOptions trace v caseFn :
  In caseFn Bytes.bytesCases ->
  returnsPadded dataType input wrapOptions trace v caseFn.
Proof.
  intros [<- | Hin].
  - apply bytesFromTypeValueInput_returns.
  - now apply bytesCasesBasic_returns.
Qed.

(** What an accepting case does with the bytes it recognizes. *)
Lemma recognized_post_step dataType wrapOptions caseFn input asHex :
  Recognizes dataType wrapOptions caseFn input asHex ->
  exists reported,
    caseFn dataType input wrapOptions
    = call (Bytes.validateAndPad dataType asHex reported (name wrapOptions))
           (fun padded => Return {| bytesType := dataType; asHex := padded |}).
Proof.
  intros H. destruct H as [s Hs | s Hs | a Ha | text bytes Ht | v Hv].
  - exists (IString s). unfold Bytes.bytesFromHexString. now rewrite Hs.
  - exists (IString s). unfold Bytes.bytesFromBoxedString, Bytes.bytesFromHexString.
    simpl. now rewrite Hs.
  - exists (IUint8ArrayLike a). unfold Bytes.bytesFromUint8ArrayLike. simpl.
    now rewrite Ha.
  - exists (IEncodingTextInput "utf8" text).
    unfold Bytes.bytesFromEncodingTextInput. simpl. now rewrite Ht.
  - exists (IWrappedResult (OfBytesValue v)).
    unfold Bytes.bytesFromBytesValue. simpl.
    destruct Hv as [-> | ->]; simpl; [reflexivity |].
    now rewrite andb_false_r.
Qed.

(** On an input that one of the accepting cases recognizes, the whole case
    list does what that case does: the cases before it fail with
    specificity 1, and its own failure, of specificity 5, outranks the
    rest. *)
Lemma recognized_run dataType wrapOptions caseFn input asHex :
  Recognizes dataType wrapOptions caseFn input asHex ->
  wrapWithCases dataType input wrapOptions Bytes.bytesCases
  = caseFn dataType input wrapOptions.
Proof.
  intros Hrec.
  destruct (recognized_post_step _ _ _ _ _ Hrec) as [reported Hcase].
  assert (Hpad : (exists padded,
                     Bytes.validateAndPad dataType asHex reported (name wrapOptions)
                     = Ok padded)
                 \/ (exists length actual,
                       Bytes.validateAndPad dataType asHex reported (name wrapOptions)
                       = raiseMismatch (BytesT (BytesTypeStatic length)) reported
                           (name wrapOptions) 5 (overlongMessage length actual))).
  { destruct dataType as [length |].
    - rewrite validateAndPad_static.
      destruct (2 * length + 2 <? String.length asHex)%nat; eauto.
    - left. eexists. reflexivity. }
  unfold wrapWithCases, Bytes.bytesCases, Bytes.bytesCasesBasic. cbn [wrapFrom].
  destruct Hrec; rewrite Hcase;
    destruct Hpad as [[padded ->] | [length [actual ->]]]; reflexivity.
Qed.

(** The same holds for the basic list, which the type-annotated pair case
    runs on the value of the pair. *)
Lemma recognized_run_basic dataType wrapOptions caseFn input asHex :
  Recognizes dataType wrapOptions caseFn input asHex ->
  wrapWithCases dataType input wrapOptions Bytes.bytesCasesBasic
  = caseFn dataType input wrapOptions.
Proof.
  intros Hrec.
  destruct (recognized_post_step _ _ _ _ _ Hrec) as [reported Hcase].
  assert (Hpad : (exists padded,
                     Bytes.validateAndPad dataType asHex reported (name wrapOptions)
                     = Ok padded)
                 \/ (exists length actual,
                       Bytes.validateAndPad dataType asHex reported (name wrapOptions)
                       = raiseMismatch (BytesT (BytesTypeStatic length)) reported
                           (name wrapOptions) 5 (overlongMessage length actual))).
  { destruct dataType as [length |].
    - rewrite validateAndPad_static.
      destruct (2 * length + 2 <? String.length asHex)%nat; eauto.
    - left. eexists. reflexivity. }
  unfold wrapWithCases, Bytes.bytesCasesBasic. cbn [wrapFrom].
  destruct Hrec; rewrite Hcase;
    destruct Hpad as [[padded ->] | [length [actual ->]]]; reflexivity.
Qed.

(** Lower case, character by character. *)
Lemma lowerChar_capital (c : ascii) :
  (65 <= N_of_ascii c <= 90)%N ->
  JS.lowerChar c = ascii_of_N (N_of_ascii c + 32).
Proof.
  intros [Hlo Hhi]. unfold JS.lowerChar. cbv zeta.
  apply N.leb_le in Hlo. apply N.leb_le in Hhi. now rewrite Hlo, Hhi.
Qed.

Lemma lowerChar_kept (c : ascii) :
  (N_of_ascii c < 65 \/ 90 < N_of_ascii c < 128)%N -> JS.lowerChar c = c.
Proof.
  intros H. unfold JS.lowerChar. cbv zeta.
  destruct (N.leb_spec 65 (N_of_ascii c)); cbn [andb orb];
    destruct (N.leb_spec (N_of_ascii c) 90); cbn [andb orb];
    destruct (N.leb_spec 192 (N_of_ascii c)); cbn [andb orb];
    try reflexivity; lia.
Qed.

Lemma get_toLowerCase (s : string) : forall i,
  String.get i (JS.toLowerCase s) = option_map JS.lowerChar (String.get i s).
Proof.
  induction s as [| c s IH]; intros [| i]; simpl; [reflexivity .. |]. apply IH.
Qed.

Lemma get_in_range (s : string) : forall i c,
  String.get i s = Some c -> (i < String.length s)%nat.
Proof.
  induction s as [| a s IH]; intros [| i] c H; simpl in *; try discriminate; [lia |].
  apply IH in H. lia.
Qed.

Lemma toLowerCase_lowerCaseOf (s rest : string) :
  lowerCaseOf s (JS.toLowerCase s ++ rest)%string.
Proof.
  intros i c Hget.
  assert (Hi : (i < String.length (JS.toLowerCase s))%nat)
    by (rewrite length_toLowerCase; exact (get_in_range _ _ _ Hget)).
  rewrite <- (append_correct1 _ rest _ Hi), get_toLowerCase, Hget. cbn [option_map].
  split; intros Hc.
  - now rewrite lowerChar_capital.
  - now rewrite lowerChar_kept.
Qed.

Lemma get_zeros (k : nat) : forall i,
  (i < k)%nat -> String.get i (zeros k) = Some "0"%char.
Proof.
  induction k as [| k IH]; intros [| i] Hi; simpl; try lia; [reflexivity |].
  apply IH. lia.
Qed.

Lemma get_padding (s : string) (k i : nat) :
  (String.length s <= i < String.length s + k)%nat ->
  String.get i (s ++ zeros k)%string = Some "0"%char.
Proof.
  intros Hi.
  replace i with ((i - String.length s) + String.length s)%nat by lia.
  rewrite <- append_correct2. apply get_zeros. lia.
Qed.

(** C2. Against a static type of [length] bytes, an accepting bytes case
    that recognizes the bytes written [asHex] in its input returns the
    lowercased [asHex] followed by zeros up to [2 * length + 2] characters,
    that is, padded on the right with zero bytes to [length] bytes; when
    the recognized bytes are more than [length] (more than [2 * length + 2]
    characters), it fails with a Mismatch of specificity 5 that carries the
    overlong message; the whole bytes case list then ends as that case
    does, and so does the type-annotated pair case on a pair of the type
    name and that input.  Whatever a case of the bytes list returns for a
    static type has [2 * length + 2] characters.  Lowercased is meant
    character by character: where [asHex] has one of the letters "A" to "Z"
    the payload has the small letter, every other character below 128 stands
    as it is, and every character after those of [asHex] is "0". *)
Theorem static_payload_padded_or_overlong :
  forall length wrapOptions,
    (forall caseFn input asHex,
        Recognizes (BytesTypeStatic length) wrapOptions caseFn input asHex ->
        ((String.length asHex <= 2 * length + 2)%nat ->
           exists payload,
             caseFn (BytesTypeStatic length) input wrapOptions
             = Return {| bytesType := BytesTypeStatic length; asHex := payload |}
             /\ payload = (JS.toLowerCase asHex
                           ++ zeros (2 * length + 2 - String.length asHex))%string
             /\ String.length payload = (2 * length + 2)%nat
             /\ (forall n, String.length asHex = (2 * n + 2)%nat ->
                   payload = (JS.toLowerCase asHex
                              ++ Conversion.bytesToHex (repeat x00 (length - n)))%string)
             /\ lowerCaseOf asHex payload
             /\ (forall i, (String.length asHex <= i < 2 * length + 2)%nat ->
                   String.get i payload = Some "0"%char))
        /\ ((2 * length + 2 < String.length asHex)%nat ->
           exists e,
             caseFn (BytesTypeStatic length) input wrapOptions = Throw (Mismatch e)
             /\ specificity e = 5%nat
             /\ errorType e = BytesT (BytesTypeStatic length)
             /\ reason e = overlongMessage length
                             (JS.half (Z.of_nat (String.length asHex) - 2)))
        /\ wrapWithCases (BytesTypeStatic length) input wrapOptions Bytes.bytesCases
           = caseFn (BytesTypeStatic length) input wrapOptions)
    /\ (forall type caseFn value asHex,
          Bytes.matchesByteType type = true ->
          Bytes.specifiedLength type = Some length ->
          Recognizes (BytesTypeStatic length) (withLoose wrapOptions) caseFn value asHex ->
          Bytes.bytesFromTypeValueInput (BytesTypeStatic length)
            (ITypeValueInput type value) wrapOptions
          = caseFn (BytesTypeStatic length) value (withLoose wrapOptions))
    /\ (forall caseFn input trace v,
          In caseFn Bytes.bytesCases ->
          Runs (caseFn (BytesTypeStatic length) input wrapOptions) trace (Returned v) ->
          String.length (asHex v) = (2 * length + 2)%nat).
Proof.
  intros length wrapOptions. split.
  - intros caseFn input asHex Hrec.
    rewrite (recognized_run _ _ _ _ _ Hrec).
    destruct (recognized_post_step _ _ _ _ _ Hrec) as [reported ->].
    rewrite validateAndPad_static. split; [| split; [| reflexivity]].
    + intros Hle.
      destruct (Nat.ltb_spec (2 * length + 2) (String.length asHex)); [lia |].
      eexists. split; [reflexivity |]. split; [reflexivity |]. split.
      * rewrite length_append, length_toLowerCase, length_zeros. lia.
      * split; [| split].
        -- intros n Hn. rewrite zero_bytes. do 2 f_equal. lia.
        -- apply toLowerCase_lowerCaseOf.
        -- intros i Hi. apply get_padding. rewrite length_toLowerCase. lia.
    + intros Hlt.
      destruct (Nat.ltb_spec (2 * length + 2) (String.length asHex)); [| lia].
      eexists. repeat split.
  - split.
    + intros type caseFn value asHex Hmatch Hlength Hrec.
      unfold Bytes.bytesFromTypeValueInput. cbn [Utils.isTypeValueInput].
      rewrite Hmatch, Hlength. cbn [negb Bytes.lengthMatches].
      rewrite Nat.eqb_refl. cbn [negb].
      now apply recognized_run_basic with (asHex := asHex).
    + intros caseFn input trace v Hin Hrun.
      destruct (bytesCases_returns _ _ _ _ _ _ Hin Hrun) as [_ Hlen].
      now apply Hlen.
Qed.

(** C8. Whatever a case of the bytes list or of the decimal list returns,
    on any input and under any options, carries the target type it was
    given; in particular a wrapped value of another type, accepted under
    [loose], comes back under the target type and not under its own. *)
Theorem returned_type_is_target :
  (forall caseFn dataType input wrapOptions trace v,
      In caseFn Bytes.bytesCases ->
      Runs (caseFn dataType input wrapOptions) trace (Returned v) ->
      bytesType v = dataType)
  /\ (forall caseFn dataType input wrapOptions trace v,
      In caseFn Decimal.decimalCases ->
      Runs (caseFn dataType input wrapOptions) trace (Returned v) ->
      decimalType v = dataType).
Proof.
  split.
  - intros caseFn dataType input wrapOptions trace v Hin Hrun.
    exact (proj1 (bytesCases_returns _ _ _ _ _ _ Hin Hrun)).
  - intros caseFn dataType input wrapOptions trace v Hin Hrun.
    exact (proj1 (decimalCases_returns _ _ _ _ _ _ Hin Hrun)).
Qed.

(** ** Canonical values *)

Lemma pow10_pos n : 0 < Big.pow10 n.
Proof. unfold Big.pow10. apply Z.pow_pos_nonneg; lia. Qed.

Lemma pow10_S n : Big.pow10 (S n) = 10 * Big.pow10 n.
Proof. unfold Big.pow10. rewrite Nat2Z.inj_succ, Z.pow_succ_r; lia. Qed.

Lemma pow10_divide m n : (m <= n)%nat -> (Big.pow10 m | Big.pow10 n).
Proof.
  intros H. exists (Big.pow10 (n - m)). unfold Big.pow10.
  rewrite <- Z.pow_add_r by lia. f_equal. lia.
Qed.

(** A decimal of at most [p] fractional digits is a multiple of [10^-p]. *)
Lemma fractionDigits_divide (s : nat) : forall (u : Z) (p : nat),
  (Big.fractionDigits u s <= p)%nat -> (Big.pow10 s | u * Big.pow10 p).
Proof.
  induction s as [| s IH]; intros u p H.
  - unfold Big.pow10 at 1. simpl. apply Z.divide_1_l.
  - simpl in H. destruct (Z.eqb_spec (u mod 10) 0) as [Hmod | Hmod].
    + destruct (IH _ _ H) as [k Hk].
      exists k. rewrite pow10_S.
      assert (Hu : u = 10 * (u / 10)).
      { pose proof (Z.div_mod u 10). lia. }
      rewrite Hu at 1.
      replace (10 * (u / 10) * Big.pow10 p) with (10 * (u / 10 * Big.pow10 p)) by ring.
      rewrite Hk. ring.
    + apply Z.divide_mul_r. now apply pow10_divide.
Qed.

Lemma below_bound k M d : 0 < d -> k * d < M * d -> k * d <= (M - 1) * d.
Proof.
  intros Hd H. assert (k < M) by (apply (Z.mul_lt_mono_pos_r d); assumption). nia.
Qed.

Lemma nonneg_factor u q : 0 < q -> 0 <= u * q -> 0 <= u.
Proof. intros Hq H. nia. Qed.

Lemma canonical_accepted dataType b :
  (Conversion.countDecimalPlaces b <= places dataType)%nat ->
  inRange dataType b -> accepted dataType b.
Proof.
  intros Hp Hr. split; [exact Hp |].
  unfold Conversion.countDecimalPlaces in Hp.
  destruct (fractionDigits_divide _ _ _ Hp) as [k Hk].
  pose proof (pow10_pos (Big.scale b)) as Hd.
  pose proof (pow10_pos (places dataType)) as Hq.
  unfold inRange in Hr. unfold withinBounds, Utils.maxValue, Utils.minValue.
  unfold Big.gt, Big.lt, Big.cmp, Big.of_Z.
  destruct (typeClass dataType); cbn [Big.unscaled Big.scale];
    destruct Hr as [Hlo Hhi]; split.
  - rewrite Hk in *. apply below_bound in Hhi; [| exact Hd].
    destruct (Z.compare_spec (k * Big.pow10 (Big.scale b))
                ((2 ^ Z.of_nat (bits dataType - 1) - 1) * Big.pow10 (Big.scale b)));
      try reflexivity; lia.
  - destruct (Z.compare_spec (Big.unscaled b * Big.pow10 (places dataType))
                (- 2 ^ Z.of_nat (bits dataType - 1) * Big.pow10 (Big.scale b)));
      try reflexivity; lia.
  - rewrite Hk in *. apply below_bound in Hhi; [| exact Hd].
    destruct (Z.compare_spec (k * Big.pow10 (Big.scale b))
                ((2 ^ Z.of_nat (bits dataType) - 1) * Big.pow10 (Big.scale b)));
      try reflexivity; lia.
  - change (Big.pow10 0) with 1.
    apply nonneg_factor in Hlo; [| exact Hq].
    destruct (Z.compare_spec (Big.unscaled b * 1) (0 * Big.pow10 (Big.scale b)));
      try reflexivity; lia.
Qed.

(** What the validator accepts is in the range of the descriptor. *)
Lemma accepted_inRange dataType b : accepted dataType b -> inRange dataType b.
Proof.
  intros [_ [Hg Hl]].
  pose proof (pow10_pos (Big.scale b)) as Hd.
  pose proof (pow10_pos (places dataType)) as Hq.
  unfold inRange. unfold Utils.maxValue, Utils.minValue in *.
  unfold Big.gt, Big.lt, Big.cmp, Big.of_Z in *.
  destruct (typeClass dataType); cbn [Big.unscaled Big.scale] in *.
  - destruct (Z.compare_spec (Big.unscaled b * Big.pow10 (places dataType))
                ((2 ^ Z.of_nat (bits dataType - 1) - 1) * Big.pow10 (Big.scale b)));
      try discriminate;
      destruct (Z.compare_spec (Big.unscaled b * Big.pow10 (places dataType))
                  (- 2 ^ Z.of_nat (bits dataType - 1) * Big.pow10 (Big.scale b)));
      try discriminate; nia.
  - change (Big.pow10 0) with 1 in Hl.
    destruct (Z.compare_spec (Big.unscaled b * Big.pow10 (places dataType))
                ((2 ^ Z.of_nat (bits dataType) - 1) * Big.pow10 (Big.scale b)));
      try discriminate;
      destruct (Z.compare_spec (Big.unscaled b * 1) (0 * Big.pow10 (Big.scale b)));
      try discriminate; nia.
Qed.

(** Every value a decimal case returns is canonical. *)
Lemma decimalCases_return_canonical caseFn dataType input wrapOptions trace v :
  In caseFn Decimal.decimalCases ->
  Runs (caseFn dataType input wrapOptions) trace (Returned v) ->
  canonicalDecimal v.
Proof.
  intros Hin Hrun.
  destruct (decimalCases_returns _ _ _ _ _ _ Hin Hrun) as [Ht Ha].
  unfold canonicalDecimal. rewrite Ht. split; [apply Ha | now apply accepted_inRange].
Qed.

Lemma sameBytesType_refl t : Bytes.sameBytesType t t = true.
Proof. destruct t; simpl; [apply Nat.eqb_refl | reflexivity]. Qed.

Lemma differs_refl t : Decimal.differs t t = false.
Proof.
  unfold Decimal.differs. rewrite !Nat.eqb_refl.
  destruct (typeClass t); reflexivity.
Qed.

Lemma validateAndPad_canonical v input name :
  canonicalBytes v ->
  Bytes.validateAndPad (bytesType v) (asHex v) input name = Ok (asHex v).
Proof.
  intros [_ [Hlower Hlen]].
  destruct (bytesType v) as [length |].
  - rewrite validateAndPad_static, Hlower, Hlen.
    rewrite Nat.ltb_irrefl, Nat.sub_diag. simpl. now rewrite append_empty_r.
  - simpl. now rewrite Hlower.
Qed.

(** C4. A canonical bytes value and a canonical decimal value, wrapped
    again for their own type without [loose], come back equal: from the
    case for wrapped values and from the whole case list.  Under [loose], a
    wrapped bytes or decimal value of any type is validated again for the
    target type, and is returned under the target type whenever its payload
    is valid for it. *)
Theorem canonical_values_round_trip :
  (forall v wrapOptions,
      canonicalBytes v -> loose wrapOptions = false ->
      let input := IWrappedResult (OfBytesValue v) in
      Bytes.bytesFromBytesValue (bytesType v) input wrapOptions = Return v
      /\ wrapWithCases (bytesType v) input wrapOptions Bytes.bytesCases = Return v)
  /\ (forall v wrapOptions,
      canonicalDecimal v -> loose wrapOptions = false ->
      let input := IWrappedResult (OfDecimalValue v) in
      Decimal.decimalFromDecimalValue (decimalType v) input wrapOptions
      = Return (Req := DecimalWrapRequest) v
      /\ wrapWithCases (decimalType v) input wrapOptions Decimal.decimalCases = Return v)
  /\ (forall dataType v wrapOptions,
      loose wrapOptions = true ->
      let input := IWrappedResult (OfBytesValue v) in
      let validated := Bytes.validateAndPad dataType (asHex v) input (name wrapOptions) in
      (forall padded, validated = Ok padded ->
         Bytes.bytesFromBytesValue dataType input wrapOptions
         = Return {| bytesType := dataType; asHex := padded |}
         /\ wrapWithCases dataType input wrapOptions Bytes.bytesCases
            = Return {| bytesType := dataType; asHex := padded |})
      /\ (forall e, validated = Raise e ->
            Bytes.bytesFromBytesValue dataType input wrapOptions = Throw e)
      /\ (dataType = BytesTypeDynamic -> validated = Ok (JS.toLowerCase (asHex v)))
      /\ (forall length, dataType = BytesTypeStatic length ->
            (String.length (asHex v) <= 2 * length + 2)%nat ->
            validated = Ok (JS.toLowerCase (asHex v)
                            ++ zeros (2 * length + 2 - String.length (asHex v)))%string))
  /\ (forall dataType v wrapOptions,
      loose wrapOptions = true ->
      let input := IWrappedResult (OfDecimalValue v) in
      (accepted dataType (asBig v) ->
         Decimal.decimalFromDecimalValue dataType input wrapOptions
         = Return (Req := DecimalWrapRequest) {| decimalType := dataType; asBig := asBig v |}
         /\ wrapWithCases dataType input wrapOptions Decimal.decimalCases
            = Return {| decimalType := dataType; asBig := asBig v |})
      /\ (forall e,
            Decimal.validate dataType (asBig v) input (name wrapOptions) = Raise e ->
            Decimal.decimalFromDecimalValue dataType input wrapOptions
            = Throw (Req := DecimalWrapRequest) e)).
Proof.
  repeat apply conj.
  - intros v wrapOptions Hc Hl input.
    assert (Hcase : Bytes.bytesFromBytesValue (bytesType v) input wrapOptions = Return v).
    { unfold Bytes.bytesFromBytesValue, input. simpl.
      rewrite sameBytesType_refl, andb_false_r, validateAndPad_canonical by exact Hc.
      simpl. now destruct v. }
    split; [exact Hcase |].
    unfold wrapWithCases, Bytes.bytesCases, Bytes.bytesCasesBasic.
    cbn [wrapFrom]. fold input. rewrite Hcase. reflexivity.
  - intros v wrapOptions [Hp Hr] Hl input.
    assert (Hcase : Decimal.decimalFromDecimalValue (decimalType v) input wrapOptions
                    = Return (Req := DecimalWrapRequest) v).
    { unfold Decimal.decimalFromDecimalValue, input. simpl.
      rewrite differs_refl, andb_false_r, plus_zero.
      pose proof (canonical_accepted _ _ Hp Hr) as Ha.
      apply (validate_ok _ _ (IWrappedResult (OfDecimalValue v)) (name wrapOptions)) in Ha.
      rewrite Ha. simpl. now destruct v. }
    split; [exact Hcase |].
    unfold wrapWithCases, Decimal.decimalCases, Decimal.decimalCasesBasic.
    cbn [wrapFrom]. fold input. rewrite Hcase. reflexivity.
  - intros dataType v wrapOptions Hl input validated.
    assert (Hcase : Bytes.bytesFromBytesValue dataType input wrapOptions
                    = call validated
                        (fun padded => Return {| bytesType := dataType; asHex := padded |})).
    { unfold Bytes.bytesFromBytesValue, input. simpl. now rewrite Hl. }
    repeat apply conj.
    + intros padded Hv.
      assert (Hret : Bytes.bytesFromBytesValue dataType input wrapOptions
                     = Return {| bytesType := dataType; asHex := padded |}).
      { rewrite Hcase, Hv. reflexivity. }
      split; [exact Hret |].
      unfold wrapWithCases, Bytes.bytesCases, Bytes.bytesCasesBasic.
      cbn [wrapFrom]. fold input. rewrite Hret. reflexivity.
    + intros e Hv. rewrite Hcase, Hv. reflexivity.
    + intros ->. reflexivity.
    + intros length -> Hle. unfold validated. rewrite validateAndPad_static.
      destruct (Nat.ltb_spec (2 * length + 2) (String.length (asHex v))); [lia |].
      reflexivity.
  - intros dataType v wrapOptions Hl input.
    assert (Hcase : Decimal.decimalFromDecimalValue dataType input wrapOptions
                    = call (Decimal.validate dataType (asBig v) input (name wrapOptions))
                        (fun _ => Return (Req := DecimalWrapRequest)
                                    {| decimalType := dataType; asBig := asBig v |})).
    { unfold Decimal.decimalFromDecimalValue, input. simpl.
      now rewrite Hl, plus_zero. }
    split.
    + intros Ha.
      apply (validate_ok _ _ input (name wrapOptions)) in Ha.
      assert (Hret : Decimal.decimalFromDecimalValue dataType input wrapOptions
                     = Return (Req := DecimalWrapRequest)
                         {| decimalType := dataType; asBig := asBig v |}).
      { rewrite Hcase, Ha. reflexivity. }
      split; [exact Hret |].
      unfold wrapWithCases, Decimal.decimalCases, Decimal.decimalCasesBasic.
      cbn [wrapFrom]. fold input. rewrite Hret. reflexivity.
    + intros e He. rewrite Hcase, He. reflexivity.
Qed.

(** ** Type annotations *)

Lemma spanDigits_app (ds tl : string) :
  allDigits ds = true -> startsWithDigit tl = false ->
  Big.spanDigits (ds ++ tl) = (ds, tl).
Proof.
  induction ds as [| c ds IH]; cbn [allDigits append Big.spanDigits]; intros Hd Ht.
  - destruct tl as [| c tl]; [reflexivity |].
    cbn [startsWithDigit] in Ht. cbn [Big.spanDigits]. now rewrite Ht.
  - apply andb_true_iff in Hd. destruct Hd as [Hc Hd].
    now rewrite Hc, IH.
Qed.

Lemma spanDigits_all (ds : string) :
  allDigits ds = true -> Big.spanDigits ds = (ds, EmptyString).
Proof.
  intros H. rewrite <- (append_empty_r ds) at 1. now apply spanDigits_app.
Qed.

Lemma spanDigits_inv (s : string) : forall ds tl,
  Big.spanDigits s = (ds, tl) ->
  s = (ds ++ tl)%string /\ allDigits ds = true /\ startsWithDigit tl = false.
Proof.
  induction s as [| c s IH]; cbn [Big.spanDigits]; intros ds tl H.
  - inversion H; subst. auto.
  - destruct (Big.isDigit c) eqn:Hc.
    + destruct (Big.spanDigits s) as [ds' tl'].
      inversion H; subst.
      destruct (IH _ _ eq_refl) as [-> [Hd Ht]].
      cbn [allDigits append]. rewrite Hc. auto.
    + inversion H; subst. cbn [allDigits append startsWithDigit]. rewrite Hc. auto.
Qed.

Lemma stripPrefix_inv (p : string) : forall s rest,
  stripPrefix p s = Some rest -> s = (p ++ rest)%string.
Proof.
  induction p as [| a p IH]; simpl; intros s rest H.
  - now inversion H.
  - destruct s as [| b s]; [discriminate |].
    destruct (Ascii.eqb_spec a b) as [-> | Hne]; [| discriminate].
    now rewrite (IH _ _ H).
Qed.

Lemma nonEmpty_true (s : string) : s <> EmptyString -> Big.nonEmpty s = true.
Proof. destruct s; [contradiction | reflexivity]. Qed.

Lemma nonEmpty_inv (s : string) : Big.nonEmpty s = true -> s <> EmptyString.
Proof. destruct s; [discriminate | discriminate]. Qed.

Lemma nonEmpty_false (s : string) : Big.nonEmpty s = false -> s = EmptyString.
Proof. destruct s; [reflexivity | discriminate]. Qed.

(** The pattern of the source accepts the annotations, and reads their
    class, bits and places. *)
Lemma matchFixedType_complete type class bits places :
  Annotation type class bits places ->
  exists bitsAsString placesAsString,
    Decimal.matchFixedType type = Some (class, bitsAsString, placesAsString)
    /\ Decimal.numberOr bitsAsString 128 = bits
    /\ Decimal.numberOr placesAsString 18 = places.
Proof.
  intros H. destruct H as [class | class ds Hd Hne | class ds ps Hd Hne Hp Hpne].
  - exists None, None. destruct class; auto.
  - exists (Some ds), None.
    split; [| auto].
    unfold Decimal.matchFixedType.
    destruct class; simpl; destruct ds as [| c ds]; try contradiction;
      rewrite (spanDigits_all _ Hd); reflexivity.
  - exists (Some ds), (Some ps).
    split; [| auto].
    assert (Hspan : Big.spanDigits (ds ++ "x" ++ ps) = (ds, ("x" ++ ps)%string)).
    { apply spanDigits_app; [exact Hd | reflexivity]. }
    unfold Decimal.matchFixedType.
    destruct class; simpl; destruct ds as [| c ds]; try contradiction;
      simpl in Hspan; simpl; rewrite Hspan; simpl;
      rewrite (spanDigits_all _ Hp), (nonEmpty_true _ Hpne); reflexivity.
Qed.

(** The pattern accepts nothing else. *)
Lemma matchFixedType_sound type class bitsAsString placesAsString :
  Decimal.matchFixedType type = Some (class, bitsAsString, placesAsString) ->
  Annotation type class (Decimal.numberOr bitsAsString 128)
             (Decimal.numberOr placesAsString 18).
Proof.
  unfold Decimal.matchFixedType. intros H.
  assert (Hprefix : exists c rest,
            type = (className c ++ rest)%string
            /\ match rest with
               | EmptyString => Some (c, @None string, @None string)
               | _ =>
                   let '(bs, tl) := Big.spanDigits rest in
                   if Big.nonEmpty bs then
                     match tl with
                     | EmptyString => Some (c, Some bs, None)
                     | String "x" tl' =>
                         let '(ps, tl'') := Big.spanDigits tl' in
                         if Big.nonEmpty ps && negb (Big.nonEmpty tl'')
                         then Some (c, Some bs, Some ps)
                         else None
                     | _ => None
                     end
                   else None
               end = Some (class, bitsAsString, placesAsString)).
  { destruct (stripPrefix "ufixed" type) as [rest |] eqn:Eu.
    - exists ufixed, rest. split; [now apply stripPrefix_inv in Eu |].
      destruct rest; exact H.
    - destruct (stripPrefix "fixed" type) as [rest |] eqn:Ef; [| discriminate].
      exists fixed, rest. split; [now apply stripPrefix_inv in Ef |].
      destruct rest; exact H. }
  clear H. destruct Hprefix as [c [rest [-> H]]].
  destruct rest as [| r0 rest0] eqn:Erest.
  - inversion H; subst. rewrite append_empty_r. constructor.
  - rewrite <- Erest in *. clear Erest.
    destruct (Big.spanDigits rest) as [bs tl] eqn:Es.
    apply spanDigits_inv in Es. destruct Es as [-> [Hb _]].
    destruct (Big.nonEmpty bs) eqn:Hne; [| discriminate].
    apply nonEmpty_inv in Hne.
    destruct tl as [| x tl'].
    + inversion H; subst. rewrite append_empty_r. now constructor.
    + destruct (Ascii.eqb_spec x "x") as [-> | Hx].
      * destruct (Big.spanDigits tl') as [ps tl''] eqn:Ep.
        apply spanDigits_inv in Ep. destruct Ep as [-> [Hp _]].
        destruct (Big.nonEmpty ps) eqn:Hpne; [| discriminate].
        destruct (Big.nonEmpty tl'') eqn:Htl; [discriminate |].
        apply nonEmpty_false in Htl. subst tl''.
        apply nonEmpty_inv in Hpne.
        simpl in H. inversion H; subst. rewrite append_empty_r.
        now constructor.
      * exfalso. destruct x as [[] [] [] [] [] [] [] []]; try discriminate.
        now apply Hx.
Qed.

Lemma decimalClassEqb_eq a b : decimalClassEqb a b = true <-> a = b.
Proof. destruct a, b; simpl; split; congruence. Qed.

(** C5. The type-annotated pair case of the decimal list, on an input
    [{type, value}]: when [type] is "fixed" or "ufixed", optionally followed
    by BITS or by BITSxPLACES (bits 128 and places 18 when absent), and
    names the target type, the case runs the basic decimal cases on [value]
    with [loose] set; when it names another class, other bits or other
    places, the case fails with a Mismatch of specificity 5, as it does for
    any other [type]; an input that is not such a pair fails with
    specificity 1. *)
Theorem decimalFromTypeValueInput_annotation :
  forall dataType value wrapOptions,
    let mismatch type :=
      throwMismatch (DecimalT dataType) (ITypeValueInput type value)
        (name wrapOptions) 5 (specifiedTypeMessage type) in
    (forall type class bits places,
        Annotation type class bits places ->
        (names class bits places dataType ->
           Decimal.decimalFromTypeValueInput dataType (ITypeValueInput type value) wrapOptions
           = wrapWithCases dataType value
               {| name := name wrapOptions; loose := true |}
               Decimal.decimalCasesBasic)
        /\ (~ names class bits places dataType ->
           Decimal.decimalFromTypeValueInput dataType (ITypeValueInput type value) wrapOptions
           = mismatch type))
    /\ (forall type,
          (forall class bits places, ~ Annotation type class bits places) ->
          Decimal.decimalFromTypeValueInput dataType (ITypeValueInput type value) wrapOptions
          = mismatch type)
    /\ Decimal.decimalFromTypeValueInput
         {| typeClass := fixed; bits := 128; places := 18 |}
         (ITypeValueInput "fixed256x18" value) wrapOptions
       = throwMismatch (DecimalT {| typeClass := fixed; bits := 128; places := 18 |})
           (ITypeValueInput "fixed256x18" value) (name wrapOptions) 5
           (specifiedTypeMessage "fixed256x18").
Proof.
  intros dataType value wrapOptions mismatch. repeat apply conj.
  - intros type class bits' places' Ha.
    destruct (matchFixedType_complete _ _ _ _ Ha) as [bs [ps [Hm [Hb Hp]]]].
    unfold Decimal.decimalFromTypeValueInput. cbn [Utils.isTypeValueInput].
    rewrite Hm. cbv zeta. rewrite Hb, Hp. split.
    + intros [Hc [Hbits Hplaces]].
      rewrite Hc, Hbits, Hplaces, !Nat.eqb_refl.
      replace (decimalClassEqb class class) with true
        by (symmetry; now apply decimalClassEqb_eq).
      reflexivity.
    + intros Hn.
      destruct (decimalClassEqb (typeClass dataType) class) eqn:Ec; [| reflexivity].
      destruct (Nat.eqb_spec (bits dataType) bits'); [| reflexivity].
      destruct (Nat.eqb_spec (places dataType) places'); [| reflexivity].
      exfalso. apply Hn. apply decimalClassEqb_eq in Ec. now repeat split.
  - intros type Hnone.
    unfold Decimal.decimalFromTypeValueInput. cbn [Utils.isTypeValueInput].
    destruct (Decimal.matchFixedType type) as [[[class bs] ps] |] eqn:Hm; [| reflexivity].
    exfalso. exact (Hnone _ _ _ (matchFixedType_sound _ _ _ _ Hm)).
  - reflexivity.
Qed.

(** ** Trimming *)

Lemma trimStart_white (ws : string) :
  allWhiteSpace ws = true -> JS.trimStart ws = EmptyString.
Proof.
  induction ws as [| c ws IH]; cbn [allWhiteSpace JS.trimStart]; intros H;
    [reflexivity |].
  apply andb_true_iff in H. destruct H as [Hc Hw]. rewrite Hc. now apply IH.
Qed.

Lemma trimEnd_white (ws : string) :
  allWhiteSpace ws = true -> JS.trimEnd ws = EmptyString.
Proof.
  induction ws as [| c ws IH]; cbn [allWhiteSpace JS.trimEnd]; intros H;
    [reflexivity |].
  apply andb_true_iff in H. destruct H as [Hc Hw]. now rewrite (IH Hw), Hc.
Qed.

Lemma trimStart_app_white (ws s : string) :
  allWhiteSpace ws = true -> JS.trimStart (ws ++ s) = JS.trimStart s.
Proof.
  induction ws as [| c ws IH]; cbn [allWhiteSpace JS.trimStart append]; intros H;
    [reflexivity |].
  apply andb_true_iff in H. destruct H as [Hc Hw]. rewrite Hc. now apply IH.
Qed.

Lemma trimEnd_app_white (s ws : string) :
  allWhiteSpace ws = true -> JS.trimEnd (s ++ ws) = JS.trimEnd s.
Proof.
  intros H. induction s as [| c s IH]; cbn [JS.trimEnd append].
  - now apply trimEnd_white.
  - now rewrite IH.
Qed.

Lemma trim_app_white (s ws : string) :
  allWhiteSpace ws = true -> JS.trim (s ++ ws) = JS.trim s.
Proof.
  intros H. unfold JS.trim.
  induction s as [| c s IH]; cbn [JS.trimStart append].
  - now rewrite (trimStart_white _ H).
  - destruct (JS.isWhiteSpace c); [exact IH |].
    change (String c (s ++ ws)%string) with (String c s ++ ws)%string.
    now apply trimEnd_app_white.
Qed.

(** White space around a string does not change what [trim] gives. *)
Lemma trim_surrounded (before s after : string) :
  allWhiteSpace before = true -> allWhiteSpace after = true ->
  JS.trim (before ++ s ++ after) = JS.trim s.
Proof.
  intros Hb Ha. unfold JS.trim. rewrite (trimStart_app_white _ _ Hb).
  now apply trim_app_white.
Qed.

(** ** The string case of the decimal list *)

Lemma validate_raises dataType asBig input name :
  ~ accepted dataType asBig ->
  exists e, Decimal.validate dataType asBig input name = Raise (Mismatch e)
            /\ specificity e = 5%nat
            /\ (reason e = tooPreciseMessage (places dataType)
                             (Conversion.countDecimalPlaces asBig)
                \/ reason e = outOfRangeMessage).
Proof.
  intros Hn. unfold Decimal.validate, raiseMismatch.
  destruct (Nat.ltb_spec (places dataType) (Conversion.countDecimalPlaces asBig)).
  - eexists. split; [reflexivity |]. split; [reflexivity | now left].
  - destruct (Big.gt asBig (Utils.maxValue dataType)) eqn:Hg; simpl.
    + eexists. split; [reflexivity |]. split; [reflexivity | now right].
    + destruct (Big.lt asBig (Utils.minValue dataType)) eqn:Hl.
      * eexists. split; [reflexivity |]. split; [reflexivity | now right].
      * exfalso. apply Hn. now repeat split.
Qed.

(** The string case returns exactly the validated value of the trimmed
    string. *)
Lemma decimalFromString_returns_iff {Req : Type} dataType s wrapOptions v :
  Decimal.decimalFromString (Req := Req) dataType (IString s) wrapOptions = Return v
  <-> exists b, Big.parse (JS.trim s) = Some b /\ accepted dataType b
                /\ v = {| decimalType := dataType; asBig := b |}.
Proof.
  unfold Decimal.decimalFromString. split.
  - destruct (Big.parse (JS.trim s)) as [b |]; [| discriminate].
    destruct (Decimal.validate dataType b (IString s) (name wrapOptions)) as [[] | e] eqn:Ev;
      simpl; [| discriminate].
    intros H. inversion H; subst. exists b.
    split; [reflexivity |]. split; [| reflexivity].
    now apply validate_ok in Ev.
  - intros [b [-> [Ha ->]]].
    apply (validate_ok _ _ (IString s) (name wrapOptions)) in Ha. now rewrite Ha.
Qed.

(** C10, as amended.  The string case trims the string before it parses
    it.  A string whose trimmed form parses as the decimal [b] is returned
    with the value [b] when [b] passes the shared validator, and is rejected
    by the validator with specificity 5 when it does not; and white space
    around a string changes neither whether the case returns nor the value it
    returns. *)
Theorem decimalFromString_trims :
  forall (Req : Type) dataType s wrapOptions,
    (forall b,
        Big.parse (JS.trim s) = Some b ->
        (accepted dataType b ->
           Decimal.decimalFromString (Req := Req) dataType (IString s) wrapOptions
           = Return {| decimalType := dataType; asBig := b |})
        /\ (~ accepted dataType b ->
           exists e,
             Decimal.decimalFromString (Req := Req) dataType (IString s) wrapOptions
             = Throw (Mismatch e)
             /\ specificity e = 5%nat
             /\ (reason e = tooPreciseMessage (places dataType)
                              (Conversion.countDecimalPlaces b)
                 \/ reason e = outOfRangeMessage)))
    /\ (forall before after v,
          allWhiteSpace before = true -> allWhiteSpace after = true ->
          (Decimal.decimalFromString (Req := Req) dataType
             (IString (before ++ s ++ after)) wrapOptions = Return v
           <-> Decimal.decimalFromString (Req := Req) dataType
                 (IString s) wrapOptions = Return v)).
Proof.
  intros Req dataType s wrapOptions. split.
  - intros b Hb. split.
    + intros Ha. apply decimalFromString_returns_iff. exists b. auto.
    + intros Hn.
      destruct (validate_raises dataType b (IString s) (name wrapOptions) Hn)
        as [e [He [Hs Hr]]].
      exists e. repeat split; [| exact Hs | exact Hr].
      unfold Decimal.decimalFromString. now rewrite Hb, He.
  - intros before after v Hbefore Hafter.
    rewrite !decimalFromString_returns_iff.
    now rewrite (trim_surrounded _ _ _ Hbefore Hafter).
Qed.

(** The claim C10 as it is stated fails: the trimmed form of " 1.5 " parses
    as the decimal 1.5, and the string case rejects it for ufixed8x0. *)
Lemma decimalFromString_rejects_a_parsed_decimal :
  Big.parse (JS.trim " 1.5 ") = Some (Big.mk 15 1)
  /\ Decimal.decimalFromString (Req := never)
       {| typeClass := ufixed; bits := 8; places := 0 |}
       (IString " 1.5 ") {| name := "amount"; loose := false |}
     = Throw (Mismatch
         {| errorType := DecimalT {| typeClass := ufixed; bits := 8; places := 0 |};
            errorInput := IString " 1.5 ";
            argumentName := "amount";
            specificity := 5;
            reason := tooPreciseMessage 0 1 |}).
Proof. split; reflexivity. Qed.

(** ** The order of the bytes cases *)

Section EngineOrder.
Context {T V Req : Type}.

(** A run that returns stops at the first case that returns, after all
    the cases before it have failed with a Mismatch. *)
Lemma wrapFrom_returned_split (dataType : T) input wrapOptions :
  forall (cases : list (Case T V Req)) recorded trace v,
    Runs (wrapFrom dataType input wrapOptions cases recorded) trace (Returned v) ->
    exists before caseFn after traces errors trace',
      cases = before ++ caseFn :: after
      /\ AllFail dataType input wrapOptions before traces errors
      /\ Runs (caseFn dataType input wrapOptions) trace' (Returned v)
      /\ trace = List.concat traces ++ trace'.
Proof.
  induction cases as [| caseFn rest IH]; simpl; intros recorded trace v H.
  - destruct (selectError recorded); inversion H.
  - apply tryCase_inv in H.
    destruct H as [[v' [Hv Hr]] | [[e [_ [He _]]] | [e [t1 [t2 [-> [H1 Hn]]]]]]].
    + inversion Hv; subst.
      exists [], caseFn, rest, [], [], trace.
      repeat split; [constructor | exact Hr].
    + discriminate.
    + destruct (IH _ _ _ Hn)
        as [before [c [after [traces [errors [trace' [-> [Hall [Hc ->]]]]]]]]].
      exists (caseFn :: before), c, after, (t1 :: traces), (e :: errors), trace'.
      repeat split; [now constructor | exact Hc |].
      simpl. now rewrite app_assoc.
Qed.

End EngineOrder.

(** C6, as amended.  The bytes cases are tried in this order: type-annotated
    pair, hex string, boxed string, byte-array-like, previously-wrapped
    bytes value, encoding/text pair, catch-all failure; the case for wrapped
    bytes values is tried before the encoding/text case.  A run returns the
    value of a case exactly when every case before it in this order has
    failed with a Mismatch. *)
Theorem bytes_cases_order :
  Bytes.bytesCases
  = [ Bytes.bytesFromTypeValueInput;
      Bytes.bytesFromHexString;
      Bytes.bytesFromBoxedString;
      Bytes.bytesFromUint8ArrayLike;
      Bytes.bytesFromBytesValue;
      Bytes.bytesFromEncodingTextInput;
      Bytes.bytesFailureCase ]
  /\ (forall dataType input wrapOptions trace v,
        Runs (wrapWithCases dataType input wrapOptions Bytes.bytesCases) trace (Returned v)
        <-> exists before caseFn after traces errors trace',
              Bytes.bytesCases = before ++ caseFn :: after
              /\ AllFail dataType input wrapOptions before traces errors
              /\ Runs (caseFn dataType input wrapOptions) trace' (Returned v)
              /\ trace = List.concat traces ++ trace').
Proof.
  split; [reflexivity |].
  intros dataType input wrapOptions trace v. split.
  - apply wrapFrom_returned_split.
  - intros [before [caseFn [after [traces [errors [trace' [-> [Hall [Hc ->]]]]]]]]].
    unfold wrapWithCases. now apply wrapFrom_first_match with (errors := errors).
Qed.

(** The claim C6 as it is stated fails: the fifth case tried is the one for
    wrapped bytes values and the sixth the encoding/text one, so the list is
    not in the stated order. *)
Lemma wrapped_value_case_precedes_text_case :
  nth_error Bytes.bytesCases 4 = Some Bytes.bytesFromBytesValue
  /\ nth_error Bytes.bytesCases 5 = Some Bytes.bytesFromEncodingTextInput
  /\ (exists traces errors e5 e6,
        AllFail BytesTypeDynamic IOther {| name := "data"; loose := false |}
                Bytes.bytesCases traces errors
        /\ nth_error errors 4 = Some e5
        /\ reason e5 = Literal "Input was not a wrapped result"
        /\ nth_error errors 5 = Some e6
        /\ reason e6 = Literal "Input was not a in encoding/text form")
  /\ Bytes.bytesCases <> statedOrder.
Proof.
  split; [reflexivity |]. split; [reflexivity |]. split.
  { do 4 eexists. split.
    - repeat (eapply AllFail_cons; [apply Runs_Throw |]). apply AllFail_nil.
    - repeat split. }
  intros H.
  assert (Hcase : nth_error Bytes.bytesCases 4 = nth_error statedOrder 4)
    by now rewrite H.
  simpl in Hcase. inversion Hcase as [Heq].
  assert (Happ : Bytes.bytesFromBytesValue BytesTypeDynamic IOther
                   {| name := "data"; loose := false |}
                 = Bytes.bytesFromEncodingTextInput BytesTypeDynamic IOther
                     {| name := "data"; loose := false |})
    by now rewrite Heq.
  discriminate Happ.
Qed.

(** ** The properties at concrete inputs *)

(** C1 on a wrapped enum value offered to ufixed8x0 without [loose], the
    resolver recognizing nothing: three cases fail with specificity 5. *)
Lemma wrapWithCases_raises_most_specific_witness :
  let dataType := {| typeClass := ufixed; bits := 8; places := 0 |} in
  let input := IWrappedResult (EnumValue "Color" 3) in
  let wrapOptions := {| name := "amount"; loose := false |} in
  exists traces errors,
    AllFail dataType input wrapOptions Decimal.decimalCases traces errors
    /\ exists i best,
         nth_error errors i = Some best
         /\ Runs (wrapWithCases dataType input wrapOptions Decimal.decimalCases)
                 (List.concat traces) (Thrown (Mismatch best))
         /\ (forall j e, nth_error errors j = Some e ->
               (specificity e <= specificity best)%nat)
         /\ (forall j e, (j < i)%nat -> nth_error errors j = Some e ->
               (specificity e < specificity best)%nat).
Proof.
  intros dataType input wrapOptions.
  do 2 eexists.
  match goal with |- ?A /\ _ => assert (Hall : A) end.
  { repeat (eapply AllFail_cons;
            [ first [ apply Runs_Throw
                    | eapply (Runs_Yield _ _ (DecimalWrapResponse None None None));
                      apply Runs_Throw ] |]).
    apply AllFail_nil. }
  split; [exact Hall |].
  apply (wrapWithCases_raises_most_specific _ _ _ dataType input wrapOptions
           Decimal.decimalCases _ _); [discriminate | exact Hall].
Defined.

(** C2 on the hex string "0xAB12" offered to bytes4, on the
    byte-array-like [1, 2] offered to bytes4, and on "0x010203" offered to
    bytes2. *)
Lemma static_payload_padded_or_overlong_witness :
  let wrapOptions := {| name := "data"; loose := false |} in
  let array :=
    ArrayLike (JS.Finite (Big.of_Z 2))
              [ENumber (JS.Finite (Big.of_Z 1)); ENumber (JS.Finite (Big.of_Z 2))] in
  (exists payload,
      Bytes.bytesFromHexString (BytesTypeStatic 4) (IString "0xAB12") wrapOptions
      = Return {| bytesType := BytesTypeStatic 4; asHex := payload |}
      /\ payload = "0xab120000"
      /\ String.get 2 payload = Some "a"%char
      /\ String.get 3 payload = Some "b"%char
      /\ String.get 4 payload = Some "1"%char
      /\ String.get 9 payload = Some "0"%char)
  /\ Bytes.bytesFromUint8ArrayLike (BytesTypeStatic 4) (IUint8ArrayLike array) wrapOptions
     = Return {| bytesType := BytesTypeStatic 4; asHex := "0x01020000" |}
  /\ exists e,
       Bytes.bytesFromHexString (BytesTypeStatic 2) (IString "0x010203") wrapOptions
       = Throw (Mismatch e)
       /\ specificity e = 5%nat
       /\ errorType e = BytesT (BytesTypeStatic 2)
       /\ reason e = overlongMessage 2 (JS.half 6)
       /\ Bytes.bytesFromTypeValueInput (BytesTypeStatic 2)
            (ITypeValueInput "bytes2" (IString "0x010203")) wrapOptions
          = Throw (Mismatch e).
Proof.
  intros wrapOptions array. split; [| split].
  - destruct (proj1 (static_payload_padded_or_overlong 4 wrapOptions) _ _ _
                (Recognizes_hex (BytesTypeStatic 4) wrapOptions "0xAB12" eq_refl))
      as [Hfits _].
    destruct (Hfits ltac:(vm_compute; lia))
      as [payload [Hcase [Hpayload [_ [_ [Hlower Hzeros]]]]]].
    exists payload. split; [exact Hcase |]. split; [rewrite Hpayload; reflexivity |].
    split; [| split; [| split]].
    + apply (proj1 (Hlower 2%nat "A"%char eq_refl)). vm_compute.
      split; discriminate.
    + apply (proj1 (Hlower 3%nat "B"%char eq_refl)). vm_compute.
      split; discriminate.
    + apply (proj2 (Hlower 4%nat "1"%char eq_refl)). left. reflexivity.
    + apply Hzeros. vm_compute. lia.
  - destruct (proj1 (static_payload_padded_or_overlong 4 wrapOptions) _ _ _
                (Recognizes_array (BytesTypeStatic 4) wrapOptions array eq_refl))
      as [Hfits _].
    destruct (Hfits ltac:(vm_compute; lia)) as [payload [Hcase [Hpayload _]]].
    rewrite Hcase, Hpayload. reflexivity.
  - destruct (proj1 (static_payload_padded_or_overlong 2 wrapOptions) _ _ _
                (Recognizes_hex (BytesTypeStatic 2) wrapOptions "0x010203" eq_refl))
      as [_ [Hover _]].
    destruct (Hover ltac:(vm_compute; lia)) as [e [Hcase [Hspecificity [Htype Hreason]]]].
    exists e.
    rewrite (proj1 (proj2 (static_payload_padded_or_overlong 2 wrapOptions))
               "bytes2" Bytes.bytesFromHexString (IString "0x010203") "0x010203"
               eq_refl eq_refl
               (Recognizes_hex (BytesTypeStatic 2) (withLoose wrapOptions)
                               "0x010203" eq_refl)).
    repeat split; assumption.
Defined.

(** C3 on 1.5 offered to ufixed8x0, on 256 and on 255. *)
Lemma validate_rejects_imprecise_and_out_of_range_witness :
  let dataType := {| typeClass := ufixed; bits := 8; places := 0 |} in
  Decimal.validate dataType (Big.mk 15 1) (IString "1.5") "amount"
  = Raise (Mismatch {| errorType := DecimalT dataType; errorInput := IString "1.5";
                       argumentName := "amount"; specificity := 5;
                       reason := tooPreciseMessage 0 1 |})
  /\ (exists e, Decimal.validate dataType (Big.of_Z 256) (IString "256") "amount"
                = Raise (Mismatch e)
                /\ specificity e = 5%nat /\ errorType e = DecimalT dataType)
  /\ Decimal.validate dataType (Big.of_Z 255) (IString "255") "amount" = Ok tt.
Proof.
  intros dataType. repeat apply conj.
  - apply (proj1 (validate_rejects_imprecise_and_out_of_range
                    dataType (Big.mk 15 1) (IString "1.5") "amount")).
    vm_compute. lia.
  - apply (proj1 (proj2 (validate_rejects_imprecise_and_out_of_range
                           dataType (Big.of_Z 256) (IString "256") "amount"))).
    left. reflexivity.
  - apply (proj2 (proj2 (validate_rejects_imprecise_and_out_of_range
                           dataType (Big.of_Z 255) (IString "255") "amount")));
      [vm_compute; lia | reflexivity | reflexivity].
Defined.

(** C4 on the bytes2 value 0xab00 and the ufixed128x18 value 1.23, wrapped
    again for their own types, and for bytes4 and ufixed128x2 under
    [loose]. *)
Lemma canonical_values_round_trip_witness :
  let strict := {| name := "data"; loose := false |} in
  let relaxed := {| name := "data"; loose := true |} in
  let bytes2 := {| bytesType := BytesTypeStatic 2; asHex := "0xab00" |} in
  let ufixed128x18 := {| typeClass := ufixed; bits := 128; places := 18 |} in
  let ufixed128x2 := {| typeClass := ufixed; bits := 128; places := 2 |} in
  let amount := {| decimalType := ufixed128x18; asBig := Big.mk 123 2 |} in
  wrapWithCases (BytesTypeStatic 2) (IWrappedResult (OfBytesValue bytes2)) strict
    Bytes.bytesCases = Return bytes2
  /\ wrapWithCases ufixed128x18 (IWrappedResult (OfDecimalValue amount)) strict
       Decimal.decimalCases = Return amount
  /\ wrapWithCases (BytesTypeStatic 4) (IWrappedResult (OfBytesValue bytes2)) relaxed
       Bytes.bytesCases
     = Return {| bytesType := BytesTypeStatic 4; asHex := "0xab000000" |}
  /\ wrapWithCases ufixed128x2 (IWrappedResult (OfDecimalValue amount)) relaxed
       Decimal.decimalCases
     = Return {| decimalType := ufixed128x2; asBig := Big.mk 123 2 |}.
Proof.
  intros strict relaxed bytes2 ufixed128x18 ufixed128x2 amount.
  destruct canonical_values_round_trip as [Hbytes [Hdecimal [Hloose Hloose']]].
  repeat apply conj.
  - assert (Hcanonical : canonicalBytes bytes2) by (repeat split).
    exact (proj2 (Hbytes bytes2 strict Hcanonical eq_refl)).
  - assert (Hcanonical : canonicalDecimal amount).
    { split; [vm_compute; lia |].
      vm_compute. split; [intros H; discriminate H | reflexivity]. }
    exact (proj2 (Hdecimal amount strict Hcanonical eq_refl)).
  - exact (proj2 (proj1 (Hloose (BytesTypeStatic 4) bytes2 relaxed eq_refl)
                    "0xab000000" eq_refl)).
  - assert (Haccepted : accepted ufixed128x2 (asBig amount))
      by (repeat split; vm_compute; lia).
    exact (proj2 (proj1 (Hloose' ufixed128x2 amount relaxed eq_refl) Haccepted)).
Defined.

(** C5 on the annotations "fixed128x18", "fixed" and "fixed256x18" for the
    target fixed128x18, and on "decimal". *)
Lemma decimalFromTypeValueInput_annotation_witness :
  let fixed128x18 := {| typeClass := fixed; bits := 128; places := 18 |} in
  let wrapOptions := {| name := "amount"; loose := false |} in
  let relaxed := {| name := "amount"; loose := true |} in
  let mismatch type :=
    throwMismatch (Req := DecimalWrapRequest) (A := DecimalValue)
      (DecimalT fixed128x18) (ITypeValueInput type (IString "1"))
      "amount" 5 (specifiedTypeMessage type) in
  Decimal.decimalFromTypeValueInput fixed128x18
    (ITypeValueInput "fixed128x18" (IString "1")) wrapOptions
  = wrapWithCases fixed128x18 (IString "1") relaxed Decimal.decimalCasesBasic
  /\ Decimal.decimalFromTypeValueInput fixed128x18
       (ITypeValueInput "fixed" (IString "1")) wrapOptions
     = wrapWithCases fixed128x18 (IString "1") relaxed Decimal.decimalCasesBasic
  /\ Decimal.decimalFromTypeValueInput fixed128x18
       (ITypeValueInput "fixed256x18" (IString "1")) wrapOptions
     = mismatch "fixed256x18"
  /\ Decimal.decimalFromTypeValueInput fixed128x18
       (ITypeValueInput "decimal" (IString "1")) wrapOptions
     = mismatch "decimal".
Proof.
  intros fixed128x18 wrapOptions relaxed mismatch.
  destruct (decimalFromTypeValueInput_annotation fixed128x18 (IString "1") wrapOptions)
    as [Hannotated [Hother _]].
  repeat apply conj.
  - apply (proj1 (Hannotated _ _ _ _
                    (Annotation_full fixed "128" "18" eq_refl ltac:(discriminate)
                                     eq_refl ltac:(discriminate)))).
    repeat split.
  - apply (proj1 (Hannotated _ _ _ _ (Annotation_bare fixed))).
    repeat split.
  - apply (proj2 (Hannotated _ _ _ _
                    (Annotation_full fixed "256" "18" eq_refl ltac:(discriminate)
                                     eq_refl ltac:(discriminate)))).
    intros [_ [Hbits _]]. vm_compute in Hbits. discriminate Hbits.
  - apply (Hother "decimal").
    intros class bits places H.
    inversion H as [c Hc | c ds _ _ Hc | c ds ps _ _ _ _ Hc];
      destruct c; discriminate Hc.
Defined.

(** C6 on the text "hi" offered to a dynamic bytes type: the five cases
    before the encoding/text case fail, the wrapped-value case among them. *)
Lemma bytes_cases_order_witness :
  let wrapOptions := {| name := "data"; loose := false |} in
  let input := IEncodingTextInput "utf8" [104%N; 105%N] in
  Runs (wrapWithCases BytesTypeDynamic input wrapOptions Bytes.bytesCases) []
       (Returned {| bytesType := BytesTypeDynamic; asHex := "0x6869" |}).
Proof.
  intros wrapOptions input.
  apply (proj2 bytes_cases_order).
  exists [ Bytes.bytesFromTypeValueInput; Bytes.bytesFromHexString;
           Bytes.bytesFromBoxedString; Bytes.bytesFromUint8ArrayLike;
           Bytes.bytesFromBytesValue ],
         Bytes.bytesFromEncodingTextInput, [ Bytes.bytesFailureCase ].
  exists [ []; []; []; []; [] ].
  eexists. exists [].
  split; [reflexivity |]. split.
  - repeat (eapply AllFail_cons; [apply Runs_Throw |]). apply AllFail_nil.
  - split; [apply Runs_Return | reflexivity].
Defined.

(** C7 on a resolver that recognizes nothing in its input. *)
Lemma decimalFromOther_protocol_witness :
  let dataType := {| typeClass := ufixed; bits := 8; places := 0 |} in
  let wrapOptions := {| name := "amount"; loose := false |} in
  let request := {| request_kind := "decimal"; request_input := IOther |} in
  Runs (Decimal.decimalFromOther dataType IOther wrapOptions)
       [(request, DecimalWrapResponse None None (Some false))]
       (Thrown (Mismatch
          {| errorType := DecimalT dataType; errorInput := IOther;
             argumentName := "amount"; specificity := 3;
             reason := unrecognizedNumberMessage dataType |}))
  /\ exists response,
       [(request, DecimalWrapResponse None None (Some false))] = [(request, response)].
Proof.
  intros dataType wrapOptions request.
  destruct (decimalFromOther_protocol dataType IOther wrapOptions)
    as [resume [Hyield [Honce [_ [_ [Hnone _]]]]]].
  assert (Hrun : Runs (Decimal.decimalFromOther dataType IOther wrapOptions)
                   [(request, DecimalWrapResponse None None (Some false))]
                   (Thrown (Mismatch
                      {| errorType := DecimalT dataType; errorInput := IOther;
                         argumentName := "amount"; specificity := 3;
                         reason := unrecognizedNumberMessage dataType |}))).
  { rewrite Hyield. apply Runs_Yield.
    rewrite (Hnone None (Some false)) by discriminate. apply Runs_Throw. }
  split; [exact Hrun |].
  exact (Honce _ _ Hrun).
Defined.

(** C8 on a bytes2 value offered to bytes4 and a ufixed8x0 value offered to
    ufixed128x18, both under [loose]. *)
Lemma returned_type_is_target_witness :
  let relaxed := {| name := "data"; loose := true |} in
  let ufixed8x0 := {| typeClass := ufixed; bits := 8; places := 0 |} in
  let ufixed128x18 := {| typeClass := ufixed; bits := 128; places := 18 |} in
  (exists v,
      Runs (Bytes.bytesFromBytesValue (BytesTypeStatic 4)
              (IWrappedResult
                 (OfBytesValue {| bytesType := BytesTypeStatic 2; asHex := "0xab00" |}))
              relaxed) [] (Returned v)
      /\ bytesType v = BytesTypeStatic 4)
  /\ (exists v,
      Runs (Decimal.decimalFromDecimalValue (Req := DecimalWrapRequest) ufixed128x18
              (IWrappedResult
                 (OfDecimalValue {| decimalType := ufixed8x0; asBig := Big.of_Z 3 |}))
              relaxed) [] (Returned v)
      /\ decimalType v = ufixed128x18).
Proof.
  intros relaxed ufixed8x0 ufixed128x18. split.
  - eexists. split; [apply Runs_Return |].
    apply (proj1 returned_type_is_target Bytes.bytesFromBytesValue
             (BytesTypeStatic 4)
             (IWrappedResult
                (OfBytesValue {| bytesType := BytesTypeStatic 2; asHex := "0xab00" |}))
             relaxed []).
    + simpl. tauto.
    + apply Runs_Return.
  - eexists. split; [apply Runs_Return |].
    apply (proj2 returned_type_is_target Decimal.decimalFromDecimalValue
             ufixed128x18
             (IWrappedResult
                (OfDecimalValue {| decimalType := ufixed8x0; asBig := Big.of_Z 3 |}))
             relaxed []).
    + simpl. tauto.
    + apply Runs_Return.
Defined.

(** C9 on an enum value and on an enum error offered without [loose]. *)
Lemma enum_cases_defer_to_each_other_witness :
  kindOf (EnumValue "Color" 3) = ValueKind
  /\ kindOf (EnumErrorResult "Color" (EnumOutOfRangeError 7)) = ErrorKind.
Proof.
  pose (dataType := {| typeClass := ufixed; bits := 8; places := 0 |}).
  pose (wrapOptions := {| name := "amount"; loose := false |}).
  destruct (enum_cases_defer_to_each_other never dataType "Color" wrapOptions)
    as [_ [_ [Hvalue Herror]]].
  split.
  - apply (Hvalue (EnumValue "Color" 3)
             {| errorType := DecimalT dataType;
                errorInput := IWrappedResult (EnumValue "Color" 3);
                argumentName := "amount"; specificity := 5;
                reason := wrappedTypeMessage (EnumT "Color") |});
      [reflexivity | reflexivity | simpl; lia].
  - apply (Herror (EnumErrorResult "Color" (EnumOutOfRangeError 7))
             {| errorType := DecimalT dataType;
                errorInput := IWrappedResult (EnumErrorResult "Color" (EnumOutOfRangeError 7));
                argumentName := "amount"; specificity := 5;
                reason := wrappedTypeMessage (EnumT "Color") |});
      [reflexivity | reflexivity | simpl; lia].
Defined.

(** C10, as amended, on " 1.23 " offered to ufixed128x18. *)
Lemma decimalFromString_trims_witness :
  let ufixed128x18 := {| typeClass := ufixed; bits := 128; places := 18 |} in
  let wrapOptions := {| name := "amount"; loose := false |} in
  let v := {| decimalType := ufixed128x18; asBig := Big.mk 123 2 |} in
  Decimal.decimalFromString (Req := never) ufixed128x18 (IString " 1.23 ") wrapOptions
  = Return v
  /\ (Decimal.decimalFromString (Req := never) ufixed128x18
        (IString (" " ++ "1.23" ++ " ")) wrapOptions = Return v
      <-> Decimal.decimalFromString (Req := never) ufixed128x18
            (IString "1.23") wrapOptions = Return v).
Proof.
  intros ufixed128x18 wrapOptions v. split.
  - apply (proj1 (proj1 (decimalFromString_trims never ufixed128x18 " 1.23 " wrapOptions)
                    (Big.mk 123 2) eq_refl)).
    repeat split; vm_compute; lia.
  - apply (proj2 (decimalFromString_trims never ufixed128x18 "1.23" wrapOptions));
      reflexivity.
Defined.

(** ** The scenarios of the specification *)

(** (a) Dynamic bytes, the string "0xAB". *)
Example scenario_dynamic_hex :
  wrapWithCases BytesTypeDynamic (IString "0xAB")
    {| name := "data"; loose := false |} Bytes.bytesCases
  = Return {| bytesType := BytesTypeDynamic; asHex := "0xab" |}.
Proof. reflexivity. Qed.

(** (b) bytes4, the byte-array-like [1, 2]. *)
Example scenario_padded_array :
  wrapWithCases (BytesTypeStatic 4)
    (IUint8ArrayLike
       (ArrayLike (JS.Finite (Big.of_Z 2))
          [ENumber (JS.Finite (Big.of_Z 1)); ENumber (JS.Finite (Big.of_Z 2))]))
    {| name := "data"; loose := false |} Bytes.bytesCases
  = Return {| bytesType := BytesTypeStatic 4; asHex := "0x01020000" |}.
Proof. reflexivity. Qed.

(** (c) bytes2, the string "0x010203". *)
Example scenario_overlong :
  wrapWithCases (BytesTypeStatic 2) (IString "0x010203")
    {| name := "data"; loose := false |} Bytes.bytesCases
  = throwMismatch (BytesT (BytesTypeStatic 2)) (IString "0x010203") "data" 5
      (overlongMessage 2 (Big.mk 30 1)).
Proof. reflexivity. Qed.

(** (d) ufixed128x18, the string "1.23": no request is made. *)
Example scenario_decimal_string :
  drive (wrapWithCases {| typeClass := ufixed; bits := 128; places := 18 |}
           (IString "1.23") {| name := "amount"; loose := false |}
           Decimal.decimalCases) []
  = Some ([], Returned {| decimalType := {| typeClass := ufixed; bits := 128; places := 18 |};
                          asBig := Big.mk 123 2 |}).
Proof. reflexivity. Qed.

(** (e) ufixed8x0, the string "1.5", the resolver recognizing nothing. *)
Example scenario_too_precise :
  let dataType := {| typeClass := ufixed; bits := 8; places := 0 |} in
  drive (wrapWithCases dataType (IString "1.5") {| name := "amount"; loose := false |}
           Decimal.decimalCases) [DecimalWrapResponse None None None]
  = Some ([{| request_kind := "decimal"; request_input := IString "1.5" |}],
          Thrown (Mismatch
            {| errorType := DecimalT dataType; errorInput := IString "1.5";
               argumentName := "amount"; specificity := 5;
               reason := tooPreciseMessage 0 1 |})).
Proof. reflexivity. Qed.

(** (f) fixed128x18, the pair of "fixed256x18" and "1", the resolver
    recognizing nothing. *)
Example scenario_other_annotation :
  let dataType := {| typeClass := fixed; bits := 128; places := 18 |} in
  let input := ITypeValueInput "fixed256x18" (IString "1") in
  drive (wrapWithCases dataType input {| name := "amount"; loose := false |}
           Decimal.decimalCases) [DecimalWrapResponse None None None]
  = Some ([{| request_kind := "decimal"; request_input := input |}],
          Thrown (Mismatch
            {| errorType := DecimalT dataType; errorInput := input;
               argumentName := "amount"; specificity := 5;
               reason := specifiedTypeMessage "fixed256x18" |})).
Proof. reflexivity. Qed.

(* ================================================================== *)
(** * Further properties of the cases *)

(** ** Wrapping again what a case returned *)

Lemma lowerChar_idempotent (c : ascii) :
  JS.lowerChar (JS.lowerChar c) = JS.lowerChar c.
Proof. destruct c as [[] [] [] [] [] [] [] []]; reflexivity. Qed.

Lemma toLowerCase_idempotent (s : string) :
  JS.toLowerCase (JS.toLowerCase s) = JS.toLowerCase s.
Proof.
  induction s as [| c s IH]; simpl; [reflexivity |].
  now rewrite lowerChar_idempotent, IH.
Qed.

Lemma toLowerCase_zeros (n : nat) : JS.toLowerCase (zeros n) = zeros n.
Proof. induction n as [| n IH]; simpl; [reflexivity | now rewrite IH]. Qed.

(** What the common post-step lets through, it lets through unchanged. *)
Lemma validateAndPad_fixpoint dataType asHex input name padded input' name' :
  Bytes.validateAndPad dataType asHex input name = Ok padded ->
  Bytes.validateAndPad dataType padded input' name' = Ok padded.
Proof.
  destruct dataType as [length |].
  - rewrite !validateAndPad_static.
    generalize (2 * length + 2)%nat as n. intros n.
    destruct (Nat.ltb_spec n (String.length asHex)) as [Hlt | Hge];
      [discriminate |].
    intros Hok. injection Hok as <-.
    rewrite !length_append, !length_toLowerCase, !length_zeros.
    replace (String.length asHex + (n - String.length asHex))%nat with n by lia.
    rewrite Nat.ltb_irrefl, Nat.sub_diag. simpl zeros.
    rewrite append_empty_r, toLowerCase_append, toLowerCase_idempotent, toLowerCase_zeros.
    reflexivity.
  - simpl. intros H. inversion H. now rewrite toLowerCase_idempotent.
Qed.

Ltac post_stepped :=
  simpl; split; [reflexivity |];
  match goal with
  | E : Bytes.validateAndPad _ _ _ _ = Ok _ |- _ =>
      exact (validateAndPad_fixpoint _ _ _ _ _ IOther EmptyString E)
  end.

Lemma bytesCasesBasic_post_stepped caseFn dataType input wrapOptions trace v :
  In caseFn Bytes.bytesCasesBasic ->
  Runs (caseFn dataType input wrapOptions) trace (Returned v) ->
  bytesType v = dataType
  /\ Bytes.validateAndPad dataType (asHex v) IOther EmptyString = Ok (asHex v).
Proof.
  unfold Bytes.bytesCasesBasic. simpl. intros Hin H.
  repeat (destruct Hin as [<- | Hin]); try contradiction.
  - unfold Bytes.bytesFromHexString in H. returned_run H. post_stepped.
  - unfold Bytes.bytesFromBoxedString, Bytes.bytesFromHexString in H.
    returned_run H. post_stepped.
  - unfold Bytes.bytesFromUint8ArrayLike in H. returned_run H. post_stepped.
  - unfold Bytes.bytesFromBytesValue in H. returned_run H. post_stepped.
  - unfold Bytes.bytesFromEncodingTextInput in H. returned_run H. post_stepped.
  - inversion H.
Qed.

Lemma bytesCases_post_stepped caseFn dataType input wrapOptions trace v :
  In caseFn Bytes.bytesCases ->
  Runs (caseFn dataType input wrapOptions) trace (Returned v) ->
  bytesType v = dataType
  /\ Bytes.validateAndPad dataType (asHex v) IOther EmptyString = Ok (asHex v).
Proof.
  intros [<- | Hin] H; [| exact (bytesCasesBasic_post_stepped _ _ _ _ _ _ Hin H)].
  unfold Bytes.bytesFromTypeValueInput in H.
  destruct (Utils.isTypeValueInput input) as [[type value] |]; [| now inversion H].
  destruct (negb (Bytes.matchesByteType type)); [now inversion H |].
  destruct (negb (Bytes.lengthMatches (Bytes.specifiedLength type) dataType));
    [now inversion H |].
  apply wrapWithCases_returned_inv in H.
  destruct H as [caseFn [trace' [Hin Hrun]]].
  exact (bytesCasesBasic_post_stepped _ _ _ _ _ _ Hin Hrun).
Qed.

(** X1. Wrapping bytes is idempotent: a value that any case of the bytes
    list returned, offered again as a wrapped value for the same type, comes
    back unchanged, from the case for wrapped values and from the whole
    list, whatever the options. *)
Theorem bytes_wrapping_idempotent :
  forall caseFn dataType input wrapOptions trace v again,
    In caseFn Bytes.bytesCases ->
    Runs (caseFn dataType input wrapOptions) trace (Returned v) ->
    Bytes.bytesFromBytesValue dataType (IWrappedResult (OfBytesValue v)) again
    = Return v
    /\ wrapWithCases dataType (IWrappedResult (OfBytesValue v)) again Bytes.bytesCases
       = Return v.
Proof.
  intros caseFn dataType input wrapOptions trace v again Hin Hrun.
  destruct (bytesCases_post_stepped _ _ _ _ _ _ Hin Hrun) as [Htype Hpad].
  assert (Hcase : Bytes.bytesFromBytesValue dataType (IWrappedResult (OfBytesValue v)) again
                  = Return v).
  { unfold Bytes.bytesFromBytesValue. simpl.
    rewrite Htype, sameBytesType_refl, andb_false_r.
    rewrite (validateAndPad_fixpoint _ _ _ _ _ (IWrappedResult (OfBytesValue v))
               (name again) Hpad).
    simpl. rewrite <- Htype. now destruct v. }
  split; [exact Hcase |].
  unfold wrapWithCases, Bytes.bytesCases, Bytes.bytesCasesBasic.
  cbn [wrapFrom]. rewrite Hcase. reflexivity.
Qed.

Lemma bytes_wrapping_idempotent_witness :
  let wrapOptions := {| name := "data"; loose := false |} in
  let v := {| bytesType := BytesTypeStatic 4; asHex := "0xab120000" |} in
  wrapWithCases (BytesTypeStatic 4) (IWrappedResult (OfBytesValue v)) wrapOptions
    Bytes.bytesCases = Return v.
Proof.
  intros wrapOptions v.
  apply (bytes_wrapping_idempotent Bytes.bytesFromHexString (BytesTypeStatic 4)
           (IString "0xAB12") wrapOptions [] v wrapOptions).
  - simpl. tauto.
  - apply Runs_Return.
Defined.

(** X2. Wrapping decimals is idempotent: a value that any case of the
    decimal list returned, offered again as a wrapped value for the same
    type, comes back unchanged and without a request, whatever the
    options. *)
Theorem decimal_wrapping_idempotent :
  forall caseFn dataType input wrapOptions trace v again,
    In caseFn Decimal.decimalCases ->
    Runs (caseFn dataType input wrapOptions) trace (Returned v) ->
    Decimal.decimalFromDecimalValue dataType (IWrappedResult (OfDecimalValue v)) again
    = Return (Req := DecimalWrapRequest) v
    /\ wrapWithCases dataType (IWrappedResult (OfDecimalValue v)) again
         Decimal.decimalCases = Return v.
Proof.
  intros caseFn dataType input wrapOptions trace v again Hin Hrun.
  destruct (decimalCases_returns _ _ _ _ _ _ Hin Hrun) as [Htype Ha].
  assert (Hcase : Decimal.decimalFromDecimalValue dataType
                    (IWrappedResult (OfDecimalValue v)) again
                  = Return (Req := DecimalWrapRequest) v).
  { unfold Decimal.decimalFromDecimalValue. simpl.
    rewrite Htype, differs_refl, andb_false_r, plus_zero.
    apply (validate_ok _ _ (IWrappedResult (OfDecimalValue v)) (name again)) in Ha.
    rewrite Ha. simpl. rewrite <- Htype. now destruct v. }
  split; [exact Hcase |].
  unfold wrapWithCases, Decimal.decimalCases, Decimal.decimalCasesBasic.
  cbn [wrapFrom]. rewrite Hcase. reflexivity.
Qed.

Lemma decimal_wrapping_idempotent_witness :
  let wrapOptions := {| name := "amount"; loose := false |} in
  let ufixed128x18 := {| typeClass := ufixed; bits := 128; places := 18 |} in
  let v := {| decimalType := ufixed128x18; asBig := Big.mk 15 1 |} in
  wrapWithCases ufixed128x18 (IWrappedResult (OfDecimalValue v)) wrapOptions
    Decimal.decimalCases = Return v.
Proof.
  intros wrapOptions ufixed128x18 v.
  apply (decimal_wrapping_idempotent Decimal.decimalFromString ufixed128x18
           (IString " 1.5") wrapOptions [] v wrapOptions).
  - simpl. tauto.
  - apply Runs_Return.
Defined.

(** ** Type annotations of the bytes list *)

Lemma lengthMatches_iff (length : option nat) dataType :
  Bytes.lengthMatches length dataType = true <-> length = lengthOfType dataType.
Proof.
  destruct length as [n |], dataType as [l |]; simpl; split; try congruence.
  - intros H. apply Nat.eqb_eq in H. now subst.
  - intros H. inversion H. apply Nat.eqb_refl.
Qed.

(** The patterns of the source accept the annotations and read their
    length. *)
Lemma bytesAnnotation_complete type length :
  BytesAnnotation type length ->
  Bytes.matchesByteType type = true /\ Bytes.specifiedLength type = length.
Proof.
  intros H. destruct H as [| | digits Hd Hne]; [split; reflexivity .. |].
  unfold Bytes.matchesByteType, Bytes.specifiedLength, Bytes.matchBytesN.
  cbn [stripPrefix append Ascii.eqb Bool.eqb].
  rewrite (spanDigits_all _ Hd), (nonEmpty_true _ Hne). split; reflexivity.
Qed.

(** The first pattern accepts nothing else. *)
Lemma bytesAnnotation_sound type :
  Bytes.matchesByteType type = true -> exists length, BytesAnnotation type length.
Proof.
  unfold Bytes.matchesByteType. intros H.
  destruct (stripPrefix "byte" type) as [rest |] eqn:Hp; [| discriminate].
  apply stripPrefix_inv in Hp. subst type.
  destruct rest as [| c rest].
  - exists (Some 1%nat). constructor.
  - destruct (Ascii.eqb_spec c "s") as [-> | Hc].
    + destruct (Big.spanDigits rest) as [digits tl] eqn:Hs.
      apply spanDigits_inv in Hs. destruct Hs as [-> [Hd _]].
      destruct tl; [| discriminate]. rewrite append_empty_r.
      destruct digits as [| d digits].
      * exists None. constructor.
      * exists (Some (JS.NumberOfDigits (String d digits))).
        now apply (BytesAnnotation_static (String d digits)).
    + exfalso. destruct c as [[] [] [] [] [] [] [] []]; try discriminate.
      now apply Hc.
Qed.

(** X3. The type-annotated pair case of the bytes list, on an input
    [{type, value}]: "byte" stands for one byte, "bytes" for the dynamic
    type and "bytes" followed by digits for that many bytes.  When the
    annotation stands for the target type, the case runs the basic bytes
    cases on [value] with [loose] set; when it stands for another length or
    kind, or is no such annotation, the case fails with a Mismatch of
    specificity 5. *)
Theorem bytesFromTypeValueInput_annotation :
  forall dataType value wrapOptions,
    let mismatch type :=
      throwMismatch (Req := never) (A := BytesValue)
        (BytesT dataType) (ITypeValueInput type value)
        (name wrapOptions) 5 (specifiedTypeMessage type) in
    (forall type length,
        BytesAnnotation type length ->
        (length = lengthOfType dataType ->
           Bytes.bytesFromTypeValueInput dataType (ITypeValueInput type value) wrapOptions
           = wrapWithCases dataType value
               {| name := name wrapOptions; loose := true |}
               Bytes.bytesCasesBasic)
        /\ (length <> lengthOfType dataType ->
           Bytes.bytesFromTypeValueInput dataType (ITypeValueInput type value) wrapOptions
           = mismatch type))
    /\ (forall type,
          (forall length, ~ BytesAnnotation type length) ->
          Bytes.bytesFromTypeValueInput dataType (ITypeValueInput type value) wrapOptions
          = mismatch type).
Proof.
  intros dataType value wrapOptions mismatch. split.
  - intros type length Ha.
    destruct (bytesAnnotation_complete _ _ Ha) as [Hm Hl].
    unfold Bytes.bytesFromTypeValueInput. cbn [Utils.isTypeValueInput].
    rewrite Hm, Hl. cbn [negb]. split.
    + intros Heq. apply lengthMatches_iff in Heq. now rewrite Heq.
    + intros Hne.
      destruct (Bytes.lengthMatches length dataType) eqn:E; [| reflexivity].
      apply lengthMatches_iff in E. contradiction.
  - intros type Hnone.
    unfold Bytes.bytesFromTypeValueInput. cbn [Utils.isTypeValueInput].
    destruct (Bytes.matchesByteType type) eqn:Hm; [| reflexivity].
    destruct (bytesAnnotation_sound _ Hm) as [length Ha].
    exfalso. exact (Hnone _ Ha).
Qed.

Lemma bytesFromTypeValueInput_annotation_witness :
  let wrapOptions := {| name := "data"; loose := false |} in
  let relaxed := {| name := "data"; loose := true |} in
  let mismatch dataType type :=
    throwMismatch (Req := never) (A := BytesValue)
      (BytesT dataType) (ITypeValueInput type (IString "0x01"))
      "data" 5 (specifiedTypeMessage type) in
  Bytes.bytesFromTypeValueInput (BytesTypeStatic 32)
    (ITypeValueInput "bytes032" (IString "0x01")) wrapOptions
  = wrapWithCases (BytesTypeStatic 32) (IString "0x01") relaxed Bytes.bytesCasesBasic
  /\ Bytes.bytesFromTypeValueInput (BytesTypeStatic 1)
       (ITypeValueInput "byte" (IString "0x01")) wrapOptions
     = wrapWithCases (BytesTypeStatic 1) (IString "0x01") relaxed Bytes.bytesCasesBasic
  /\ Bytes.bytesFromTypeValueInput (BytesTypeStatic 2)
       (ITypeValueInput "bytes" (IString "0x01")) wrapOptions
     = mismatch (BytesTypeStatic 2) "bytes"
  /\ Bytes.bytesFromTypeValueInput BytesTypeDynamic
       (ITypeValueInput "string" (IString "0x01")) wrapOptions
     = mismatch BytesTypeDynamic "string".
Proof.
  intros wrapOptions relaxed mismatch. repeat apply conj.
  - apply (proj1 (proj1 (bytesFromTypeValueInput_annotation
                           (BytesTypeStatic 32) (IString "0x01") wrapOptions)
                    _ _ (BytesAnnotation_static "032" eq_refl ltac:(discriminate)))).
    reflexivity.
  - apply (proj1 (proj1 (bytesFromTypeValueInput_annotation
                           (BytesTypeStatic 1) (IString "0x01") wrapOptions)
                    _ _ BytesAnnotation_byte)).
    reflexivity.
  - apply (proj2 (proj1 (bytesFromTypeValueInput_annotation
                           (BytesTypeStatic 2) (IString "0x01") wrapOptions)
                    _ _ BytesAnnotation_dynamic)).
    discriminate.
  - apply (proj2 (bytesFromTypeValueInput_annotation
                    BytesTypeDynamic (IString "0x01") wrapOptions) "string").
    intros length H. inversion H.
Defined.

(** ** Byte-array-like inputs *)

Lemma lt_of_Z (d : Big.t) (k : Z) :
  Big.lt d (Big.of_Z k) = (Big.unscaled d <? k * Big.pow10 (Big.scale d)).
Proof.
  unfold Big.lt, Big.cmp, Big.of_Z. cbn [Big.unscaled Big.scale].
  change (Big.pow10 0) with 1. rewrite Z.mul_1_r. reflexivity.
Qed.

Lemma fractionDigits_multiple (s : nat) : forall z,
  Big.fractionDigits (z * Big.pow10 s) s = O.
Proof.
  induction s as [| s IH]; intros z; [reflexivity |].
  cbn [Big.fractionDigits]. rewrite pow10_S.
  replace (z * (10 * Big.pow10 s)) with (z * Big.pow10 s * 10) by ring.
  rewrite Z.mod_mul by lia. rewrite Z.div_mul by lia. simpl. apply IH.
Qed.

Lemma fractionDigits_zero_inv u s :
  Big.fractionDigits u s = O -> exists z, u = z * Big.pow10 s.
Proof.
  intros H.
  assert (Hle : (Big.fractionDigits u s <= 0)%nat) by lia.
  destruct (fractionDigits_divide _ _ _ Hle) as [z Hz].
  exists z. change (Big.pow10 0) with 1 in Hz. lia.
Qed.

(** The test of the loop passes exactly on the numbers that are bytes. *)
Lemma notAByte_false_iff (e : Element) :
  Bytes.notAByte e = false <-> exists z, isByte e z.
Proof.
  split.
  - destruct e as [n |]; [| discriminate]. cbn [Bytes.notAByte]. intros H.
    apply orb_false_iff in H. destruct H as [H Hint].
    apply orb_false_iff in H. destruct H as [Hlt Hge].
    destruct n as [| negative | d]; try discriminate.
    cbn [JS.ltZ JS.geZ JS.isInteger] in *.
    apply negb_false_iff in Hint, Hge. apply Nat.eqb_eq in Hint.
    destruct (fractionDigits_zero_inv _ _ Hint) as [z Hz].
    rewrite lt_of_Z in Hlt, Hge.
    pose proof (pow10_pos (Big.scale d)) as Hp.
    apply Z.ltb_ge in Hlt. apply Z.ltb_lt in Hge.
    exists z, d. repeat split; [exact Hz | nia | nia].
  - intros [z [d [-> [Hu [Hlo Hhi]]]]].
    pose proof (pow10_pos (Big.scale d)) as Hp.
    cbn [Bytes.notAByte JS.ltZ JS.geZ JS.isInteger].
    rewrite !lt_of_Z, Hu, fractionDigits_multiple.
    replace (z * Big.pow10 (Big.scale d) <? 0 * Big.pow10 (Big.scale d)) with false
      by (symmetry; apply Z.ltb_ge; nia).
    replace (z * Big.pow10 (Big.scale d) <? 256 * Big.pow10 (Big.scale d)) with true
      by (symmetry; apply Z.ltb_lt; nia).
    reflexivity.
Qed.

Lemma checkElements_ok input dataType name elements remaining : forall index,
  Bytes.checkElements input dataType name elements remaining index = Ok tt
  <-> forall i, (index <= i < index + remaining)%nat ->
                Bytes.notAByte (nth i elements ENotANumber) = false.
Proof.
  induction remaining as [| remaining IH]; intros index; cbn [Bytes.checkElements].
  - split; [intros _ i Hi; lia | reflexivity].
  - destruct (Bytes.notAByte (nth index elements ENotANumber)) eqn:E.
    + split; [discriminate |]. intros H.
      rewrite (H index) in E by lia. discriminate.
    + rewrite IH. split; intros H i Hi.
      * destruct (Nat.eq_dec i index) as [-> | Hne]; [exact E | apply H; lia].
      * apply H. lia.
Qed.

Lemma checkElements_first input dataType name elements i : forall remaining index,
  (index <= i < index + remaining)%nat ->
  Bytes.notAByte (nth i elements ENotANumber) = true ->
  (forall j, (index <= j < i)%nat ->
             Bytes.notAByte (nth j elements ENotANumber) = false) ->
  Bytes.checkElements input dataType name elements remaining index
  = raiseMismatch dataType (IUint8ArrayLike input) name 5
      (LiteralWithIndex "Input is byte-array-like, but byte " i
         " is not a 1-byte value (number from 0 to 255)").
Proof.
  induction remaining as [| remaining IH]; intros index Hi Hbad Hgood; [lia |].
  cbn [Bytes.checkElements].
  destruct (Nat.eq_dec i index) as [-> | Hne].
  - now rewrite Hbad.
  - rewrite (Hgood index) by lia. apply IH; [lia | exact Hbad |].
    intros j Hj. apply Hgood. lia.
Qed.

Lemma lengthOf_integer (length : JS.Number) (n : nat) :
  isInteger length (Z.of_nat n) -> Bytes.lengthOf length = n.
Proof.
  intros [d [-> Hu]]. cbn [Bytes.lengthOf]. rewrite Hu.
  rewrite Z.div_mul by (pose proof (pow10_pos (Big.scale d)); lia).
  apply Nat2Z.id.
Qed.

(** X4. The check of byte-array-like inputs: an honest Uint8Array passes
    unchecked; any other array-like passes exactly when its length is a
    safe integer that is not negative and every element below the length
    is a number that is an integer from 0 to 255; when an element fails,
    the Mismatch, of specificity 5, names the first index that does.  An
    array-like whose length is the integer [n] has its first [n] elements
    checked. *)
Theorem validateUint8ArrayLike_checks_every_byte :
  forall dataType name,
    (forall contents,
        Bytes.validateUint8ArrayLike (Uint8Array contents) dataType name = Ok tt)
    /\ (forall length elements,
          Bytes.validateUint8ArrayLike (ArrayLike length elements) dataType name = Ok tt
          <-> JS.isSafeInteger length = true /\ JS.ltZ length 0 = false
              /\ forall i, (i < Bytes.lengthOf length)%nat ->
                           exists z, isByte (nth i elements ENotANumber) z)
    /\ (forall length elements i,
          JS.isSafeInteger length = true -> JS.ltZ length 0 = false ->
          (i < Bytes.lengthOf length)%nat ->
          (~ exists z, isByte (nth i elements ENotANumber) z) ->
          (forall j, (j < i)%nat -> exists z, isByte (nth j elements ENotANumber) z) ->
          Bytes.validateUint8ArrayLike (ArrayLike length elements) dataType name
          = raiseMismatch dataType (IUint8ArrayLike (ArrayLike length elements)) name 5
              (LiteralWithIndex "Input is byte-array-like, but byte " i
                 " is not a 1-byte value (number from 0 to 255)"))
    /\ (forall length n, isInteger length (Z.of_nat n) -> Bytes.lengthOf length = n).
Proof.
  intros dataType name. repeat apply conj.
  - reflexivity.
  - intros length elements. cbn [Bytes.validateUint8ArrayLike].
    destruct (JS.isSafeInteger length); cbn [negb];
      [| split; [discriminate | intros [H _]; discriminate]].
    destruct (JS.ltZ length 0);
      [split; [discriminate | intros [_ [H _]]; discriminate] |].
    rewrite checkElements_ok. split.
    + intros H. repeat split. intros i Hi. apply notAByte_false_iff. apply H. lia.
    + intros [_ [_ H]] i Hi. apply notAByte_false_iff. apply H. lia.
  - intros length elements i Hsafe Hneg Hi Hbad Hgood.
    cbn [Bytes.validateUint8ArrayLike]. rewrite Hsafe, Hneg. cbn [negb].
    apply checkElements_first; [lia | |].
    + destruct (Bytes.notAByte (nth i elements ENotANumber)) eqn:E; [reflexivity |].
      exfalso. apply Hbad. now apply notAByte_false_iff.
    + intros j Hj. apply notAByte_false_iff. apply Hgood. lia.
  - apply lengthOf_integer.
Qed.

Lemma validateUint8ArrayLike_checks_every_byte_witness :
  let two := JS.Finite (Big.of_Z 2) in
  let byte k := ENumber (JS.Finite (Big.of_Z k)) in
  Bytes.validateUint8ArrayLike (ArrayLike two [byte 1; byte 256]) (BytesT BytesTypeDynamic)
    "data"
  = raiseMismatch (BytesT BytesTypeDynamic)
      (IUint8ArrayLike (ArrayLike two [byte 1; byte 256])) "data" 5
      (LiteralWithIndex "Input is byte-array-like, but byte " 1
         " is not a 1-byte value (number from 0 to 255)")
  /\ Bytes.lengthOf two = 2%nat.
Proof.
  intros two byte.
  destruct (validateUint8ArrayLike_checks_every_byte (BytesT BytesTypeDynamic) "data")
    as [_ [_ [Hfirst Hlength]]].
  split.
  - apply Hfirst; [reflexivity | reflexivity | vm_compute; lia | |].
    + intros [z [d [Hd [Hu [Hlo Hhi]]]]].
      injection Hd as <-.
      cbn [Big.of_Z Big.unscaled Big.scale] in Hu.
      change (Big.pow10 0) with 1 in Hu. lia.
    + intros j Hj. assert (j = 0%nat) as -> by lia.
      exists 1, (Big.of_Z 1). repeat split; lia.
  - apply Hlength. exists (Big.of_Z 2). split; reflexivity.
Defined.

Lemma to_N_byteOfN (n : N) : (n < 256)%N -> Byte.to_N (Conversion.byteOfN n) = n.
Proof.
  intros H. unfold Conversion.byteOfN. rewrite N.mod_small by exact H.
  destruct (Byte.of_N n) as [b |] eqn:E.
  - now apply Byte.to_of_N.
  - apply Byte.of_N_None_iff in E. lia.
Qed.

(** [new Uint8Array] on an array-like reads as many elements as the length
    says, and a byte element gives that byte. *)
Lemma newUint8Array_length length elements :
  List.length (Bytes.newUint8Array (ArrayLike length elements)) = Bytes.lengthOf length.
Proof. cbn [Bytes.newUint8Array]. now rewrite length_map, length_seq. Qed.

Lemma newUint8Array_nth length elements i z :
  (i < Bytes.lengthOf length)%nat ->
  isByte (nth i elements ENotANumber) z ->
  Byte.to_N (nth i (Bytes.newUint8Array (ArrayLike length elements)) x00) = Z.to_N z.
Proof.
  cbn [Bytes.newUint8Array]. intros Hi [d [He [Hu [Hlo Hhi]]]].
  set (f := fun index => Bytes.toUint8 (nth index elements ENotANumber)).
  rewrite (nth_indep _ x00 (f O)) by now rewrite length_map, length_seq.
  rewrite map_nth, seq_nth by exact Hi. unfold f. cbn [Nat.add].
  rewrite He. cbn [Bytes.toUint8]. rewrite Hu.
  rewrite Z.quot_mul by (pose proof (pow10_pos (Big.scale d)); lia).
  rewrite Z.mod_small by lia.
  apply to_N_byteOfN. lia.
Qed.

(** X5. The byte-array case writes the elements in order.  An array-like
    whose length is a safe integer, the number of the bytes [zs], and whose
    elements up to that length are the bytes [zs], passes the check and is
    read as those bytes: for the dynamic type the case returns "0x" and two
    hex digits for each of them, in order, and for a static type with room
    for them the same followed by zeros up to the length of the type.
    Elements past the length are not read. *)
Theorem bytesFromUint8ArrayLike_writes_the_elements :
  forall length elements (zs : list Z) wrapOptions,
    JS.isSafeInteger length = true ->
    isInteger length (Z.of_nat (List.length zs)) ->
    (forall i, (i < List.length zs)%nat ->
               isByte (nth i elements ENotANumber) (nth i zs 0)) ->
    let input := IUint8ArrayLike (ArrayLike length elements) in
    exists bytes,
      map Byte.to_N bytes = map Z.to_N zs
      /\ Bytes.bytesFromUint8ArrayLike BytesTypeDynamic input wrapOptions
         = Return {| bytesType := BytesTypeDynamic;
                     asHex := Conversion.toHexString bytes |}
      /\ (forall size, (List.length zs <= size)%nat ->
            Bytes.bytesFromUint8ArrayLike (BytesTypeStatic size) input wrapOptions
            = Return {| bytesType := BytesTypeStatic size;
                        asHex := (Conversion.toHexString bytes
                                  ++ zeros (2 * (size - List.length zs)))%string |}).
Proof.
  intros length elements zs wrapOptions Hsafe Hint Hbytes input.
  pose proof (lengthOf_integer _ _ Hint) as Hlen.
  assert (Hcount : List.length (Bytes.newUint8Array (ArrayLike length elements))
                   = List.length zs)
    by (now rewrite newUint8Array_length).
  assert (Hcheck : forall dataType,
             Bytes.validateUint8ArrayLike (ArrayLike length elements) dataType
               (name wrapOptions) = Ok tt).
  { intros dataType. cbn [Bytes.validateUint8ArrayLike]. rewrite Hsafe. cbn [negb].
    destruct Hint as [d [-> Hu]]. cbn [JS.ltZ]. rewrite lt_of_Z, Hu.
    pose proof (pow10_pos (Big.scale d)) as Hpos.
    destruct (Z.ltb_spec (Z.of_nat (List.length zs) * Big.pow10 (Big.scale d))
                (0 * Big.pow10 (Big.scale d)));
      [nia |].
    apply checkElements_ok. intros i Hi. apply notAByte_false_iff.
    exists (nth i zs 0). apply Hbytes. lia. }
  exists (Bytes.newUint8Array (ArrayLike length elements)). split; [| split].
  - apply (nth_ext _ _ (Byte.to_N x00) (Z.to_N 0)).
    + now rewrite !length_map.
    + intros i Hi. rewrite length_map, Hcount in Hi. rewrite !map_nth.
      apply newUint8Array_nth; [lia | now apply Hbytes].
  - unfold Bytes.bytesFromUint8ArrayLike, input. cbn [Utils.isUint8ArrayLike].
    rewrite Hcheck. cbn [call]. cbv zeta. unfold Bytes.validateAndPad.
    cbn [call]. now rewrite toLowerCase_toHexString.
  - intros size Hroom.
    unfold Bytes.bytesFromUint8ArrayLike, input. cbn [Utils.isUint8ArrayLike].
    rewrite Hcheck. cbn [call]. cbv zeta.
    rewrite validateAndPad_static, length_toHexString, Hcount.
    destruct (Nat.ltb_spec (2 * size + 2) (2 * List.length zs + 2)); [lia |].
    cbn [call]. rewrite toLowerCase_toHexString.
    replace (2 * size + 2 - (2 * List.length zs + 2))%nat
      with (2 * (size - List.length zs))%nat by lia.
    reflexivity.
Qed.

Lemma bytesFromUint8ArrayLike_writes_the_elements_witness :
  let byte k := ENumber (JS.Finite (Big.of_Z k)) in
  let input :=
    IUint8ArrayLike (ArrayLike (JS.Finite (Big.of_Z 2)) [byte 7; byte 255; byte 9]) in
  let wrapOptions := {| name := "data"; loose := false |} in
  Bytes.bytesFromUint8ArrayLike BytesTypeDynamic input wrapOptions
  = Return {| bytesType := BytesTypeDynamic; asHex := "0x07ff" |}
  /\ Bytes.bytesFromUint8ArrayLike (BytesTypeStatic 4) input wrapOptions
     = Return {| bytesType := BytesTypeStatic 4; asHex := "0x07ff0000" |}.
Proof.
  intros byte input wrapOptions.
  destruct (bytesFromUint8ArrayLike_writes_the_elements
              (JS.Finite (Big.of_Z 2)) [byte 7; byte 255; byte 9] [7; 255] wrapOptions)
    as [bytes [Hmap [Hdynamic Hstatic]]].
  - reflexivity.
  - exists (Big.of_Z 2). split; reflexivity.
  - intros i Hi. simpl in Hi.
    destruct i as [| [| i]]; [| | lia]; cbn [nth].
    + exists (Big.of_Z 7). repeat split; lia.
    + exists (Big.of_Z 255). repeat split; lia.
  - assert (Hbytes : bytes = [x07; xff]).
    { destruct bytes as [| b1 [| b2 [| b3 bytes]]]; try discriminate Hmap.
      cbn [map] in Hmap. injection Hmap as H1 H2.
      pose proof (Byte.of_to_N b1) as E1. rewrite H1 in E1.
      pose proof (Byte.of_to_N b2) as E2. rewrite H2 in E2.
      vm_compute in E1, E2. congruence. }
    subst bytes. split.
    + exact Hdynamic.
    + exact (Hstatic 4%nat ltac:(simpl; lia)).
Defined.

(** ** How a run of the engine ends *)

Section EngineThrows.
Context {T V Req : Type}.
Variables (dataType : T) (input : Input) (wrapOptions : WrapOptions).

(** An error thrown by the engine was thrown by one of its cases, in a run
    whose requests are among those of the whole run, or had been recorded
    before. *)
Lemma wrapFrom_thrown_inv : forall (cases : list (Case T V Req)) recorded trace err,
  Runs (wrapFrom dataType input wrapOptions cases recorded) trace (Thrown err) ->
  (exists caseFn trace',
      In caseFn cases
      /\ Runs (caseFn dataType input wrapOptions) trace' (Thrown err)
      /\ incl trace' trace)
  \/ (exists e, err = Mismatch e /\ In e recorded)
  \/ (err = ThrownUndefined /\ recorded = [] /\ cases = []).
Proof.
  induction cases as [| caseFn rest IH]; intros recorded trace err H.
  - cbn [wrapFrom] in H. destruct (selectError recorded) as [e |] eqn:E.
    + inversion H; subst. right; left. exists e. split; [reflexivity |].
      destruct (selectError_spec _ _ E) as [i [Hi _]].
      exact (nth_error_In _ _ Hi).
    + inversion H; subst. right; right. repeat split.
      destruct recorded as [| e recorded]; [reflexivity |].
      exfalso. exact (selectError_nonempty _ _ E).
  - cbn [wrapFrom] in H. apply tryCase_inv in H.
    destruct H as [[v [Hv _]] | [[e [Hf [He Hr]]] | [e [t1 [t2 [-> [H1 Hn]]]]]]].
    + discriminate.
    + inversion He; subst. left. exists caseFn, trace.
      repeat split; [now left | exact Hr | apply incl_refl].
    + destruct (IH _ _ _ Hn) as [[c [tr [Hin [Hc Hincl]]]] | [[e' [-> He']] | [_ [Hnil _]]]].
      * left. exists c, tr. repeat split; [now right | exact Hc |].
        now apply incl_appr.
      * apply in_app_or in He'. destruct He' as [He' | [<- | []]].
        -- right; left. now exists e'.
        -- left. exists caseFn, t1. repeat split; [now left | exact H1 |].
           apply incl_appl, incl_refl.
      * destruct recorded; discriminate.
Qed.

(** When the last case can only fail with a specificity of [floor] or
    more, so does the engine. *)
Lemma wrapFrom_floor (last : Case T V Req) (floor : nat) :
  (forall trace e, Runs (last dataType input wrapOptions) trace (Thrown (Mismatch e)) ->
                   (floor <= specificity e)%nat) ->
  forall (cases : list (Case T V Req)) recorded trace e,
    Runs (wrapFrom dataType input wrapOptions (cases ++ [last]) recorded) trace
         (Thrown (Mismatch e)) ->
    (floor <= specificity e)%nat.
Proof.
  intros Hlast cases.
  induction cases as [| caseFn rest IH]; intros recorded trace e H.
  - cbn [app wrapFrom] in H. apply tryCase_inv in H.
    destruct H as [[v [Hv _]] | [[e' [Hf [He _]]] | [e0 [t1 [t2 [-> [H1 Hn]]]]]]].
    + discriminate.
    + inversion He; subst. contradiction.
    + destruct (selectError (recorded ++ [e0])) as [best |] eqn:E; inversion Hn; subst.
      destruct (selectError_spec _ _ E) as [i [_ [Hmax _]]].
      assert (Hin : In e0 (recorded ++ [e0])) by (apply in_or_app; right; now left).
      destruct (In_nth_error _ _ Hin) as [j Hj].
      specialize (Hmax _ _ Hj). specialize (Hlast _ _ H1). lia.
  - cbn [app wrapFrom] in H. apply tryCase_inv in H.
    destruct H as [[v [Hv _]] | [[e' [Hf [He _]]] | [e0 [t1 [t2 [-> [H1 Hn]]]]]]].
    + discriminate.
    + inversion He; subst. contradiction.
    + exact (IH _ _ _ Hn).
Qed.

(** The requests of a run are those of its cases, and are no more than the
    cases can make together. *)
Lemma wrapFrom_trace_In : forall (cases : list (Case T V Req)) recorded trace o,
  Runs (wrapFrom dataType input wrapOptions cases recorded) trace o ->
  forall x, In x trace ->
    exists caseFn trace' o',
      In caseFn cases
      /\ Runs (caseFn dataType input wrapOptions) trace' o' /\ In x trace'.
Proof.
  induction cases as [| caseFn rest IH]; intros recorded trace o H x Hx.
  - cbn [wrapFrom] in H. destruct (selectError recorded); inversion H; subst; contradiction.
  - cbn [wrapFrom] in H. apply tryCase_inv in H.
    destruct H as [[v [-> Hr]] | [[e [Hf [-> Hr]]] | [e [t1 [t2 [-> [H1 Hn]]]]]]].
    + exists caseFn, trace, (Returned v). repeat split; [now left | exact Hr | exact Hx].
    + exists caseFn, trace, (Thrown e). repeat split; [now left | exact Hr | exact Hx].
    + apply in_app_or in Hx. destruct Hx as [Hx | Hx].
      * exists caseFn, t1, (Thrown (Mismatch e)).
        repeat split; [now left | exact H1 | exact Hx].
      * destruct (IH _ _ _ Hn x Hx) as [c [tr [o' [Hin [Hc Hxc]]]]].
        exists c, tr, o'. repeat split; [now right | exact Hc | exact Hxc].
Qed.

Lemma wrapFrom_trace_bound : forall (cases : list (Case T V Req)) bounds,
  Forall2 (fun caseFn bound =>
             forall trace o, Runs (caseFn dataType input wrapOptions) trace o ->
                             (List.length trace <= bound)%nat) cases bounds ->
  forall recorded trace o,
    Runs (wrapFrom dataType input wrapOptions cases recorded) trace o ->
    (List.length trace <= list_sum bounds)%nat.
Proof.
  induction 1 as [| caseFn bound cases bounds Hb Hall IH]; intros recorded trace o H.
  - cbn [wrapFrom] in H. destruct (selectError recorded); inversion H; simpl; lia.
  - cbn [wrapFrom] in H. apply tryCase_inv in H. cbn [list_sum fold_right].
    destruct H as [[v [-> Hr]] | [[e [Hf [-> Hr]]] | [e [t1 [t2 [-> [H1 Hn]]]]]]].
    + specialize (Hb _ _ Hr). lia.
    + specialize (Hb _ _ Hr). lia.
    + specialize (Hb _ _ H1). specialize (IH _ _ _ Hn).
      rewrite length_app. fold (list_sum bounds). lia.
Qed.

End EngineThrows.

(** A generator that cannot make a request has returned or thrown. *)
Lemma never_yields {A : Type} (g : Gen never A) :
  (exists a, g = Return a) \/ (exists e, g = Throw e).
Proof.
  destruct g as [a | e | request resume]; [left; now exists a | right; now exists e |].
  destruct request.
Qed.

(** ** How the bytes cases fail *)

Lemma validateAndPad_raise_inv dataType asHex input name err :
  Bytes.validateAndPad dataType asHex input name = Raise err ->
  exists e, err = Mismatch e /\ describes (BytesT dataType) name e.
Proof.
  destruct dataType as [length |]; [| discriminate].
  rewrite validateAndPad_static.
  destruct (2 * length + 2 <? String.length asHex)%nat; [| discriminate].
  intros H. inversion H; subst.
  eexists. split; [reflexivity |]. unfold describes. simpl. repeat split; lia.
Qed.

Lemma checkElements_raise_inv input dataType name elements remaining : forall index err,
  Bytes.checkElements input dataType name elements remaining index = Raise err ->
  exists e, err = Mismatch e /\ describes dataType name e.
Proof.
  induction remaining as [| remaining IH]; intros index err; cbn [Bytes.checkElements];
    [discriminate |].
  destruct (Bytes.notAByte (nth index elements ENotANumber)); [| apply IH].
  intros H. inversion H; subst.
  eexists. split; [reflexivity |]. unfold describes. simpl. repeat split; lia.
Qed.

Lemma validateUint8ArrayLike_raise_inv input dataType name err :
  Bytes.validateUint8ArrayLike input dataType name = Raise err ->
  exists e, err = Mismatch e /\ describes dataType name e.
Proof.
  destruct input as [contents | length elements]; cbn [Bytes.validateUint8ArrayLike];
    [discriminate |].
  destruct (negb (JS.isSafeInteger length)).
  - intros H. inversion H; subst.
    eexists. split; [reflexivity |]. unfold describes. simpl. repeat split; lia.
  - destruct (JS.ltZ length 0); [| apply checkElements_raise_inv].
    intros H. inversion H; subst.
    eexists. split; [reflexivity |]. unfold describes. simpl. repeat split; lia.
Qed.

(** Take a run apart along the branches of the case, down to its end. *)
Ltac run_cases H :=
  repeat match type of H with
    | Runs (call ?x _) _ _ => destruct x eqn:?; cbn [call] in H
    | Runs (match ?x with _ => _ end) _ _ => destruct x eqn:?; simpl in H
    | Runs (if ?b then _ else _) _ _ => destruct b eqn:?; simpl in H
    end.

Ltac thrown_described H :=
  unfold throwMismatch in H; inversion H; subst; clear H;
  first
    [ discriminate
    | match goal with
      | E : Thrown _ = Thrown _ |- _ => inversion E; subst; clear E
      end
    | idtac ];
  first
    [ eexists; split; [reflexivity |]; unfold describes; simpl; repeat split; lia
    | match goal with
      | E : Bytes.validateAndPad _ _ _ _ = Raise _ |- _ =>
          exact (validateAndPad_raise_inv _ _ _ _ _ E)
      | E : Bytes.validateUint8ArrayLike _ _ _ = Raise _ |- _ =>
          exact (validateUint8ArrayLike_raise_inv _ _ _ _ E)
      end ].

Lemma bytesCasesBasic_thrown caseFn dataType input wrapOptions trace err :
  In caseFn Bytes.bytesCasesBasic ->
  Runs (caseFn dataType input wrapOptions) trace (Thrown err) ->
  exists e, err = Mismatch e /\ describes (BytesT dataType) (name wrapOptions) e.
Proof.
  unfold Bytes.bytesCasesBasic. simpl. intros Hin H.
  repeat (destruct Hin as [<- | Hin]); try contradiction.
  - unfold Bytes.bytesFromHexString in H. run_cases H; thrown_described H.
  - unfold Bytes.bytesFromBoxedString, Bytes.bytesFromHexString in H.
    run_cases H; thrown_described H.
  - unfold Bytes.bytesFromUint8ArrayLike in H. run_cases H; thrown_described H.
  - unfold Bytes.bytesFromBytesValue in H. run_cases H; thrown_described H.
  - unfold Bytes.bytesFromEncodingTextInput in H. run_cases H; thrown_described H.
  - unfold Bytes.bytesFailureCase in H. thrown_described H.
Qed.

Lemma bytesCases_thrown caseFn dataType input wrapOptions trace err :
  In caseFn Bytes.bytesCases ->
  Runs (caseFn dataType input wrapOptions) trace (Thrown err) ->
  exists e, err = Mismatch e /\ describes (BytesT dataType) (name wrapOptions) e.
Proof.
  intros [<- | Hin] H; [| exact (bytesCasesBasic_thrown _ _ _ _ _ _ Hin H)].
  unfold Bytes.bytesFromTypeValueInput in H.
  destruct (Utils.isTypeValueInput input) as [[type value] |]; [| thrown_described H].
  destruct (negb (Bytes.matchesByteType type)); [thrown_described H |].
  destruct (negb (Bytes.lengthMatches (Bytes.specifiedLength type) dataType));
    [thrown_described H |].
  apply wrapFrom_thrown_inv in H.
  destruct H as [[c [tr [Hin [Hc _]]]] | [[e [_ []]] | [_ [_ Hnil]]]].
  - exact (bytesCasesBasic_thrown _ _ _ _ _ _ Hin Hc).
  - discriminate Hnil.
Qed.

(** X6. A run of the bytes list on any input ends without a request, in a
    value of the target type or in a Mismatch that names the target type
    and the argument; thanks to the catch-all case the specificity of that
    Mismatch is never below 2. *)
Theorem bytes_run_ends_in_value_or_mismatch :
  forall dataType input wrapOptions,
    (exists v,
        wrapWithCases dataType input wrapOptions Bytes.bytesCases = Return v
        /\ bytesType v = dataType)
    \/ (exists e,
        wrapWithCases dataType input wrapOptions Bytes.bytesCases = Throw (Mismatch e)
        /\ errorType e = BytesT dataType
        /\ argumentName e = name wrapOptions
        /\ (2 <= specificity e <= 5)%nat).
Proof.
  intros dataType input wrapOptions.
  destruct (never_yields (wrapWithCases dataType input wrapOptions Bytes.bytesCases))
    as [[v Hv] | [err He]].
  - left. exists v. split; [exact Hv |].
    assert (Hrun : Runs (wrapWithCases dataType input wrapOptions Bytes.bytesCases)
                        [] (Returned v)) by (rewrite Hv; constructor).
    apply wrapWithCases_returned_inv in Hrun.
    destruct Hrun as [caseFn [trace [Hin Hc]]].
    exact (proj1 (bytesCases_returns _ _ _ _ _ _ Hin Hc)).
  - right.
    assert (Hrun : Runs (wrapWithCases dataType input wrapOptions Bytes.bytesCases)
                        [] (Thrown err)) by (rewrite He; constructor).
    pose proof Hrun as Hinv. apply wrapFrom_thrown_inv in Hinv.
    destruct Hinv as [[c [tr [Hin [Hc _]]]] | [[e [_ []]] | [_ [_ Hnil]]]];
      [| discriminate Hnil].
    destruct (bytesCases_thrown _ _ _ _ _ _ Hin Hc) as [e [-> [Ht [Hn [Hlo Hhi]]]]].
    exists e. repeat split; try assumption.
    apply (wrapFrom_floor dataType input wrapOptions Bytes.bytesFailureCase 2)
      with (cases := [ Bytes.bytesFromTypeValueInput; Bytes.bytesFromHexString;
                       Bytes.bytesFromBoxedString; Bytes.bytesFromUint8ArrayLike;
                       Bytes.bytesFromBytesValue; Bytes.bytesFromEncodingTextInput ])
           (recorded := []) (trace := []).
    + intros trace e0 H0. unfold Bytes.bytesFailureCase, throwMismatch in H0.
      inversion H0; subst. simpl. lia.
    + exact Hrun.
Qed.

(** ** How the decimal cases fail, and what they ask *)

Lemma validate_raise_inv dataType asBig input name err :
  Decimal.validate dataType asBig input name = Raise err ->
  exists e, err = Mismatch e /\ describes (DecimalT dataType) name e
            /\ specificity e = 5%nat.
Proof.
  unfold Decimal.validate, raiseMismatch.
  destruct (places dataType <? Conversion.countDecimalPlaces asBig)%nat.
  - intros H. inversion H; subst.
    eexists. split; [reflexivity |]. unfold describes. simpl. repeat split; lia.
  - destruct (Big.gt asBig (Utils.maxValue dataType)
              || Big.lt asBig (Utils.minValue dataType)); [| discriminate].
    intros H. inversion H; subst.
    eexists. split; [reflexivity |]. unfold describes. simpl. repeat split; lia.
Qed.

Ltac settled H :=
  unfold throwMismatch in H; inversion H; subst; clear H;
  split; [reflexivity |];
  let err := fresh "err" in
  let Herr := fresh "Herr" in
  intros err Herr; inversion Herr; subst; clear Herr;
  first
    [ eexists; split; [reflexivity |]; unfold describes; simpl; repeat split; lia
    | match goal with
      | E : Decimal.validate _ _ _ _ = Raise _ |- _ =>
          destruct (validate_raise_inv _ _ _ _ _ E) as [? [? [? _]]];
          eexists; split; eassumption
      end ].

(** The cases that make no request: every run of theirs is without one,
    and what they throw is a Mismatch that names the target type and the
    argument. *)
Lemma decimal_cases_without_request {Req : Type}
    (caseFn : Case DecimalType DecimalValue Req) dataType input wrapOptions trace o :
  In caseFn [ Decimal.decimalFromNumber; Decimal.decimalFromString;
              Decimal.decimalFromBoxedNumber; Decimal.decimalFromBoxedString;
              Decimal.decimalFromBigint; Decimal.decimalFromBN;
              Decimal.decimalFromBig; Decimal.decimalFromDecimalValue;
              Decimal.decimalFromIntegerValue; Decimal.decimalFromEnumValue;
              Decimal.decimalFromEnumError ] ->
  Runs (caseFn dataType input wrapOptions) trace o ->
  trace = []
  /\ forall err, o = Thrown err ->
       exists e, err = Mismatch e
                 /\ describes (DecimalT dataType) (name wrapOptions) e.
Proof.
  simpl. intros Hin H.
  repeat (destruct Hin as [<- | Hin]); try contradiction;
    unfold Decimal.decimalFromBoxedNumber, Decimal.decimalFromBoxedString,
           Decimal.decimalFromNumber, Decimal.decimalFromString,
           Decimal.decimalFromBigint, Decimal.decimalFromBN, Decimal.decimalFromBig,
           Decimal.decimalFromDecimalValue, Decimal.decimalFromIntegerValue,
           Decimal.decimalFromEnumValue, Decimal.decimalFromEnumError in H;
    run_cases H; settled H.
Qed.

(** The fallback case: one request for the input; it throws a Mismatch of
    specificity 3 or 5, or the protocol error on a response of another
    kind. *)
Lemma decimalFromOther_run dataType input wrapOptions trace o :
  Runs (Decimal.decimalFromOther dataType input wrapOptions) trace o ->
  exists response,
    trace = [({| request_kind := "decimal"; request_input := input |}, response)]
    /\ forall err, o = Thrown err ->
         (exists e, err = Mismatch e
                    /\ describes (DecimalT dataType) (name wrapOptions) e
                    /\ (3 <= specificity e)%nat)
         \/ (response = OtherWrapResponse
             /\ err = BadResponseTypeError
                        {| request_kind := "decimal"; request_input := input |}
                        OtherWrapResponse).
Proof.
  unfold Decimal.decimalFromOther. intros H.
  inversion H as [| | request resume response trace' o' Hresumed]; subst; clear H.
  exists response.
  destruct response as [[value |] reason partiallyRecognized |]; cbn in Hresumed.
  - destruct (Decimal.validate dataType (Big.plus value (Big.of_Z 0)) input
                (name wrapOptions)) as [[] | err0] eqn:E; cbn [call] in Hresumed;
      inversion Hresumed; subst; (split; [reflexivity |]);
      intros err Herr; inversion Herr; subst.
    left. destruct (validate_raise_inv _ _ _ _ _ E) as [e [-> [Hd Hs]]].
    exists e. split; [reflexivity |]. split; [exact Hd | lia].
  - unfold throwMismatch in Hresumed. inversion Hresumed; subst.
    split; [reflexivity |]. intros err Herr. inversion Herr; subst. left.
    eexists. split; [reflexivity |]. unfold describes. simpl.
    destruct partiallyRecognized as [[|] |]; simpl; repeat split; lia.
  - inversion Hresumed; subst. split; [reflexivity |].
    intros err Herr. inversion Herr; subst. right. split; reflexivity.
Qed.

(** What every case of the basic decimal list does. *)
Lemma decimalCasesBasic_run caseFn dataType input wrapOptions trace o :
  In caseFn Decimal.decimalCasesBasic ->
  Runs (caseFn dataType input wrapOptions) trace o ->
  (List.length trace <= 1)%nat
  /\ (forall request response,
        In (request, response) trace ->
        request = {| request_kind := "decimal"; request_input := input |})
  /\ forall err, o = Thrown err ->
       (exists e, err = Mismatch e
                  /\ describes (DecimalT dataType) (name wrapOptions) e)
       \/ (exists request, err = BadResponseTypeError request OtherWrapResponse
                           /\ In (request, OtherWrapResponse) trace).
Proof.
  unfold Decimal.decimalCasesBasic. intros Hin H.
  assert (Hsplit :
            In caseFn [ Decimal.decimalFromNumber; Decimal.decimalFromString;
                        Decimal.decimalFromBoxedNumber; Decimal.decimalFromBoxedString;
                        Decimal.decimalFromBigint; Decimal.decimalFromBN;
                        Decimal.decimalFromBig; Decimal.decimalFromDecimalValue;
                        Decimal.decimalFromIntegerValue; Decimal.decimalFromEnumValue;
                        Decimal.decimalFromEnumError ]
            \/ caseFn = Decimal.decimalFromOther).
  { simpl in Hin. simpl. intuition auto. }
  destruct Hsplit as [Hbasic | ->].
  - destruct (decimal_cases_without_request _ _ _ _ _ _ Hbasic H) as [-> Herr].
    repeat split; [simpl; lia | intros request response [] |].
    intros err He. left. now apply Herr.
  - destruct (decimalFromOther_run _ _ _ _ _ H) as [response [-> Herr]].
    repeat split; [simpl; lia | |].
    + intros request response' [Heq | []]. now inversion Heq.
    + intros err He. destruct (Herr err He) as [[e [-> [Hd _]]] | [-> ->]].
      * left. now exists e.
      * right. eexists. split; [reflexivity | now left].
Qed.

Lemma decimalCasesBasic_bounds dataType input wrapOptions :
  Forall2 (fun caseFn bound =>
             forall trace o, Runs (caseFn dataType input wrapOptions) trace o ->
                             (List.length trace <= bound)%nat)
          Decimal.decimalCasesBasic
          [0; 0; 0; 0; 0; 0; 0; 0; 0; 0; 0; 1]%nat.
Proof.
  unfold Decimal.decimalCasesBasic.
  repeat (apply Forall2_cons;
          [ intros trace o H;
            match type of H with
            | Runs (?caseFn _ _ _) _ _ =>
                first
                  [ assert (Hin : In caseFn
                              [ Decimal.decimalFromNumber; Decimal.decimalFromString;
                                Decimal.decimalFromBoxedNumber;
                                Decimal.decimalFromBoxedString;
                                Decimal.decimalFromBigint; Decimal.decimalFromBN;
                                Decimal.decimalFromBig; Decimal.decimalFromDecimalValue;
                                Decimal.decimalFromIntegerValue;
                                Decimal.decimalFromEnumValue;
                                Decimal.decimalFromEnumError ])
                      by (simpl; tauto);
                    destruct (decimal_cases_without_request _ _ _ _ _ _ Hin H) as [-> _];
                    simpl; lia
                  | destruct (decimalFromOther_run _ _ _ _ _ H) as [response [-> _]];
                    simpl; lia ]
            end
          |]).
  apply Forall2_nil.
Qed.

(** The type-annotated pair case: at most one request, and none when the
    input is not a pair; its request is for the value of the pair. *)
Lemma decimalFromTypeValueInput_run dataType input wrapOptions trace o :
  Runs (Decimal.decimalFromTypeValueInput dataType input wrapOptions) trace o ->
  (List.length trace <= 1)%nat
  /\ ((forall type value, input <> ITypeValueInput type value) -> trace = [])
  /\ (forall request response,
        In (request, response) trace ->
        exists type value,
          input = ITypeValueInput type value
          /\ request = {| request_kind := "decimal"; request_input := value |})
  /\ forall err, o = Thrown err ->
       (exists e, err = Mismatch e
                  /\ describes (DecimalT dataType) (name wrapOptions) e)
       \/ (exists request, err = BadResponseTypeError request OtherWrapResponse
                           /\ In (request, OtherWrapResponse) trace).
Proof.
  unfold Decimal.decimalFromTypeValueInput. intros H.
  assert (Hstop : forall specificity reason,
             Runs (throwMismatch (Req := DecimalWrapRequest) (A := DecimalValue)
                     (DecimalT dataType) input (name wrapOptions) specificity reason)
                  trace o ->
             (1 <= specificity <= 5)%nat ->
             (List.length trace <= 1)%nat
             /\ ((forall type value, input <> ITypeValueInput type value) -> trace = [])
             /\ (forall request response,
                   In (request, response) trace ->
                   exists type value,
                     input = ITypeValueInput type value
                     /\ request = {| request_kind := "decimal"; request_input := value |})
             /\ forall err, o = Thrown err ->
                  (exists e, err = Mismatch e
                             /\ describes (DecimalT dataType) (name wrapOptions) e)
                  \/ (exists request,
                        err = BadResponseTypeError request OtherWrapResponse
                        /\ In (request, OtherWrapResponse) trace)).
  { intros s r Hr Hs. unfold throwMismatch in Hr. inversion Hr; subst.
    repeat split; [simpl; lia | intros request response [] |].
    intros err He. inversion He; subst. left.
    eexists. split; [reflexivity |]. unfold describes. simpl. repeat split; lia. }
  destruct input as [| | | | | | | | | type value | |];
    cbn [Utils.isTypeValueInput] in H; try (apply (Hstop _ _ H); lia).
  destruct (Decimal.matchFixedType type) as [[[class bs] ps] |];
    [| apply (Hstop _ _ H); lia].
  match type of H with
  | Runs (if ?b then _ else _) _ _ => destruct b; [apply (Hstop _ _ H); lia |]
  end.
  clear Hstop. unfold wrapWithCases in H. split; [| split; [| split]].
  - apply (wrapFrom_trace_bound _ _ _ _ _ (decimalCasesBasic_bounds _ _ _)) in H.
    simpl in H. exact H.
  - intros Hnot. exfalso. now apply (Hnot type value).
  - intros request response Hin.
    destruct (wrapFrom_trace_In _ _ _ _ _ _ _ H _ Hin) as [c [tr [o' [Hc [Hrun Hx]]]]].
    exists type, value. split; [reflexivity |].
    exact (proj1 (proj2 (decimalCasesBasic_run _ _ _ _ _ _ Hc Hrun)) _ _ Hx).
  - intros err ->. apply wrapFrom_thrown_inv in H.
    destruct H as [[c [tr [Hc [Hrun Hincl]]]] | [[e [_ []]] | [_ [_ Hnil]]]];
      [| discriminate Hnil].
    destruct (proj2 (proj2 (decimalCasesBasic_run _ _ _ _ _ _ Hc Hrun)) _ eq_refl)
      as [Hm | [request [-> Hin]]].
    + left. exact Hm.
    + right. exists request. split; [reflexivity | now apply Hincl].
Qed.

(** X7. The requests of a run of the decimal list: at most two, and at
    most one when the input is not a type/value pair; each is of kind
    "decimal" and carries the input itself or, for a pair, its value. *)
Theorem decimal_run_requests :
  forall dataType input wrapOptions trace o,
    Runs (wrapWithCases dataType input wrapOptions Decimal.decimalCases) trace o ->
    (List.length trace <= 2)%nat
    /\ ((forall type value, input <> ITypeValueInput type value) ->
        (List.length trace <= 1)%nat)
    /\ forall request response,
         In (request, response) trace ->
         request_kind request = "decimal"
         /\ (request_input request = input
             \/ exists type, input = ITypeValueInput type (request_input request)).
Proof.
  intros dataType input wrapOptions trace o H. unfold wrapWithCases in H.
  split; [| split].
  - assert (Hb : Forall2 (fun caseFn bound =>
                   forall trace o, Runs (caseFn dataType input wrapOptions) trace o ->
                                   (List.length trace <= bound)%nat)
                   Decimal.decimalCases [1; 0; 0; 0; 0; 0; 0; 0; 0; 0; 0; 0; 1]%nat).
    { apply Forall2_cons; [| apply decimalCasesBasic_bounds].
      intros tr o' Hr. exact (proj1 (decimalFromTypeValueInput_run _ _ _ _ _ Hr)). }
    apply (wrapFrom_trace_bound _ _ _ _ _ Hb) in H. simpl in H. exact H.
  - intros Hnot.
    assert (Hb : Forall2 (fun caseFn bound =>
                   forall trace o, Runs (caseFn dataType input wrapOptions) trace o ->
                                   (List.length trace <= bound)%nat)
                   Decimal.decimalCases [0; 0; 0; 0; 0; 0; 0; 0; 0; 0; 0; 0; 1]%nat).
    { apply Forall2_cons; [| apply decimalCasesBasic_bounds].
      intros tr o' Hr.
      rewrite (proj1 (proj2 (decimalFromTypeValueInput_run _ _ _ _ _ Hr)) Hnot).
      simpl. lia. }
    apply (wrapFrom_trace_bound _ _ _ _ _ Hb) in H. simpl in H. exact H.
  - intros request response Hin.
    destruct (wrapFrom_trace_In _ _ _ _ _ _ _ H _ Hin) as [c [tr [o' [Hc [Hrun Hx]]]]].
    destruct Hc as [<- | Hc].
    + destruct (proj1 (proj2 (proj2 (decimalFromTypeValueInput_run _ _ _ _ _ Hrun)))
                  _ _ Hx) as [type [value [-> ->]]].
      split; [reflexivity |]. right. now exists type.
    + rewrite (proj1 (proj2 (decimalCasesBasic_run _ _ _ _ _ _ Hc Hrun)) _ _ Hx).
      split; [reflexivity | now left].
Qed.

Lemma decimal_run_requests_witness :
  let dataType := {| typeClass := fixed; bits := 128; places := 18 |} in
  let wrapOptions := {| name := "amount"; loose := false |} in
  let input := ITypeValueInput "fixed" IOther in
  let nothing := DecimalWrapResponse None None None in
  let inner := {| request_kind := "decimal"; request_input := IOther |} in
  let outer := {| request_kind := "decimal"; request_input := input |} in
  (List.length [(inner, nothing); (outer, nothing)] <= 2)%nat
  /\ request_kind inner = "decimal"
  /\ (request_input inner = input
      \/ exists type, input = ITypeValueInput type (request_input inner)).
Proof.
  intros dataType wrapOptions input nothing inner outer.
  assert (Hrun : exists o,
             Runs (wrapWithCases dataType input wrapOptions Decimal.decimalCases)
                  [(inner, nothing); (outer, nothing)] o).
  { eexists. apply Runs_Yield. apply Runs_Yield. apply Runs_Throw. }
  destruct Hrun as [o Hrun].
  destruct (decimal_run_requests _ _ _ _ _ Hrun) as [Hlen [_ Hreq]].
  split; [exact Hlen |].
  apply (Hreq inner nothing). now left.
Defined.

Lemma decimalCases_thrown caseFn dataType input wrapOptions trace err :
  In caseFn Decimal.decimalCases ->
  Runs (caseFn dataType input wrapOptions) trace (Thrown err) ->
  (exists e, err = Mismatch e
             /\ describes (DecimalT dataType) (name wrapOptions) e)
  \/ (exists request, err = BadResponseTypeError request OtherWrapResponse
                      /\ In (request, OtherWrapResponse) trace).
Proof.
  intros [<- | Hin] H.
  - exact (proj2 (proj2 (proj2 (decimalFromTypeValueInput_run _ _ _ _ _ H))) _ eq_refl).
  - exact (proj2 (proj2 (decimalCasesBasic_run _ _ _ _ _ _ Hin H)) _ eq_refl).
Qed.

(** X8. A run of the decimal list on any input ends in one of three ways:
    a value of the target type that the shared validator accepts; a
    Mismatch that names the target type and the argument, of specificity 3
    or more, since the fallback case fails with no less; or the protocol
    error, and then one of the responses of the run was of another kind. *)
Theorem decimal_run_ends_in_value_mismatch_or_protocol_error :
  forall dataType input wrapOptions trace o,
    Runs (wrapWithCases dataType input wrapOptions Decimal.decimalCases) trace o ->
    (exists v, o = Returned v /\ decimalType v = dataType
               /\ accepted dataType (asBig v))
    \/ (exists e, o = Thrown (Mismatch e)
                  /\ errorType e = DecimalT dataType
                  /\ argumentName e = name wrapOptions
                  /\ (3 <= specificity e <= 5)%nat)
    \/ (exists request,
          o = Thrown (BadResponseTypeError request OtherWrapResponse)
          /\ In (request, OtherWrapResponse) trace).
Proof.
  intros dataType input wrapOptions trace o H.
  destruct o as [v | err].
  - left. exists v. split; [reflexivity |].
    apply wrapWithCases_returned_inv in H. destruct H as [c [tr [Hin Hc]]].
    exact (decimalCases_returns _ _ _ _ _ _ Hin Hc).
  - right. pose proof H as Hinv. apply wrapFrom_thrown_inv in Hinv.
    destruct Hinv as [[c [tr [Hin [Hc Hincl]]]] | [[e [_ []]] | [_ [_ Hnil]]]];
      [| discriminate Hnil].
    destruct (decimalCases_thrown _ _ _ _ _ _ Hin Hc)
      as [[e [-> [Ht [Hn [Hlo Hhi]]]]] | [request [-> Hx]]].
    + left. exists e. repeat split; try assumption.
      apply (wrapFrom_floor dataType input wrapOptions Decimal.decimalFromOther 3)
        with (cases := [ Decimal.decimalFromTypeValueInput;
                         Decimal.decimalFromNumber; Decimal.decimalFromString;
                         Decimal.decimalFromBoxedNumber; Decimal.decimalFromBoxedString;
                         Decimal.decimalFromBigint; Decimal.decimalFromBN;
                         Decimal.decimalFromBig; Decimal.decimalFromDecimalValue;
                         Decimal.decimalFromIntegerValue; Decimal.decimalFromEnumValue;
                         Decimal.decimalFromEnumError ])
             (recorded := []) (trace := trace).
      * intros tr0 e0 H0.
        destruct (decimalFromOther_run _ _ _ _ _ H0) as [response [_ Hthrown]].
        destruct (Hthrown _ eq_refl) as [[e1 [He1 [_ Hs]]] | [_ Hbad]];
          [inversion He1; subst; exact Hs | discriminate Hbad].
      * exact H.
    + right. exists request. split; [reflexivity | now apply Hincl].
Qed.

Lemma decimal_run_ends_in_value_mismatch_or_protocol_error_witness :
  let dataType := {| typeClass := ufixed; bits := 8; places := 0 |} in
  let wrapOptions := {| name := "amount"; loose := false |} in
  let request := {| request_kind := "decimal"; request_input := IString "abc" |} in
  exists o,
    Runs (wrapWithCases dataType (IString "abc") wrapOptions Decimal.decimalCases)
         [(request, OtherWrapResponse)] o
    /\ ((exists v, o = Returned v /\ decimalType v = dataType
                   /\ accepted dataType (asBig v))
        \/ (exists e, o = Thrown (Mismatch e)
                      /\ errorType e = DecimalT dataType
                      /\ argumentName e = name wrapOptions
                      /\ (3 <= specificity e <= 5)%nat)
        \/ (exists rq,
              o = Thrown (BadResponseTypeError rq OtherWrapResponse)
              /\ In (rq, OtherWrapResponse) [(request, OtherWrapResponse)])).
Proof.
  intros dataType wrapOptions request.
  eexists.
  match goal with |- ?A /\ _ => assert (Hrun : A) end.
  { apply Runs_Yield. apply Runs_Throw. }
  split; [exact Hrun |].
  exact (decimal_run_ends_in_value_mismatch_or_protocol_error _ _ _ _ _ Hrun).
Defined.

(** ** Integers offered to a decimal type *)

Lemma validate_integer dataType z input name :
  (integerInRange dataType z ->
     Decimal.validate dataType (Conversion.toBig z) input name = Ok tt)
  /\ (~ integerInRange dataType z ->
     Decimal.validate dataType (Conversion.toBig z) input name
     = raiseMismatch (DecimalT dataType) input name 5 outOfRangeMessage).
Proof.
  pose proof (pow10_pos (places dataType)) as Hp.
  assert (Hdecide :
            (Big.gt (Conversion.toBig z) (Utils.maxValue dataType)
             || Big.lt (Conversion.toBig z) (Utils.minValue dataType)) = false
            <-> integerInRange dataType z).
  { unfold integerInRange, Utils.maxValue, Utils.minValue, Conversion.toBig.
    unfold Big.gt, Big.lt, Big.cmp, Big.of_Z.
    destruct (typeClass dataType); cbn [Big.unscaled Big.scale];
      change (Big.pow10 0) with 1; rewrite orb_false_iff.
    - destruct (Z.compare_spec (z * Big.pow10 (places dataType))
                  ((2 ^ Z.of_nat (bits dataType - 1) - 1) * 1));
        destruct (Z.compare_spec (z * Big.pow10 (places dataType))
                    (- 2 ^ Z.of_nat (bits dataType - 1) * 1));
        split; try (intros [? ?]; discriminate); try lia; intros; split; reflexivity.
    - destruct (Z.compare_spec (z * Big.pow10 (places dataType))
                  ((2 ^ Z.of_nat (bits dataType) - 1) * 1));
        destruct (Z.compare_spec (z * 1) (0 * 1));
        split; try (intros [? ?]; discriminate); try nia; intros; split; reflexivity. }
  unfold Decimal.validate.
  replace (places dataType <? Conversion.countDecimalPlaces (Conversion.toBig z))%nat
    with false by (symmetry; apply Nat.ltb_ge; cbn; lia).
  split; intros H.
  - apply Hdecide in H. now rewrite H.
  - destruct (Big.gt (Conversion.toBig z) (Utils.maxValue dataType)
              || Big.lt (Conversion.toBig z) (Utils.minValue dataType)) eqn:E;
      [reflexivity |].
    exfalso. apply H. now apply Hdecide.
Qed.

(** X9. An integer offered to a decimal type (a bigint, a BN or, under
    [loose], a wrapped integer, a wrapped enum value or the raw number of an
    out-of-range enum error) is never too precise: the case returns it
    exactly when, scaled by the places of the type, it is one of the
    integers of the width of the type, and fails otherwise with the
    out-of-range Mismatch of specificity 5. *)
Theorem integers_fail_only_on_range :
  forall (Req : Type) dataType wrapOptions
         (caseFn : Case DecimalType DecimalValue Req) input z,
    TakesInteger wrapOptions caseFn input z ->
    (integerInRange dataType z ->
       caseFn dataType input wrapOptions
       = Return {| decimalType := dataType; asBig := Big.of_Z z |})
    /\ (~ integerInRange dataType z ->
       caseFn dataType input wrapOptions
       = throwMismatch (DecimalT dataType) input (name wrapOptions) 5
           outOfRangeMessage).
Proof.
  intros Req dataType wrapOptions caseFn input z H.
  destruct H as [z | z | c b z Hl | n z Hl | n z Hl];
    match goal with
    | |- (_ -> ?f _ ?i _ = _) /\ _ =>
        destruct (validate_integer dataType z i (name wrapOptions)) as [Hin Hout]
    end;
    unfold Decimal.decimalFromBigint, Decimal.decimalFromBN,
           Decimal.decimalFromIntegerValue, Decimal.decimalFromEnumValue,
           Decimal.decimalFromEnumError;
    cbn [Utils.isWrappedResult]; rewrite ?Hl; cbn [negb];
    (split; intros Hr;
     [ rewrite (Hin Hr) | rewrite (Hout Hr) ]); reflexivity.
Qed.

Lemma integers_fail_only_on_range_witness :
  let ufixed8x1 := {| typeClass := ufixed; bits := 8; places := 1 |} in
  let wrapOptions := {| name := "amount"; loose := true |} in
  Decimal.decimalFromBigint (Req := never) ufixed8x1 (IBigint 25) wrapOptions
  = Return {| decimalType := ufixed8x1; asBig := Big.of_Z 25 |}
  /\ Decimal.decimalFromEnumValue (Req := never) ufixed8x1
       (IWrappedResult (EnumValue "Color" 26)) wrapOptions
     = throwMismatch (DecimalT ufixed8x1) (IWrappedResult (EnumValue "Color" 26))
         "amount" 5 outOfRangeMessage.
Proof.
  intros ufixed8x1 wrapOptions. split.
  - apply (proj1 (integers_fail_only_on_range never ufixed8x1 wrapOptions _ _ _
                    (TakesInteger_bigint wrapOptions 25))).
    vm_compute. split; intros H; discriminate H.
  - apply (proj2 (integers_fail_only_on_range never ufixed8x1 wrapOptions _ _ _
                    (TakesInteger_EnumValue wrapOptions "Color" 26 eq_refl))).
    vm_compute. intros [_ H]. now apply H.
Defined.

(** ** Wrapped integers and enums without [loose] *)

(** X10. Without [loose], the decimal list converts no wrapped integer or
    enum result by itself: the run makes one request for it.  A response of
    another kind gives the protocol error; a value the validator accepts is
    returned under the target type; in every other case the run fails with
    the specificity-5 Mismatch of the case for wrapped decimals, which
    names the type of the wrapped result, whatever the resolver said. *)
Theorem strict_run_leaves_wrapped_integers_to_the_resolver :
  forall dataType result wrapOptions,
    loose wrapOptions = false ->
    integerOrEnum result ->
    let input := IWrappedResult result in
    let request := {| request_kind := "decimal"; request_input := input |} in
    let refused :=
      throwMismatch (Req := DecimalWrapRequest) (A := DecimalValue)
        (DecimalT dataType) input (name wrapOptions) 5
        (wrappedTypeMessage (typeOf result)) in
    exists resume,
      wrapWithCases dataType input wrapOptions Decimal.decimalCases
      = Yield request resume
      /\ resume OtherWrapResponse
         = Throw (BadResponseTypeError request OtherWrapResponse)
      /\ (forall reason partiallyRecognized,
            resume (DecimalWrapResponse None reason partiallyRecognized) = refused)
      /\ (forall value reason partiallyRecognized,
            (accepted dataType value ->
               resume (DecimalWrapResponse (Some value) reason partiallyRecognized)
               = Return {| decimalType := dataType; asBig := value |})
            /\ (~ accepted dataType value ->
               resume (DecimalWrapResponse (Some value) reason partiallyRecognized)
               = refused)).
Proof.
  intros dataType result [argument relaxed] Hl Hie input request refused.
  simpl in Hl. subst relaxed.
  destruct result; try contradiction;
    (eexists; split; [reflexivity |]);
    (split; [reflexivity |]);
    (split;
     [ intros reason [[|] |]; reflexivity
     | intros value reason partiallyRecognized; cbv beta zeta; cbn [name];
       rewrite plus_zero; split; intros Ha;
       [ apply (validate_ok _ _ input argument) in Ha;
         rewrite Ha; reflexivity
       | destruct (validate_raises dataType value input argument Ha)
           as [[t i a s r] [He [Hs _]]];
         simpl in Hs; subst s;
         rewrite He; reflexivity ] ]).
Qed.

Lemma strict_run_leaves_wrapped_integers_to_the_resolver_witness :
  let ufixed8x0 := {| typeClass := ufixed; bits := 8; places := 0 |} in
  let wrapOptions := {| name := "amount"; loose := false |} in
  let input := IWrappedResult (IntegerValue uint 8 7) in
  let request := {| request_kind := "decimal"; request_input := input |} in
  Runs (wrapWithCases ufixed8x0 input wrapOptions Decimal.decimalCases)
       [(request, DecimalWrapResponse None None (Some true))]
       (Thrown (Mismatch
          {| errorType := DecimalT ufixed8x0; errorInput := input;
             argumentName := "amount"; specificity := 5;
             reason := wrappedTypeMessage (IntegerT uint 8) |})).
Proof.
  intros ufixed8x0 wrapOptions input request.
  destruct (strict_run_leaves_wrapped_integers_to_the_resolver
              ufixed8x0 (IntegerValue uint 8 7) wrapOptions eq_refl I)
    as [resume [Hrun [_ [Hnone _]]]].
  fold input in Hrun. rewrite Hrun. apply Runs_Yield.
  rewrite Hnone. apply Runs_Throw.
Defined.

(** ** Strings offered to a decimal type *)

Lemma decimalFromString_thrown {Req : Type} dataType s wrapOptions err :
  Decimal.decimalFromString (Req := Req) dataType (IString s) wrapOptions = Throw err ->
  exists e, err = Mismatch e /\ specificity e = 5%nat.
Proof.
  unfold Decimal.decimalFromString.
  destruct (Big.parse (JS.trim s)) as [b |].
  - destruct (Decimal.validate dataType b (IString s) (name wrapOptions))
      as [[] | err0] eqn:E; cbn [call]; [discriminate |].
    intros H. inversion H; subst.
    destruct (validate_raise_inv _ _ _ _ _ E) as [e [-> [_ Hs]]]. now exists e.
  - intros H. inversion H; subst. eexists. split; reflexivity.
Qed.

(** X11. A string offered to a decimal type.  When the string case returns
    a value, the whole list returns it without a request.  When the string
    case rejects the string (not a number, too precise or out of range), the
    list still asks the resolver, once: a valid value from the resolver is
    returned; in every other case the run fails with the error of the string
    case, of specificity 5, whatever the resolver said; a response of
    another kind gives the protocol error. *)
Theorem rejected_string_goes_to_the_resolver :
  forall dataType s wrapOptions,
    let input := IString s in
    let request := {| request_kind := "decimal"; request_input := input |} in
    (forall v,
        Decimal.decimalFromString (Req := DecimalWrapRequest) dataType input wrapOptions
        = Return v ->
        wrapWithCases dataType input wrapOptions Decimal.decimalCases = Return v)
    /\ (forall err,
          Decimal.decimalFromString (Req := DecimalWrapRequest) dataType input wrapOptions
          = Throw err ->
          exists e resume,
            err = Mismatch e
            /\ specificity e = 5%nat
            /\ wrapWithCases dataType input wrapOptions Decimal.decimalCases
               = Yield request resume
            /\ resume OtherWrapResponse
               = Throw (BadResponseTypeError request OtherWrapResponse)
            /\ (forall reason partiallyRecognized,
                  resume (DecimalWrapResponse None reason partiallyRecognized)
                  = Throw (Mismatch e))
            /\ (forall value reason partiallyRecognized,
                  (accepted dataType value ->
                     resume (DecimalWrapResponse (Some value) reason partiallyRecognized)
                     = Return {| decimalType := dataType; asBig := value |})
                  /\ (~ accepted dataType value ->
                     resume (DecimalWrapResponse (Some value) reason partiallyRecognized)
                     = Throw (Mismatch e)))).
Proof.
  intros dataType s [argument relaxed] input request. split.
  - intros v Hv.
    unfold wrapWithCases, Decimal.decimalCases, Decimal.decimalCasesBasic.
    cbn [wrapFrom]. fold input. rewrite Hv. reflexivity.
  - intros err Herr.
    destruct (decimalFromString_thrown _ _ _ _ Herr) as [[t i a sp r] [-> Hs]].
    simpl in Hs. subst sp.
    eexists. eexists. split; [reflexivity |]. split; [reflexivity |]. split.
    { unfold wrapWithCases, Decimal.decimalCases, Decimal.decimalCasesBasic.
      cbn [wrapFrom]. fold input. rewrite Herr. reflexivity. }
    split; [reflexivity |]. split.
    + intros reason [[|] |]; reflexivity.
    + intros value reason partiallyRecognized. cbv beta zeta. cbn [name].
      rewrite plus_zero. split; intros Ha.
      * apply (validate_ok _ _ input argument) in Ha. rewrite Ha. reflexivity.
      * destruct (validate_raises dataType value input argument Ha)
          as [[t' i' a' s' r'] [He [Hs' _]]].
        simpl in Hs'. subst s'. rewrite He. reflexivity.
Qed.

Lemma rejected_string_goes_to_the_resolver_witness :
  let ufixed8x0 := {| typeClass := ufixed; bits := 8; places := 0 |} in
  let wrapOptions := {| name := "amount"; loose := false |} in
  let request := {| request_kind := "decimal"; request_input := IString "1.5" |} in
  Runs (wrapWithCases ufixed8x0 (IString "1.5") wrapOptions Decimal.decimalCases)
       [(request, DecimalWrapResponse (Some (Big.of_Z 2)) None None)]
       (Returned {| decimalType := ufixed8x0; asBig := Big.of_Z 2 |}).
Proof.
  intros ufixed8x0 wrapOptions request.
  destruct (proj2 (rejected_string_goes_to_the_resolver ufixed8x0 "1.5" wrapOptions)
              _ eq_refl)
    as [e [resume [_ [_ [Hrun [_ [_ Hvalue]]]]]]].
  rewrite Hrun. apply Runs_Yield.
  rewrite (proj1 (Hvalue (Big.of_Z 2) None None)).
  - apply Runs_Return.
  - repeat split; vm_compute; lia.
Defined.

(** ** The bytes list as a dispatch on the shape of the input *)

Lemma validateAndPad_raise_five dataType asHex input name err :
  Bytes.validateAndPad dataType asHex input name = Raise err ->
  exists e, err = Mismatch e /\ (2 <= specificity e <= 5)%nat.
Proof.
  destruct dataType as [length |]; [| discriminate].
  rewrite validateAndPad_static.
  destruct (2 * length + 2 <? String.length asHex)%nat; [| discriminate].
  intros H. inversion H; subst. eexists. split; [reflexivity | simpl; lia].
Qed.

Lemma checkElements_raise_five input dataType name elements remaining : forall index err,
  Bytes.checkElements input dataType name elements remaining index = Raise err ->
  exists e, err = Mismatch e /\ (2 <= specificity e <= 5)%nat.
Proof.
  induction remaining as [| remaining IH]; intros index err; cbn [Bytes.checkElements];
    [discriminate |].
  destruct (Bytes.notAByte (nth index elements ENotANumber)); [| apply IH].
  intros H. inversion H; subst. eexists. split; [reflexivity | simpl; lia].
Qed.

Lemma validateUint8ArrayLike_raise_five input dataType name err :
  Bytes.validateUint8ArrayLike input dataType name = Raise err ->
  exists e, err = Mismatch e /\ (2 <= specificity e <= 5)%nat.
Proof.
  destruct input as [contents | length elements]; cbn [Bytes.validateUint8ArrayLike];
    [discriminate |].
  destruct (negb (JS.isSafeInteger length)).
  - intros H. inversion H; subst. eexists. split; [reflexivity | simpl; lia].
  - destruct (JS.ltZ length 0); [| apply checkElements_raise_five].
    intros H. inversion H; subst. eexists. split; [reflexivity | simpl; lia].
Qed.

Ltac thrown_above_one H :=
  unfold throwMismatch in H; inversion H; subst; clear H;
  first
    [ eexists; split; [reflexivity |]; simpl; lia
    | match goal with
      | E : Bytes.validateAndPad _ _ _ _ = Raise _ |- _ =>
          exact (validateAndPad_raise_five _ _ _ _ _ E)
      | E : Bytes.validateUint8ArrayLike _ _ _ = Raise _ |- _ =>
          exact (validateUint8ArrayLike_raise_five _ _ _ _ E)
      end ].

(** On an input of its own shape a case fails with a specificity above
    1. *)
Lemma bytesOwner_thrown input dataType wrapOptions trace err :
  Runs (bytesOwner input dataType input wrapOptions) trace (Thrown err) ->
  exists e, err = Mismatch e /\ (2 <= specificity e <= 5)%nat.
Proof.
  intros H.
  destruct input; cbn [bytesOwner] in H;
    try (unfold Bytes.bytesFailureCase in H; thrown_above_one H).
  - unfold Bytes.bytesFromHexString in H. run_cases H; thrown_above_one H.
  - unfold Bytes.bytesFromBoxedString, Bytes.bytesFromHexString in H.
    cbn [Utils.isBoxedString] in H. run_cases H; thrown_above_one H.
  - unfold Bytes.bytesFromUint8ArrayLike in H. cbn [Utils.isUint8ArrayLike] in H.
    run_cases H; thrown_above_one H.
  - unfold Bytes.bytesFromEncodingTextInput in H.
    cbn [Utils.isEncodingTextInput] in H. run_cases H; thrown_above_one H.
  - unfold Bytes.bytesFromTypeValueInput in H. cbn [Utils.isTypeValueInput] in H.
    destruct (negb (Bytes.matchesByteType type)); [thrown_above_one H |].
    destruct (negb (Bytes.lengthMatches (Bytes.specifiedLength type) dataType));
      [thrown_above_one H |].
    pose proof H as Hinv. apply wrapFrom_thrown_inv in Hinv.
    destruct Hinv as [[c [tr [Hin [Hc _]]]] | [[e [_ []]] | [_ [_ Hnil]]]];
      [| discriminate Hnil].
    destruct (bytesCasesBasic_thrown _ _ _ _ _ _ Hin Hc) as [e [-> [_ [_ [_ Hhi]]]]].
    exists e. split; [reflexivity |]. split; [| exact Hhi].
    apply (wrapFrom_floor dataType input (withLoose wrapOptions) Bytes.bytesFailureCase 2)
      with (cases := [ Bytes.bytesFromHexString; Bytes.bytesFromBoxedString;
                       Bytes.bytesFromUint8ArrayLike; Bytes.bytesFromBytesValue;
                       Bytes.bytesFromEncodingTextInput ])
           (recorded := []) (trace := trace).
    + intros tr0 e0 H0. unfold Bytes.bytesFailureCase, throwMismatch in H0.
      inversion H0; subst. simpl. lia.
    + exact H.
  - unfold Bytes.bytesFromBytesValue in H. cbn [Utils.isWrappedResult] in H.
    run_cases H; thrown_above_one H.
Qed.

(** X12. The bytes list is a dispatch on the shape of the input: for every
    input, the run of the whole list ends exactly as the one case that is
    for inputs of that shape does: the hex-string case for a string, the
    boxed-string case for a boxed string, the byte-array case for an
    array-like, the wrapped-value case for a wrapped result, the
    encoding/text case for such a pair, the type-annotated case for a
    type/value pair, and the catch-all failure for anything else.  No
    failure of another case is ever reported in its place. *)
Theorem bytes_run_is_the_case_of_the_shape :
  forall dataType input wrapOptions,
    wrapWithCases dataType input wrapOptions Bytes.bytesCases
    = bytesOwner input dataType input wrapOptions.
Proof.
  intros dataType input wrapOptions.
  destruct (never_yields (bytesOwner input dataType input wrapOptions))
    as [[v Hv] | [err Herr]].
  - rewrite Hv.
    unfold wrapWithCases, Bytes.bytesCases, Bytes.bytesCasesBasic. cbn [wrapFrom].
    destruct input; cbn [bytesOwner] in Hv; rewrite ?Hv; try reflexivity;
      discriminate Hv.
  - assert (Hrun : Runs (bytesOwner input dataType input wrapOptions) []
                        (Thrown err)) by (rewrite Herr; constructor).
    destruct (bytesOwner_thrown _ _ _ _ _ Hrun) as [[t i a sp r] [-> [Hlo Hhi]]].
    simpl in Hlo, Hhi. rewrite Herr.
    unfold wrapWithCases, Bytes.bytesCases, Bytes.bytesCasesBasic. cbn [wrapFrom].
    destruct sp as [| [| [| [| [| [| sp]]]]]]; try lia;
      destruct input; cbn [bytesOwner] in Herr; rewrite ?Herr; reflexivity.
Qed.

(** ** The values of the literal bytes cases are canonical *)

Lemma pairs_ind (P : string -> Prop) :
  P EmptyString ->
  (forall a, P (String a EmptyString)) ->
  (forall a b s, P s -> P (String a (String b s))) ->
  forall s, P s.
Proof.
  intros H0 H1 H2.
  assert (Hboth : forall s, P s /\ forall a, P (String a s)).
  { induction s as [| c s [IH IH']]; split; auto. }
  intros s. apply Hboth.
Qed.

Lemma isHexDigit_lowerChar (c : ascii) :
  Utils.isHexDigit c = true -> Utils.isHexDigit (JS.lowerChar c) = true.
Proof.
  destruct c as [[] [] [] [] [] [] [] []]; intros H; try discriminate H; reflexivity.
Qed.

Lemma isHexPairs_toLowerCase (s : string) :
  Utils.isHexPairs s = true -> Utils.isHexPairs (JS.toLowerCase s) = true.
Proof.
  induction s as [| a | a b s IH] using pairs_ind; [reflexivity | discriminate |].
  cbn [Utils.isHexPairs JS.toLowerCase]. intros H.
  apply andb_true_iff in H. destruct H as [H Hs].
  apply andb_true_iff in H. destruct H as [Ha Hb].
  now rewrite (isHexDigit_lowerChar _ Ha), (isHexDigit_lowerChar _ Hb), (IH Hs).
Qed.

Lemma isHexPairs_append (s t : string) :
  Utils.isHexPairs s = true -> Utils.isHexPairs t = true ->
  Utils.isHexPairs (s ++ t) = true.
Proof.
  induction s as [| a | a b s IH] using pairs_ind; [auto | discriminate |].
  cbn [Utils.isHexPairs append]. intros H Ht.
  apply andb_true_iff in H. destruct H as [H Hs].
  now rewrite H, (IH Hs Ht).
Qed.

Lemma isHexPairs_zeros (k : nat) : Utils.isHexPairs (zeros (2 * k)) = true.
Proof.
  induction k as [| k IH]; [reflexivity |].
  replace (2 * S k)%nat with (S (S (2 * k))) by lia.
  cbn [zeros Utils.isHexPairs]. now rewrite IH.
Qed.

Lemma isHexPairs_even (s : string) :
  Utils.isHexPairs s = true -> exists n, String.length s = (2 * n)%nat.
Proof.
  induction s as [| a | a b s IH] using pairs_ind; [now exists O | discriminate |].
  cbn [Utils.isHexPairs]. intros H.
  apply andb_true_iff in H. destruct H as [_ Hs].
  destruct (IH Hs) as [n Hn]. exists (S n). simpl. rewrite Hn. lia.
Qed.

Lemma isHexDigit_hexDigit (n : N) : Utils.isHexDigit (Conversion.hexDigit n) = true.
Proof.
  unfold Conversion.hexDigit. generalize (N.to_nat n) as k. intros k.
  do 16 (destruct k as [| k]; [reflexivity |]).
  destruct k; reflexivity.
Qed.

Lemma isHexPairs_bytesToHex (bytes : list byte) :
  Utils.isHexPairs (Conversion.bytesToHex bytes) = true.
Proof.
  induction bytes as [| b bytes IH]; [reflexivity |].
  cbn [Conversion.bytesToHex Conversion.byteToHex append Utils.isHexPairs].
  now rewrite !isHexDigit_hexDigit, IH.
Qed.

Lemma isByteString_toHexString (bytes : list byte) :
  Utils.isByteString (Conversion.toHexString bytes) = true.
Proof. apply isHexPairs_bytesToHex. Qed.

Lemma isByteString_inv (s : string) :
  Utils.isByteString s = true ->
  exists rest, s = String "0" (String "x" rest) /\ Utils.isHexPairs rest = true.
Proof.
  intros H.
  destruct s as [| c0 s]; [discriminate H |].
  destruct c0 as [[] [] [] [] [] [] [] []]; try discriminate H.
  destruct s as [| c1 s]; [discriminate H |].
  destruct c1 as [[] [] [] [] [] [] [] []]; try discriminate H.
  exists s. split; [reflexivity | exact H].
Qed.

(** The post-step turns a byte string into a canonical payload. *)
Lemma validateAndPad_canonical_payload dataType asHex input name padded :
  Utils.isByteString asHex = true ->
  Bytes.validateAndPad dataType asHex input name = Ok padded ->
  canonicalBytes {| bytesType := dataType; asHex := padded |}.
Proof.
  intros Hb Hok. unfold canonicalBytes. cbn [Format.asHex bytesType].
  split; [| split].
  - destruct (isByteString_inv _ Hb) as [rest [-> Hrest]]. clear Hb.
    rename Hrest into Hb.
    destruct (isHexPairs_even _ Hb) as [n Hn].
    destruct dataType as [length |].
    + rewrite validateAndPad_static in Hok.
      destruct (Nat.ltb_spec (2 * length + 2) (String.length (String "0" (String "x" rest))))
        as [Hlt | Hge]; [discriminate |].
      injection Hok as <-. cbn [String.length] in Hge.
      match goal with
      | |- context [zeros ?k] =>
          replace k with (2 * (length - n))%nat by (cbn [String.length]; lia)
      end.
      change (JS.toLowerCase (String "0" (String "x" rest)))
        with (String "0" (String "x" (JS.toLowerCase rest))).
      cbn [append Utils.isByteString].
      apply isHexPairs_append; [now apply isHexPairs_toLowerCase | apply isHexPairs_zeros].
    + simpl in Hok. injection Hok as <-.
      cbn [Utils.isByteString]. now apply isHexPairs_toLowerCase.
  - assert (Hfix := validateAndPad_fixpoint _ _ _ _ _ input name Hok).
    destruct dataType as [length |].
    + rewrite validateAndPad_static in Hok, Hfix.
      destruct (2 * length + 2 <? String.length asHex)%nat; [discriminate |].
      injection Hok as <-.
      now rewrite toLowerCase_append, toLowerCase_idempotent, toLowerCase_zeros.
    + simpl in Hok. injection Hok as <-. apply toLowerCase_idempotent.
  - destruct dataType as [length |]; [| exact I].
    exact (validateAndPad_length _ _ _ _ _ Hok length eq_refl).
Qed.

(** X13. The values that the cases for literal bytes return (hex string,
    boxed string, byte-array-like, encoding/text pair) are canonical: the
    payload is "0x" and an even number of hex digits, it is in lower case,
    and for a static type it has exactly the length of the type. *)
Theorem literal_bytes_cases_return_canonical_values :
  forall caseFn dataType input wrapOptions trace v,
    In caseFn [ Bytes.bytesFromHexString; Bytes.bytesFromBoxedString;
                Bytes.bytesFromUint8ArrayLike; Bytes.bytesFromEncodingTextInput ] ->
    Runs (caseFn dataType input wrapOptions) trace (Returned v) ->
    canonicalBytes v.
Proof.
  intros caseFn dataType input wrapOptions trace v Hin H. simpl in Hin.
  assert (Hpayload : forall asHex reported name padded,
             Utils.isByteString asHex = true ->
             Bytes.validateAndPad dataType asHex reported name = Ok padded ->
             canonicalBytes {| bytesType := dataType; asHex := padded |})
    by (intros; eapply validateAndPad_canonical_payload; eassumption).
  repeat (destruct Hin as [<- | Hin]); try contradiction;
    unfold Bytes.bytesFromBoxedString, Bytes.bytesFromHexString,
           Bytes.bytesFromUint8ArrayLike, Bytes.bytesFromEncodingTextInput in H;
    returned_run H;
    match goal with
    | E : Bytes.validateAndPad _ _ _ _ = Ok _ |- _ =>
        apply (fun Hb => Hpayload _ _ _ _ Hb E)
    end;
    first
      [ apply isByteString_toHexString
      | match goal with
        | E : negb (Utils.isByteString _) = false |- _ =>
            now apply negb_false_iff in E
        end ].
Qed.

Lemma literal_bytes_cases_return_canonical_values_witness :
  canonicalBytes {| bytesType := BytesTypeStatic 3; asHex := "0xab1200" |}.
Proof.
  apply (literal_bytes_cases_return_canonical_values Bytes.bytesFromHexString
           (BytesTypeStatic 3) (IString "0xAB12")
           {| name := "data"; loose := false |} []).
  - simpl. tauto.
  - apply Runs_Return.
Defined.

(** ** Wrapped bytes of another type *)

(** X14. Changing the type of a wrapped bytes value takes an annotation.
    Without [loose], a bare wrapped bytes value whose type is not the target
    type is refused by the whole list with a Mismatch of specificity 5 that
    names the type of the value.  The same value inside a type/value pair
    whose annotation stands for the target type is converted: its payload
    is put in lower case, checked against the target length and padded, and
    a failure of that check reports the value of the pair, not the pair. *)
Theorem bytes_of_another_type_need_an_annotation :
  forall dataType v wrapOptions type,
    Bytes.sameBytesType (bytesType v) dataType = false ->
    loose wrapOptions = false ->
    BytesAnnotation type (lengthOfType dataType) ->
    let wrapped := IWrappedResult (OfBytesValue v) in
    wrapWithCases dataType wrapped wrapOptions Bytes.bytesCases
    = throwMismatch (BytesT dataType) wrapped (name wrapOptions) 5
        (wrappedTypeMessage (BytesT (bytesType v)))
    /\ wrapWithCases dataType (ITypeValueInput type wrapped) wrapOptions
         Bytes.bytesCases
       = (let* padded := Bytes.validateAndPad dataType (asHex v) wrapped
                           (name wrapOptions) in
          Return {| bytesType := dataType; asHex := padded |}).
Proof.
  intros dataType v wrapOptions type Hdiff Hstrict Ha wrapped.
  destruct (bytesAnnotation_complete _ _ Ha) as [Hm Hl].
  assert (Hlen : Bytes.lengthMatches (Bytes.specifiedLength type) dataType = true)
    by (rewrite Hl; now apply lengthMatches_iff).
  split.
  - unfold wrapWithCases, Bytes.bytesCases, Bytes.bytesCasesBasic, wrapped.
    cbn [wrapFrom].
    unfold Bytes.bytesFromTypeValueInput, Bytes.bytesFromHexString,
      Bytes.bytesFromBoxedString, Bytes.bytesFromUint8ArrayLike,
      Bytes.bytesFromBytesValue, Bytes.bytesFromEncodingTextInput,
      Bytes.bytesFailureCase.
    cbn [Utils.isTypeValueInput Utils.isBoxedString Utils.isUint8ArrayLike
         Utils.isWrappedResult Utils.isEncodingTextInput].
    rewrite Hstrict, Hdiff. reflexivity.
  - unfold wrapWithCases, Bytes.bytesCases. cbn [wrapFrom].
    unfold Bytes.bytesFromTypeValueInput at 1. cbn [Utils.isTypeValueInput].
    rewrite Hm, Hlen. cbn [negb].
    unfold wrapWithCases, Bytes.bytesCasesBasic, wrapped. cbn [wrapFrom].
    unfold Bytes.bytesFromHexString at 1, Bytes.bytesFromBoxedString at 1,
      Bytes.bytesFromUint8ArrayLike at 1, Bytes.bytesFromBytesValue at 1.
    unfold withLoose.
    cbn [Utils.isBoxedString Utils.isUint8ArrayLike Utils.isWrappedResult
         tryCase throwMismatch name loose negb andb app].
    destruct dataType as [length |].
    + rewrite validateAndPad_static.
      destruct (2 * length + 2 <? String.length (asHex v))%nat; reflexivity.
    + reflexivity.
Qed.

Lemma bytes_of_another_type_need_an_annotation_witness :
  let v := {| bytesType := BytesTypeStatic 2; asHex := "0xAB12" |} in
  let wrapOptions := {| name := "data"; loose := false |} in
  let wrapped := IWrappedResult (OfBytesValue v) in
  wrapWithCases (BytesTypeStatic 4) wrapped wrapOptions Bytes.bytesCases
  = throwMismatch (BytesT (BytesTypeStatic 4)) wrapped "data" 5
      (wrappedTypeMessage (BytesT (BytesTypeStatic 2)))
  /\ wrapWithCases (BytesTypeStatic 4) (ITypeValueInput "bytes4" wrapped) wrapOptions
       Bytes.bytesCases
     = Return {| bytesType := BytesTypeStatic 4; asHex := "0xab120000" |}.
Proof.
  apply (bytes_of_another_type_need_an_annotation (BytesTypeStatic 4)
           {| bytesType := BytesTypeStatic 2; asHex := "0xAB12" |}
           {| name := "data"; loose := false |} "bytes4").
  - reflexivity.
  - reflexivity.
  - exact (BytesAnnotation_static "4" eq_refl ltac:(discriminate)).
Defined.

(** ** Boxed strings and numbers *)

Lemma decimalFromString_settles {Req : Type} dataType s wrapOptions :
  (exists v,
      Decimal.decimalFromString (Req := Req) dataType (IString s) wrapOptions
      = Return v)
  \/ (exists e,
        Decimal.decimalFromString (Req := Req) dataType (IString s) wrapOptions
        = Throw (Mismatch e)
        /\ specificity e = 5%nat).
Proof.
  unfold Decimal.decimalFromString.
  destruct (Big.parse (JS.trim s)) as [b |].
  - destruct (Decimal.validate dataType b (IString s) (name wrapOptions)) eqn:E;
      cbn [call].
    + left. eexists. reflexivity.
    + right. destruct (validate_raise_inv _ _ _ _ _ E) as [m [-> [_ Hs]]].
      now exists m.
  - right. eexists. split; reflexivity.
Qed.

Lemma decimalFromNumber_settles {Req : Type} dataType n wrapOptions :
  (exists v,
      Decimal.decimalFromNumber (Req := Req) dataType (INumber n) wrapOptions
      = Return v)
  \/ (exists e,
        Decimal.decimalFromNumber (Req := Req) dataType (INumber n) wrapOptions
        = Throw (Mismatch e)
        /\ specificity e = 5%nat).
Proof.
  unfold Decimal.decimalFromNumber.
  destruct n as [| negative | d]; try (right; eexists; split; reflexivity).
  destruct (negb (Utils.isSafeNumber dataType d));
    [right; eexists; split; reflexivity |].
  cbv zeta.
  destruct (Decimal.validate dataType d (INumber (JS.Finite d)) (name wrapOptions))
    eqn:E; cbn [call].
  - left. eexists. reflexivity.
  - right. destruct (validate_raise_inv _ _ _ _ _ E) as [m [-> [_ Hs]]].
    now exists m.
Qed.

(** X15. Boxed inputs are unboxed.  For a bytes type the run on a boxed
    string is the run on its string, errors included: what a failure
    reports as the input is the string, not the box.  For a decimal type a
    boxed string or number is accepted without a request exactly when its
    primitive is, and with the same value. *)
Theorem boxed_inputs_are_unboxed :
  (forall dataType s wrapOptions,
      wrapWithCases dataType (IBoxedString s) wrapOptions Bytes.bytesCases
      = wrapWithCases dataType (IString s) wrapOptions Bytes.bytesCases)
  /\ (forall dataType s wrapOptions v,
        wrapWithCases dataType (IBoxedString s) wrapOptions Decimal.decimalCases
        = Return v
        <-> wrapWithCases dataType (IString s) wrapOptions Decimal.decimalCases
            = Return v)
  /\ (forall dataType n wrapOptions v,
        wrapWithCases dataType (IBoxedNumber n) wrapOptions Decimal.decimalCases
        = Return v
        <-> wrapWithCases dataType (INumber n) wrapOptions Decimal.decimalCases
            = Return v).
Proof.
  split; [| split].
  - intros dataType s wrapOptions.
    unfold wrapWithCases, Bytes.bytesCases, Bytes.bytesCasesBasic. cbn [wrapFrom].
    change (Bytes.bytesFromBoxedString dataType (IBoxedString s) wrapOptions)
      with (Bytes.bytesFromHexString dataType (IString s) wrapOptions).
    destruct (never_yields (Bytes.bytesFromHexString dataType (IString s) wrapOptions))
      as [[v Hv] | [err Herr]].
    + rewrite Hv. reflexivity.
    + assert (Hrun : Runs (bytesOwner (IString s) dataType (IString s) wrapOptions) []
                          (Thrown err)) by (cbn [bytesOwner]; rewrite Herr; constructor).
      destruct (bytesOwner_thrown _ _ _ _ _ Hrun) as [[t i a sp r] [-> [Hlo Hhi]]].
      simpl in Hlo, Hhi. rewrite Herr.
      destruct sp as [| [| [| [| [| [| sp]]]]]]; try lia; reflexivity.
  - intros dataType s wrapOptions v.
    unfold wrapWithCases, Decimal.decimalCases, Decimal.decimalCasesBasic.
    cbn [wrapFrom].
    change (Decimal.decimalFromBoxedString dataType (IBoxedString s) wrapOptions)
      with (Decimal.decimalFromString (Req := DecimalWrapRequest)
              dataType (IString s) wrapOptions).
    destruct (decimalFromString_settles (Req := DecimalWrapRequest)
                dataType s wrapOptions) as [[v0 Hv] | [[t i a sp r] [Herr Hs]]].
    + rewrite Hv. reflexivity.
    + simpl in Hs. subst sp. rewrite Herr. split; intros H; discriminate H.
  - intros dataType n wrapOptions v.
    unfold wrapWithCases, Decimal.decimalCases, Decimal.decimalCasesBasic.
    cbn [wrapFrom].
    change (Decimal.decimalFromBoxedNumber dataType (IBoxedNumber n) wrapOptions)
      with (Decimal.decimalFromNumber (Req := DecimalWrapRequest)
              dataType (INumber n) wrapOptions).
    destruct (decimalFromNumber_settles (Req := DecimalWrapRequest)
                dataType n wrapOptions) as [[v0 Hv] | [[t i a sp r] [Herr Hs]]].
    + rewrite Hv. reflexivity.
    + simpl in Hs. subst sp. rewrite Herr. split; intros H; discriminate H.
Qed.
